(** * Flight-crash harvesting pipeline: a shallow embedding and its properties

    The development follows the repository's layout:
    - [ASN_scraping/scraper.py]   (class [AviationSafetyScraper]),
    - [NTSB_scraping/script.py]   (class [NTSBScraper]),
    - [NTSB_scraping/merge_extracted_json.py],
    - [TL/load_staging.py].

    Python values are modelled as follows.  [int] is [Z]; [str] is a Rocq
    [string] whose characters stand for the code points 0..255; [None],
    numbers, strings, lists and dicts that travel through JSON are the
    constructors of [json]; an exception that leaves a function is the
    [Raise] constructor of [result]. *)

From Stdlib Require Import ZArith Lia Ascii String List Bool.
From stdpp Require Import base tactics option list numbers strings pretty gmap.

Local Open Scope string_scope.
Local Open Scope list_scope.
Local Open Scope Z_scope.

(** ** Exceptions and results *)

Inductive exn : Type :=
| KeyError
| TypeError
| AttributeError
| ValueError
| OverflowError
| DatabaseError.

Inductive result (A : Type) : Type :=
| Ok (a : A)
| Raise (e : exn).

Arguments Ok {A} a.
Arguments Raise {A} e.

#[global] Instance result_ret : MRet result := λ A a, Ok a.

#[global] Instance result_bind : MBind result := λ A B k r,
  match r with
  | Ok a => k a
  | Raise e => Raise e
  end.

(** ** Python [str] operations used by the sources *)

Module Str.

(** [str.isspace] on one character, for code points below 256. *)
Definition isspace (c : ascii) : bool :=
  let n := nat_of_ascii c in
  ((9 <=? n) && (n <=? 13) || (28 <=? n) && (n <=? 32)
   || (n =? 133) || (n =? 160))%nat.

Fixpoint lstrip (s : string) : string :=
  match s with
  | String c s' => if isspace c then lstrip s' else s
  | EmptyString => EmptyString
  end.

Fixpoint rstrip (s : string) : string :=
  match s with
  | String c s' =>
      match rstrip s' with
      | EmptyString => if isspace c then EmptyString else String c EmptyString
      | r => String c r
      end
  | EmptyString => EmptyString
  end.

(** [bool(s)] *)
Definition truthy (s : string) : bool :=
  match s with
  | EmptyString => false
  | String _ _ => true
  end.

(** [s.strip()] *)
Definition strip (s : string) : string := rstrip (lstrip s).

(** [str.lower] on one character, for code points below 256. *)
Definition lower_char (c : ascii) : ascii :=
  let n := nat_of_ascii c in
  if ((65 <=? n) && (n <=? 90)
      || (192 <=? n) && (n <=? 222) && negb (n =? 215))%nat
  then ascii_of_nat (n + 32) else c.

(** [s.lower()] *)
Fixpoint lower (s : string) : string :=
  match s with
  | String c s' => String (lower_char c) (lower s')
  | EmptyString => EmptyString
  end.

(** [s.replace(old, new)] for a one-character [old]. *)
Fixpoint replace (old : ascii) (new : string) (s : string) : string :=
  match s with
  | String c s' =>
      if Ascii.eqb c old then new +:+ replace old new s'
      else String c (replace old new s')
  | EmptyString => EmptyString
  end.

(** [s.startswith(p)] *)
Fixpoint startswith (p s : string) : bool :=
  match p, s with
  | EmptyString, _ => true
  | String a p', String b s' => Ascii.eqb a b && startswith p' s'
  | String _ _, EmptyString => false
  end.

(** [needle in hay] *)
Fixpoint contains (needle hay : string) : bool :=
  startswith needle hay ||
  match hay with
  | String _ hay' => contains needle hay'
  | EmptyString => false
  end.

(** [s.split(sep)] for a one-character [sep]: never empty. *)
Fixpoint split (sep : ascii) (s : string) : list string :=
  match s with
  | String c s' =>
      if Ascii.eqb c sep then EmptyString :: split sep s'
      else match split sep s' with
           | p :: ps => String c p :: ps
           | [] => [String c EmptyString]
           end
  | EmptyString => [EmptyString]
  end.

(** The maximal runs of non-whitespace characters of [s], in order. *)
Fixpoint words_go (cur : string) (s : string) : list string :=
  match s with
  | String c s' =>
      if isspace c then
        (if truthy cur then [String.rev cur] else []) ++ words_go EmptyString s'
      else words_go (String c cur) s'
  | EmptyString => if truthy cur then [String.rev cur] else []
  end.

Definition words (s : string) : list string := words_go EmptyString s.

(** [str(n)] for an [int]. *)
Definition of_int (n : Z) : string := pretty n.

Fixpoint zfill_go (k : nat) (s : string) : string :=
  match k with
  | O => s
  | S k' => String "0" (zfill_go k' s)
  end.

(** [format(n, "0wd")]: the sign counts in the width. *)
Definition format_0d (w : nat) (n : Z) : string :=
  if n <? 0 then
    let digits := pretty (- n) in
    String "-" (zfill_go (w - 1 - String.length digits) digits)
  else
    let digits := pretty n in
    zfill_go (w - String.length digits) digits.

End Str.

(** ** The [datetime] module, as far as [script.py] uses it

    The ordinal arithmetic is that of CPython's [datetime]: a date is
    converted to its proleptic Gregorian ordinal, the day count is
    subtracted, and the ordinal is converted back. *)

Module datetime.

Definition MINYEAR : Z := 1.
Definition MAXYEAR : Z := 9999.
Definition _MAXORDINAL : Z := 3652059.

Definition _DAYS_IN_MONTH : list Z :=
  [-1; 31; 28; 31; 30; 31; 30; 31; 31; 30; 31; 30; 31].

Definition _DAYS_BEFORE_MONTH : list Z :=
  [-1; 0; 31; 59; 90; 120; 151; 181; 212; 243; 273; 304; 334].

(** [l[i]] for an index known to be in range. *)
Definition item (l : list Z) (i : Z) : Z := nth (Z.to_nat i) l 0.

Definition int_of_bool (b : bool) : Z := if b then 1 else 0.

Definition _is_leap (year : Z) : bool :=
  (year mod 4 =? 0) && (negb (year mod 100 =? 0) || (year mod 400 =? 0)).

Definition _days_before_year (year : Z) : Z :=
  let y := year - 1 in
  y * 365 + y / 4 - y / 100 + y / 400.

Definition _days_in_month (year month : Z) : Z :=
  if (month =? 2) && _is_leap year then 29 else item _DAYS_IN_MONTH month.

Definition _days_before_month (year month : Z) : Z :=
  item _DAYS_BEFORE_MONTH month + int_of_bool ((2 <? month) && _is_leap year).

Definition _ymd2ord (year month day : Z) : Z :=
  _days_before_year year + _days_before_month year month + day.

Definition _DI400Y : Z := Eval cbv in _days_before_year 401.
Definition _DI100Y : Z := Eval cbv in _days_before_year 101.
Definition _DI4Y : Z := Eval cbv in _days_before_year 5.

Definition _ord2ymd (n : Z) : Z * Z * Z :=
  let n := n - 1 in
  let n400 := n / _DI400Y in
  let n := n mod _DI400Y in
  let year := n400 * 400 + 1 in
  let n100 := n / _DI100Y in
  let n := n mod _DI100Y in
  let n4 := n / _DI4Y in
  let n := n mod _DI4Y in
  let n1 := n / 365 in
  let n := n mod 365 in
  let year := year + (n100 * 100 + n4 * 4 + n1) in
  if (n1 =? 4) || (n100 =? 4) then (year - 1, 12, 31)
  else
    let leapyear := (n1 =? 3) && (negb (n4 =? 24) || (n100 =? 3)) in
    let month := Z.shiftr (n + 50) 5 in
    let preceding :=
      item _DAYS_BEFORE_MONTH month + int_of_bool ((2 <? month) && leapyear) in
    if n <? preceding then
      let month := month - 1 in
      let preceding :=
        preceding
        - (item _DAYS_IN_MONTH month + int_of_bool ((month =? 2) && leapyear)) in
      (year, month, n - preceding + 1)
    else (year, month, n - preceding + 1).

(** A [datetime] whose time of day is midnight: the only ones the script
    builds. *)
Record t : Type := mk { year : Z; month : Z; day : Z }.

(** The arguments of [datetime] are read as C [int]s. *)
Definition fits_C_int (n : Z) : bool :=
  (-2147483648 <=? n) && (n <=? 2147483647).

(** [datetime(year, month, day)]: an argument that does not fit a C [int]
    ends in [OverflowError] before the ranges are looked at. *)
Definition datetime (y m d : Z) : result t :=
  if negb (fits_C_int y && fits_C_int m && fits_C_int d) then
    Raise OverflowError
  else if negb ((MINYEAR <=? y) && (y <=? MAXYEAR)) then Raise ValueError
  else if negb ((1 <=? m) && (m <=? 12)) then Raise ValueError
  else if negb ((1 <=? d) && (d <=? _days_in_month y m)) then Raise ValueError
  else Ok (mk y m d).

Definition toordinal (d : t) : Z := _ymd2ord (year d) (month d) (day d).

(** [d - timedelta(days=n)] *)
Definition sub_days (d : t) (n : Z) : result t :=
  let o := toordinal d - n in
  if (0 <? o) && (o <=? _MAXORDINAL) then
    let '(y, m, dd) := _ord2ymd o in Ok (mk y m dd)
  else Raise OverflowError.

(** [d.strftime("%Y-%m-%d")] with the [strftime] of glibc: [%Y] is the
    year without padding, [%m] and [%d] are on two digits. *)
Definition strftime_Ymd (d : t) : string :=
  Str.of_int (year d) +:+ "-" +:+ Str.format_0d 2 (month d)
  +:+ "-" +:+ Str.format_0d 2 (day d).

End datetime.


(** ** JSON values and Python dicts

    A decoded JSON document.  [JNull] is Python's [None]; numbers are the
    integers.  A dict keeps its keys in insertion order, each key once. *)

#[warnings="-register-all"] Inductive json : Type :=
| JNull
| JBool (b : bool)
| JNum (n : Z)
| JStr (s : string)
| JArr (l : list json)
| JObj (d : list (string * json)).

Module Dict.
Section Dict.
Context {V : Type}.

Definition t : Type := list (string * V).

(** [d.get(k)], with [None] for Python's default. *)
Fixpoint get (k : string) (d : t) : option V :=
  match d with
  | [] => None
  | (k', v) :: d' => if decide (k' = k) then Some v else get k d'
  end.

(** [k in d] *)
Definition mem (k : string) (d : t) : bool := bool_decide (is_Some (get k d)).

(** [d[k] = v]: the value is replaced in place, a new key goes last. *)
Fixpoint set (k : string) (v : V) (d : t) : t :=
  match d with
  | [] => [(k, v)]
  | (k', v') :: d' =>
      if decide (k' = k) then (k, v) :: d' else (k', v') :: set k v d'
  end.

Definition keys (d : t) : list string := d.*1.

End Dict.
End Dict.

(** ** BeautifulSoup trees

    A parsed document is the list of the top-level nodes.  Attribute values
    are kept as written; the [class] attribute is split on whitespace when
    it is matched, as the parser does when it builds the tree. *)

Module bs4.

#[warnings="-register-all"] Inductive node : Type :=
| NavigableString (s : string)
| Tag (name : string) (attrs : list (string * string)) (contents : list node).

Definition soup : Type := list node.

(** An element together with its later siblings. *)
Definition element : Type := node * list node.

Definition is_tag (n : node) : bool :=
  match n with
  | Tag _ _ _ => true
  | NavigableString _ => false
  end.

Definition has_name (nm : string) (n : node) : bool :=
  match n with
  | Tag nm' _ _ => bool_decide (nm' = nm)
  | NavigableString _ => false
  end.

(** [tag.get(key)] *)
Definition attr (key : string) (n : node) : option string :=
  match n with
  | Tag _ attrs _ => Dict.get key attrs
  | NavigableString _ => None
  end.

(** [class_=c]: one of the classes of the tag is [c]. *)
Definition has_class (c : string) (n : node) : bool :=
  match attr "class" n with
  | Some v => bool_decide (c ∈ Str.words v)
  | None => false
  end.

(** [tag.text]: the strings below the node, concatenated. *)
Fixpoint text (n : node) : string :=
  match n with
  | NavigableString s => s
  | Tag _ _ cs =>
      (fix go (l : list node) : string :=
         match l with
         | [] => EmptyString
         | c :: r => text c +:+ go r
         end) cs
  end.

(** [tag.string]: the single string below a chain of only children. *)
Fixpoint tag_string (n : node) : option string :=
  match n with
  | NavigableString s => Some s
  | Tag _ _ [c] => tag_string c
  | Tag _ _ _ => None
  end.

(** The nodes below [n] in document order, each with its later siblings. *)
Fixpoint elements_below (n : node) : list element :=
  match n with
  | NavigableString _ => []
  | Tag _ _ cs =>
      (fix go (l : list node) : list element :=
         match l with
         | [] => []
         | c :: r => (c, r) :: elements_below c ++ go r
         end) cs
  end.

(** The nodes of a document in document order. *)
Fixpoint elements (l : soup) : list element :=
  match l with
  | [] => []
  | c :: r => (c, r) :: elements_below c ++ elements r
  end.

(** [tag.find_all(name)] with an additional test on the tag. *)
Definition find_all (nm : string) (p : node → bool) (n : node) : list node :=
  (filter (λ e : element, has_name nm e.1 && p e.1) (elements_below n)).*1.

(** [tag.find(name, ...)] *)
Definition find (nm : string) (p : node → bool) (n : node) : option node :=
  head (find_all nm p n).

(** [soup.find_all(name, ...)] *)
Definition soup_find_all (nm : string) (p : node → bool) (doc : soup)
  : list node :=
  (filter (λ e : element, has_name nm e.1 && p e.1) (elements doc)).*1.

(** [soup.find(name, ...)]: the position in document order and the element. *)
Definition soup_find (nm : string) (p : node → bool) (doc : soup)
  : option (nat * element) :=
  list_find (λ e : element, has_name nm e.1 && p e.1) (elements doc).

(** [tag.find_next(name)], for the tag at position [i] of the document. *)
Definition find_next (nm : string) (doc : soup) (i : nat) : option node :=
  fst <$> head (filter (λ e : element, has_name nm e.1)
                  (drop (S i) (elements doc))).

(** [tag.find_next_sibling(name)] *)
Definition find_next_sibling (nm : string) (e : element) : option element :=
  (fix go (l : list node) : option element :=
     match l with
     | [] => None
     | c :: r => if has_name nm c then Some (c, r) else go r
     end) e.2.

(** [tag.find_next_sibling(string=True)]: the next sibling that is a
    non-empty string. *)
Definition find_next_sibling_string (e : element) : option string :=
  (fix go (l : list node) : option string :=
     match l with
     | [] => None
     | NavigableString s :: r => if Str.truthy s then Some s else go r
     | Tag _ _ _ :: r => go r
     end) e.2.

(** [string=s] on a tag. *)
Definition string_is (s : string) (n : node) : bool :=
  bool_decide (tag_string n = Some s).

(** [string=re.compile(pat)] on a tag, for a pattern without special
    characters. *)
Definition string_search (pat : string) (n : node) : bool :=
  match tag_string n with
  | Some s => Str.contains pat s
  | None => false
  end.

(** [attr=re.compile(pat)] on a tag, for a pattern without special
    characters. *)
Definition attr_search (key pat : string) (n : node) : bool :=
  match attr key n with
  | Some v => Str.contains pat v
  | None => false
  end.

(** [attr=True] on a tag. *)
Definition has_attr (key : string) (n : node) : bool :=
  bool_decide (is_Some (attr key n)).

Definition any (n : node) : bool := true.

End bs4.

(** ** [ASN_scraping/scraper.py]

    The random delays, the rotating client headers and the progress
    messages have no influence on the values computed and are left out.
    The HTML parser and the remote site are parameters: the site answers a
    given URL in the same way during one run. *)

Module AviationSafetyScraper.

(** What [session.get] produces: a response with its status code and
    body, or a failure of the transport. *)
Inductive response : Type :=
| Response (status_code : Z) (text : string)
| RequestFailed.

Definition record : Type := list (string * json).

Section Scraper.

(** [BeautifulSoup(html, 'html.parser')] *)
Variable html_parser : string → bs4.soup.

(** [session.get(url, ...)] *)
Variable http_get : string → response.

Definition base_url : string := "https://aviation-safety.net".

(** [response.raise_for_status()] of [curl_cffi] raises for every code
    outside 200..399; every exception ends in [None]. *)
Definition _make_request (url : string) : option string :=
  match http_get url with
  | Response status_code text =>
      if (200 <=? status_code) && (status_code <? 400) then Some text
      else (if status_code =? 404 then None else None)
  | RequestFailed => None
  end.

Definition _parse_accident_list (html : string) : list string :=
  let soup := html_parser html in
  flat_map
    (λ row,
       match bs4.find "a" (bs4.has_attr "href") row with
       | Some link =>
           let href := default EmptyString (bs4.attr "href" link) in
           if Str.contains "/wikibase/" href then [base_url +:+ href] else []
       | None => []
       end)
    (bs4.soup_find_all "tr" (bs4.has_class "list") soup).

Definition _extract_country (location_text : string) (soup : bs4.soup)
  : string :=
  let linked : option string :=
    location_row ←
      bs4.soup_find "td"
        (λ n, bs4.has_class "caption" n && bs4.string_search "Location:" n)
        soup;
    location_cell ← bs4.find_next_sibling "td" location_row.2;
    country_link ←
      bs4.find "a" (bs4.attr_search "href" "/asndb/country/") location_cell.1;
    Some (Str.strip (bs4.text country_link)) in
  match linked with
  | Some country => country
  | None =>
      if Str.contains "-" location_text then
        let parts := Str.split "-" location_text in
        if (2 <=? length parts)%nat then Str.strip (List.last parts EmptyString)
        else Str.strip location_text
      else Str.strip location_text
  end.

(** [value if value else None] *)
Definition value_or_None (value : string) : json :=
  if Str.truthy value then JStr value else JNull.

(** The body of the loop over the rows of the table. *)
Definition parse_row (soup : bs4.soup) (accident_data : record)
    (row : bs4.node) : record :=
  match bs4.find_all "td" bs4.any row with
  | cell0 :: cell1 :: _ =>
      let caption :=
        Str.lower (Str.replace ":" EmptyString (Str.strip (bs4.text cell0))) in
      let value := Str.strip (bs4.text cell1) in
      if Str.contains "date" caption then
        Dict.set "date" (JStr value) accident_data
      else if Str.contains "time" caption then
        Dict.set "time" (value_or_None value) accident_data
      else if Str.contains "type" caption
              && negb (Str.contains "aircraft" caption) then
        let type_link := bs4.find "a" bs4.any cell1 in
        Dict.set "type"
          (JStr match type_link with
                | Some a => Str.strip (bs4.text a)
                | None => value
                end)
          accident_data
      else if Str.contains "owner/operator" caption then
        Dict.set "owner_operator" (JStr value) accident_data
      else if Str.contains "registration" caption then
        Dict.set "registration" (JStr value) accident_data
      else if Str.contains "msn" caption then
        Dict.set "msn" (JStr value) accident_data
      else if Str.contains "year of manufacture" caption then
        Dict.set "year_of_manufacture" (JStr value) accident_data
      else if Str.contains "fatalities" caption
              && negb (Str.contains "other" caption) then
        Dict.set "fatalities" (JStr value) accident_data
      else if Str.contains "aircraft damage" caption then
        Dict.set "aircraft_damage" (JStr value) accident_data
      else if Str.contains "location" caption then
        Dict.set "location" (JStr (_extract_country value soup)) accident_data
      else if Str.contains "phase" caption then
        Dict.set "phase" (JStr value) accident_data
      else if Str.contains "nature" caption then
        Dict.set "nature" (JStr value) accident_data
      else if Str.contains "departure airport" caption then
        Dict.set "departure_airport" (value_or_None value) accident_data
      else if Str.contains "destination airport" caption then
        Dict.set "destination_airport" (value_or_None value) accident_data
      else if Str.contains "confidence rating" caption then
        Dict.set "confidence_rating" (JStr value) accident_data
      else accident_data
  | _ => accident_data
  end.

(** [link.get('href', link.text).strip()] *)
Definition link_target (link : bs4.node) : string :=
  Str.strip (default (bs4.text link) (bs4.attr "href" link)).

(** The [while] loop over the siblings that follow the sources caption:
    [find_next_sibling()] steps from tag to tag, strings are passed over,
    and the loop stops at the first [div]. *)
Fixpoint collect_sources (siblings : list bs4.node) : list string :=
  match siblings with
  | [] => []
  | next_element :: later =>
      if bs4.is_tag next_element then
        if bs4.has_name "div" next_element then []
        else
          (if bs4.has_name "a" next_element then [link_target next_element]
           else link_target <$> bs4.find_all "a" bs4.any next_element)
          ++ collect_sources later
      else collect_sources later
  end.

Definition parse_narrative (soup : bs4.soup) (accident_data : record)
  : record :=
  match bs4.soup_find "span"
          (λ n, bs4.has_class "caption" n && bs4.string_is "Narrative:" n)
          soup with
  | Some (i, narrative_tag) =>
      match bs4.find_next "span" soup i with
      | Some narrative_span =>
          Dict.set "narrative" (JStr (Str.strip (bs4.text narrative_span)))
            accident_data
      | None =>
          match bs4.find_next_sibling_string narrative_tag with
          | Some narrative_text =>
              Dict.set "narrative" (JStr (Str.strip narrative_text))
                accident_data
          | None => accident_data
          end
      end
  | None => accident_data
  end.

Definition parse_sources (soup : bs4.soup) (accident_data : record)
  : record :=
  match bs4.soup_find "div"
          (λ n, bs4.has_class "captionhr" n && bs4.string_is "Sources:" n)
          soup with
  | Some (_, sources_div) =>
      Dict.set "sources" (JArr (JStr <$> collect_sources sources_div.2))
        accident_data
  | None => accident_data
  end.

Definition _parse_accident_detail (html url : string) : option record :=
  let soup := html_parser html in
  let accident_data : record := [("url", JStr url)] in
  match bs4.soup_find "table" bs4.any soup with
  | None => None
  | Some (_, table) =>
      let accident_data :=
        foldl (parse_row soup) accident_data
          (bs4.find_all "tr" bs4.any table.1) in
      let accident_data := parse_narrative soup accident_data in
      let accident_data := parse_sources soup accident_data in
      Some accident_data
  end.

(** A request of [scrape_year]: a listing page, by its number, or a
    detail page, by its URL. *)
Inductive fetch : Type :=
| Listing (page_number : Z)
| Detail (url : string).

(** The state of one run: the records gathered and the requests sent, in
    order. *)
Record run : Type := Run { all_accidents : list json; requested : list fetch }.

(** The body of the loop over the detail links of one listing page. *)
Definition scrape_accident (st : run) (url : string) : run :=
  let requested := requested st ++ [Detail url] in
  match _make_request url with
  | Some html =>
      if Str.truthy html then
        match _parse_accident_detail html url with
        | Some ((_ :: _) as accident_data) =>
            Run (all_accidents st ++ [JObj accident_data]) requested
        | _ => Run (all_accidents st) requested
        end
      else Run (all_accidents st) requested
  | None => Run (all_accidents st) requested
  end.

Definition page_url (year page_number : Z) : string :=
  base_url +:+ "/asndb/year/" +:+ Str.of_int year +:+ "/"
  +:+ Str.of_int page_number.

(** The [while True] loop of [scrape_year]; [None] when [fuel] iterations
    did not reach a [break]. *)
Fixpoint scrape_pages (fuel : nat) (year page_number : Z) (st : run)
  : option run :=
  match fuel with
  | O => None
  | S fuel' =>
      let st := Run (all_accidents st) (requested st ++ [Listing page_number]) in
      match _make_request (page_url year page_number) with
      | None => Some st
      | Some html =>
          if negb (Str.truthy html) then Some st
          else
            match _parse_accident_list html with
            | [] => Some st
            | accident_urls =>
                scrape_pages fuel' year (page_number + 1)
                  (foldl scrape_accident st accident_urls)
            end
      end
  end.

Definition scrape_year (fuel : nat) (year : Z) : option run :=
  scrape_pages fuel year 1 (Run [] []).

(** The envelope written by [save_to_json]; [scraped_at] is the time of
    the call. *)
Definition save_to_json (data : list json) (year : Z) (scraped_at : string)
  : string * json :=
  ("aviation_accidents_" +:+ Str.of_int year +:+ ".json",
   JObj [("year", JNum year);
         ("total_accidents", JNum (Z.of_nat (length data)));
         ("scraped_at", JStr scraped_at);
         ("accidents", JArr data)]).

End Scraper.
End AviationSafetyScraper.

(** ** [NTSB_scraping/script.py]

    The world of the script: the files under the output directory, the
    export requests sent so far, and the lines printed.  The export
    service is a parameter; its answer may depend on how many requests
    were sent before, so that a request can fail once and succeed later. *)

Module NTSBScraper.

Record query_rule : Type := QueryRule {
  Values : list string;
  Columns : list string;
  Operator : string
}.

(** The request body of [create_payload]; the constant presentation
    fields of each rule ([selectedOption], [overrideColumn], ...) are
    left out. *)
Record payload : Type := Payload {
  QueryRules : list query_rule;
  AndOr : string;
  TargetCollection : string;
  ExportFormat : string;
  SessionId : Z;
  ResultSetSize : Z;
  SortDescending : bool
}.

Record request : Type := Request {
  url : string;
  Referer : string;
  body : payload
}.

(** What [requests.post] produces: a response, or a
    [RequestException] of the transport with its message. *)
Inductive post_result : Type :=
| PostResponse (status_code : Z) (content : string)
| PostFailed (message : string).

(** The lines printed by [download_month] and [download_all]. *)
Inductive line : Type :=
| AlreadyExists (filename : string)
| Downloading (filename : string)
| Success (size_bytes : nat)
| Failed (message : string)
| YearHeader (year : Z)
| Summary (total successful failed : Z).

Record world : Type := World {
  files : gmap string string;
  requests : list request;
  stdout : list line
}.

Definition print (l : line) (w : world) : world :=
  World (files w) (requests w) (stdout w ++ [l]).

Definition get_month_date_range (year month : Z) : result (string * string) :=
  first_day ← datetime.datetime year month 1;
  last_day ←
    (if month =? 12 then datetime.datetime year 12 31
     else d ← datetime.datetime year (month + 1) 1; datetime.sub_days d 1);
  Ok (datetime.strftime_Ymd first_day, datetime.strftime_Ymd last_day).

Definition create_payload (year month : Z) (session_id : Z) : result payload :=
  '(first_day, last_day) ← get_month_date_range year month;
  Ok (Payload
        [QueryRule [first_day] ["Event.EventDate"] "is on or after";
         QueryRule [last_day] ["Event.EventDate"] "is on or before";
         QueryRule ["Aviation"] ["Event.Mode"] "is"]
        "and" "cases" "data" session_id 500 true).

Section Script.

(** [output_dir], and the export service: the answer to the request sent
    after [n] earlier ones. *)
Variable output_dir : string.
Variable http_post : nat → request → post_result.

Definition base_url : string :=
  "https://data.ntsb.gov/carol-main-public/api/Query/FileExport".

Definition month_filename (year month : Z) : string :=
  "ntsb_" +:+ Str.of_int year +:+ "_" +:+ Str.format_0d 2 month +:+ ".zip".

Definition month_filepath (year month : Z) : string :=
  output_dir +:+ "/" +:+ month_filename year month.

(** The message of the [HTTPError] raised by [raise_for_status]. *)
Definition http_error_message (status_code : Z) : string :=
  Str.of_int status_code +:+ " Error".

Definition download_month (year month : Z) (w : world) : result (bool * world) :=
  let filename := month_filename year month in
  let filepath := month_filepath year month in
  if bool_decide (is_Some (files w !! filepath)) then
    Ok (true, print (AlreadyExists filename) w)
  else
    let referer :=
      "https://data.ntsb.gov/carol-main-public/query-builder?month="
      +:+ Str.of_int month +:+ "&year=" +:+ Str.of_int year in
    payload ← create_payload year month 227230;
    let w := print (Downloading filename) w in
    let req := Request base_url referer payload in
    let answer := http_post (length (requests w)) req in
    let w := World (files w) (requests w ++ [req]) (stdout w) in
    match answer with
    | PostResponse status_code content =>
        if (400 <=? status_code) && (status_code <? 600) then
          Ok (false, print (Failed (http_error_message status_code)) w)
        else
          let w := World (<[filepath := content]> (files w)) (requests w) (stdout w) in
          Ok (true, print (Success (String.length content)) w)
    | PostFailed message => Ok (false, print (Failed message) w)
    end.

(** The counters of [download_all]. *)
Record tally : Type := Tally { total : Z; successful : Z; failed : Z }.

(** The body of the loop over the months of one year. *)
Definition download_step (year : Z) (acc : result (tally * world)) (month : Z)
  : result (tally * world) :=
  '(c, w) ← acc;
  '(ok, w) ← download_month year month w;
  if ok : bool then Ok (Tally (total c + 1) (successful c + 1) (failed c), w)
  else Ok (Tally (total c + 1) (successful c) (failed c + 1), w).

(** The body of the loop over the years; [(current_year, current_month)]
    is [datetime.now()]. *)
Definition download_year (current_year current_month : Z)
    (acc : result (tally * world)) (year : Z) : result (tally * world) :=
  '(c, w) ← acc;
  let w := print (YearHeader year) w in
  let last_month := if year =? current_year then current_month else 12 in
  foldl (download_step year) (Ok (c, w)) (seqZ 1 (last_month + 1 - 1)).

Definition download_all (start_year end_year : Z)
    (current_year current_month : Z) (w : world) : result (tally * world) :=
  '(c, w) ←
    foldl (download_year current_year current_month)
      (Ok (Tally 0 0 0, w)) (seqZ start_year (end_year + 1 - start_year));
  Ok (c, print (Summary (total c) (successful c) (failed c)) w).

(** The file names announced on [stdout], one per call of
    [download_month] that got as far as printing. *)
Definition announced (out : list line) : list string :=
  omap (λ l, match l with
             | AlreadyExists f | Downloading f => Some f
             | _ => None
             end) out.

End Script.

(** The pairs of the two nested [for] loops of [download_all]. *)
Definition month_windows (start_year end_year current_year current_month : Z)
  : list (Z * Z) :=
  year ← seqZ start_year (end_year + 1 - start_year);
  month ← seqZ 1 ((if year =? current_year then current_month else 12) + 1 - 1);
  [(year, month)].

End NTSBScraper.

(** ** Python operations on decoded JSON values *)

Module Py.

(** [s.endswith(suffix)] *)
Definition endswith (suffix s : string) : bool :=
  Str.startswith (String.rev suffix) (String.rev s).

Fixpoint chars (s : string) : list json :=
  match s with
  | String c s' => JStr (String c EmptyString) :: chars s'
  | EmptyString => []
  end.

(** The elements produced by iterating over [v] ([for x in v],
    [list.extend(v)]). *)
Definition iter (v : json) : result (list json) :=
  match v with
  | JArr l => Ok l
  | JStr s => Ok (chars s)
  | JObj d => Ok (JStr <$> Dict.keys d)
  | JNull | JBool _ | JNum _ => Raise TypeError
  end.

(** [v[key]] for a string [key]. *)
Definition subscript (v : json) (key : string) : result json :=
  match v with
  | JObj d =>
      match Dict.get key d with
      | Some x => Ok x
      | None => Raise KeyError
      end
  | _ => Raise TypeError
  end.

(** [v.get(key)]: only a dict has the method. *)
Definition get (v : json) (key : string) : result json :=
  match v with
  | JObj d => Ok (default JNull (Dict.get key d))
  | _ => Raise AttributeError
  end.

(** [v.split(sep)[-1]]: only a [str] has the method. *)
Definition split_last (v : json) (sep : ascii) : result string :=
  match v with
  | JStr s => Ok (List.last (Str.split sep s) EmptyString)
  | _ => Raise AttributeError
  end.

(** [[f(x) for x in l]] where [f] may raise. *)
Fixpoint mapM {A B : Type} (f : A → result B) (l : list A) : result (list B) :=
  match l with
  | [] => Ok []
  | x :: l' => y ← f x; ys ← mapM f l'; Ok (y :: ys)
  end.

End Py.

(** ** [NTSB_scraping/merge_extracted_json.py]

    A file of the directory is its name and, when it can be opened and
    decoded, the JSON value it holds.  The listing is taken in sorted
    order. *)

Module merge_extracted_json.

Record merged : Type := Merged { all_cases : list json; total_records : Z }.

(** [sorted([f for f in extracted_dir.glob("*.json") if "cases" in f.name])] *)
Definition json_files (listing : list (string * option json))
  : list (string * option json) :=
  filter (λ f, Py.endswith ".json" f.1 && Str.contains "cases" f.1) listing.

(** The [try] block for one file whose content decoded to [data]. *)
Definition merge_data (acc : merged) (data : json) : result merged :=
  match data with
  | JArr l =>
      Ok (Merged (all_cases acc ++ l) (total_records acc + Z.of_nat (length l)))
  | JObj d =>
      if Dict.mem "cases" d then
        cases ← Py.subscript data "cases";
        elements ← Py.iter cases;
        Ok (Merged (all_cases acc ++ elements)
              (total_records acc + Z.of_nat (length elements)))
      else Ok (Merged (all_cases acc ++ [data]) (total_records acc + 1))
  | _ => Ok acc
  end.

(** The body of the loop: an exception is caught and the file skipped. *)
Definition merge_file (acc : merged) (json_file : string * option json)
  : merged :=
  match json_file.2 with
  | Some data =>
      match merge_data acc data with
      | Ok acc' => acc'
      | Raise _ => acc
      end
  | None => acc
  end.

Definition merge (listing : list (string * option json)) : merged :=
  foldl merge_file (Merged [] 0) (json_files listing).

End merge_extracted_json.

(** ** [TL/load_staging.py]

    A staging table is the list of its rows in insertion order.  The
    repository has no DDL for the tables: whether [source_unique_id] is a
    primary key (a null is refused) or only unique (nulls are accepted
    and never conflict) is a parameter, and so is the way the driver
    passes a key that is neither a string nor [None].  The driver refuses
    a string argument that holds the character NUL, and the cast to
    [jsonb] refuses a document in which a string holds it. *)

Module load_staging.

Record row : Type := Row { source_unique_id : option string; raw_json : json }.

Abbreviation table := (list row).

Inductive key_constraint : Type := PRIMARY_KEY | UNIQUE.

Record db : Type := Db {
  stg_source1_aviation_safety : table;
  stg_source2_ntsb : table;
  stg_source3_csv : table
}.

Inductive line : Type :=
| Loaded (rows : nat) (table_name : string)
| Complete.

(** The open transaction and the lines printed. *)
Record world : Type := World { tables : db; stdout : list line }.

Definition has_key (k : string) (r : row) : bool :=
  bool_decide (source_unique_id r = Some k).

(** The string holds the character NUL. *)
Definition has_nul (s : string) : bool :=
  Str.contains (String Ascii.zero EmptyString) s.

(** A string of the document, a key of an object included, holds NUL:
    [json.dumps] writes it as an escape. *)
Fixpoint escapes_nul (v : json) : bool :=
  match v with
  | JStr s => has_nul s
  | JArr l => existsb escapes_nul l
  | JObj d => existsb (λ kv, let '(k, x) := kv in has_nul k || escapes_nul x) d
  | JNull | JBool _ | JNum _ => false
  end.

(** [%s::jsonb] on [json.dumps(raw)]: the server refuses the escape of
    NUL and takes every other document of the model.  (What else it
    refuses, the tokens [NaN] and [Infinity] that [json.dumps] writes for
    such floats and the escape of a lone surrogate, is in none: the
    numbers of the model are integers, its characters the code points up
    to 255; an integer that [json.load] returned is printed back by
    [json.dumps] and is within the range of [numeric].) *)
Definition jsonb_accepts (raw : json) : bool := negb (escapes_nul raw).

(** [page_size] of [execute_batch], left at its default. *)
Definition page_size : nat := 100.

(** [_paginate(seq, page_size)]: pages of [page_size] elements, the last
    one shorter, none empty. *)
Fixpoint paginate_go {A : Type} (fuel : nat) (seq : list A) : list (list A) :=
  match fuel, seq with
  | S fuel', _ :: _ =>
      take page_size seq :: paginate_go fuel' (drop page_size seq)
  | _, _ => []
  end.

Definition _paginate {A : Type} (seq : list A) : list (list A) :=
  paginate_go (length seq) seq.

Section Loader.

Variable key_column : key_constraint.
Variable adapt_other : json → result (option string).

(** How the driver passes a Python value for the key column: a [str]
    with a NUL character is refused with [ValueError]. *)
Definition adapt (v : json) : result (option string) :=
  match v with
  | JStr s => if has_nul s then Raise ValueError else Ok (Some s)
  | JNull => Ok None
  | _ => adapt_other v
  end.

(** [INSERT ... VALUES (key, raw::jsonb) ON CONFLICT (source_unique_id)
    DO NOTHING]: the cast is evaluated first, whether or not the key is
    in the table. *)
Definition insert_or_ignore (t : table) (r : row) : result table :=
  if negb (jsonb_accepts (raw_json r)) then Raise DatabaseError
  else
    match source_unique_id r with
    | Some k => if existsb (has_key k) t then Ok t else Ok (t ++ [r])
    | None =>
        match key_column with
        | PRIMARY_KEY => Raise DatabaseError
        | UNIQUE => Ok (t ++ [r])
        end
    end.

(** [cur.mogrify(sql, args)]: the statement with its arguments adapted. *)
Definition mogrify (args : json * json) : result row :=
  k ← adapt args.1; Ok (Row k args.2).

(** [cur.execute] on the statements of one page, joined: they run in
    order and the first error ends the call. *)
Definition execute (t : table) (sqls : list row) : result table :=
  foldl (λ acc r, t ← acc; insert_or_ignore t r) (Ok t) sqls.

(** One page of [execute_batch]: every statement of the page is built
    before the first one is sent. *)
Definition execute_page (acc : result table) (page : list (json * json))
  : result table :=
  t ← acc; sqls ← Py.mapM mogrify page; execute t sqls.

(** [execute_batch(cur, sql, rows)] *)
Definition execute_batch (t : table) (rows : list (json * json)) : result table :=
  foldl execute_page (Ok t) (_paginate rows).

Definition load_source1_aviation (data : json) (w : world) : result world :=
  accidents ← Py.subscript data "accidents";
  records ← Py.iter accidents;
  rows ← Py.mapM (λ record,
                    url ← Py.get record "url";
                    source_id ← Py.split_last url "/";
                    Ok (JStr source_id, record)) records;
  t ← execute_batch (stg_source1_aviation_safety (tables w)) rows;
  Ok (World (Db t (stg_source2_ntsb (tables w)) (stg_source3_csv (tables w)))
        (stdout w ++ [Loaded (length rows) "stg_source1_aviation_safety"])).

Definition load_source2_ntsb (data : json) (w : world) : result world :=
  records ← Py.iter data;
  rows ← Py.mapM (λ record,
                    source_id ← Py.get record "cm_ntsbNum";
                    Ok (source_id, record)) records;
  t ← execute_batch (stg_source2_ntsb (tables w)) rows;
  Ok (World (Db (stg_source1_aviation_safety (tables w)) t (stg_source3_csv (tables w)))
        (stdout w ++ [Loaded (length rows) "stg_source2_ntsb"])).

(** [reader] is the sequence of dicts read by [csv.DictReader]. *)
Definition load_source3_csv (reader : list (list (string * json))) (w : world)
  : result world :=
  let rows := (λ row, (default JNull (Dict.get "index" row), JObj row)) <$> reader in
  t ← execute_batch (stg_source3_csv (tables w)) rows;
  Ok (World (Db (stg_source1_aviation_safety (tables w)) (stg_source2_ntsb (tables w)) t)
        (stdout w ++ [Loaded (length rows) "stg_source3_csv"])).

(** The main block: the three loads, then [conn.commit()].  An exception
    ends the process before the commit. *)
Definition main (asn ntsb : json) (csv : list (list (string * json)))
    (w : world) : result world :=
  w ← load_source1_aviation asn w;
  w ← load_source2_ntsb ntsb w;
  w ← load_source3_csv csv w;
  Ok (World (tables w) (stdout w ++ [Complete])).

End Loader.
End load_staging.

(** * Properties *)

(** ** The date range of a calendar month *)

Module month_range.
Import NTSBScraper.

(** The Gregorian leap-year rule. *)
Definition leap_year (y : Z) : bool :=
  if y mod 400 =? 0 then true
  else if y mod 100 =? 0 then false
  else y mod 4 =? 0.

(** The length of a calendar month. *)
Definition calendar_month_length (y m : Z) : Z :=
  if bool_decide (m ∈ [4; 6; 9; 11]) then 30
  else if m =? 2 then (if leap_year y then 29 else 28)
  else 31.

(** The month after [(y, m)]. *)
Definition following_month (y m : Z) : Z * Z :=
  if m =? 12 then (y + 1, 1) else (y, m + 1).

Definition digit (n : Z) : ascii := ascii_of_nat (48 + Z.to_nat (n mod 10)).


(** The year as a numeral without leading zeros, for the years 1 to
    9999. *)
Definition year_text (y : Z) : string :=
  if y <? 10 then String (digit y) EmptyString
  else if y <? 100 then String (digit (y / 10)) (String (digit y) EmptyString)
  else if y <? 1000 then
    String (digit (y / 100)) (String (digit (y / 10))
      (String (digit y) EmptyString))
  else
    String (digit (y / 1000)) (String (digit (y / 100))
      (String (digit (y / 10)) (String (digit y) EmptyString))).

(** The text of a date with the year as [year_text] gives it and the
    month and the day on two digits. *)
Definition date_text (y m d : Z) : string :=
  year_text y
  +:+ String "-" (String (digit (m / 10)) (String (digit m)
        (String "-" (String (digit (d / 10)) (String (digit d) EmptyString))))).


(** The two dates built by [get_month_date_range], before formatting. *)
Definition month_dates (y m : Z) : result (datetime.t * datetime.t) :=
  first_day ← datetime.datetime y m 1;
  last_day ←
    (if m =? 12 then datetime.datetime y 12 31
     else d ← datetime.datetime y (m + 1) 1; datetime.sub_days d 1);
  Ok (first_day, last_day).

(** The end of [_ord2ymd]: month and day from the day number [n] within
    the year. *)
Definition locate (year : Z) (leapyear : bool) (n : Z) : Z * Z * Z :=
  let month := Z.shiftr (n + 50) 5 in
  let preceding :=
    datetime.item datetime._DAYS_BEFORE_MONTH month
    + datetime.int_of_bool ((2 <? month) && leapyear) in
  if n <? preceding then
    let month := month - 1 in
    let preceding :=
      preceding
      - (datetime.item datetime._DAYS_IN_MONTH month
         + datetime.int_of_bool ((month =? 2) && leapyear)) in
    (year, month, n - preceding + 1)
  else (year, month, n - preceding + 1).

Definition check_two_digits (n : Z) : bool :=
  String.eqb (Str.format_0d 2 n)
    (String (digit (n / 10)) (String (digit n) EmptyString)).

End month_range.


(** ** Location resolution *)

Module location.

(** The country hyperlink of the location row: the first [a] whose target
    contains [/asndb/country/] below the [td] that follows the first
    caption cell holding [Location:]. *)
Definition country_link (soup : bs4.soup) : option bs4.node :=
  location_row ←
    bs4.soup_find "td"
      (λ n, bs4.has_class "caption" n && bs4.string_search "Location:" n)
      soup;
  location_cell ← bs4.find_next_sibling "td" location_row.2;
  bs4.find "a" (bs4.attr_search "href" "/asndb/country/") location_cell.1.

(** The country of a location: the text of the country hyperlink when
    the location row has one, otherwise what follows the last dash of
    the location text, which is the whole text when it has no dash;
    stripped in each case. *)
Definition resolved (location_text : string) (soup : bs4.soup) : string :=
  match country_link soup with
  | Some link => Str.strip (bs4.text link)
  | None => Str.strip (List.last (Str.split "-" location_text) location_text)
  end.

End location.

(** ** The label/value table of a detail page *)

Module labels.
Import AviationSafetyScraper.

(** The fields filled from the table. *)
Inductive field : Type :=
| date | time | type | owner_operator | registration | msn
| year_of_manufacture | fatalities | aircraft_damage | location | phase
| nature | departure_airport | destination_airport | confidence_rating.

#[global] Instance field_eq_dec : EqDecision field.
Proof. solve_decision. Defined.

(** The key of a field in the record. *)
Definition key (f : field) : string :=
  match f with
  | date => "date"
  | time => "time"
  | type => "type"
  | owner_operator => "owner_operator"
  | registration => "registration"
  | msn => "msn"
  | year_of_manufacture => "year_of_manufacture"
  | fatalities => "fatalities"
  | aircraft_damage => "aircraft_damage"
  | location => "location"
  | phase => "phase"
  | nature => "nature"
  | departure_airport => "departure_airport"
  | destination_airport => "destination_airport"
  | confidence_rating => "confidence_rating"
  end.

(** A known label: the field, the text the label must contain, and a
    text it must not contain. *)
Record rule : Type := Rule {
  rule_field : field;
  pattern : string;
  excluded : option string
}.

(** The known labels, in declaration order. *)
Definition rules : list rule :=
  [Rule date "date" None;
   Rule time "time" None;
   Rule type "type" (Some "aircraft");
   Rule owner_operator "owner/operator" None;
   Rule registration "registration" None;
   Rule msn "msn" None;
   Rule year_of_manufacture "year of manufacture" None;
   Rule fatalities "fatalities" (Some "other");
   Rule aircraft_damage "aircraft damage" None;
   Rule location "location" None;
   Rule phase "phase" None;
   Rule nature "nature" None;
   Rule departure_airport "departure airport" None;
   Rule destination_airport "destination airport" None;
   Rule confidence_rating "confidence rating" None].

Definition rule_matches (caption : string) (r : rule) : bool :=
  Str.contains (pattern r) caption
  && match excluded r with
     | Some e => negb (Str.contains e caption)
     | None => true
     end.

(** The field of a label: the first rule that matches wins. *)
Definition classify (caption : string) : option field :=
  rule_field <$> List.find (rule_matches caption) rules.

(** The label of a row: the text of its first cell, stripped, without
    colons, in lower case. *)
Definition caption_of (cell : bs4.node) : string :=
  Str.lower (Str.replace ":" EmptyString (Str.strip (bs4.text cell))).

(** The value extracted from the value cell of a row, for each field:
    the stripped text of the cell; for the time and the two airports an
    empty text is the null value; for the type the text of the first
    link of the cell when it has one; for the location the country the
    text resolves to. *)
Definition extracted (soup : bs4.soup) (f : field) (cell : bs4.node) : json :=
  let value := Str.strip (bs4.text cell) in
  match f with
  | time | departure_airport | destination_airport =>
      if decide (value = EmptyString) then JNull else JStr value
  | type =>
      JStr match bs4.find "a" bs4.any cell with
           | Some a => Str.strip (bs4.text a)
           | None => value
           end
  | location => JStr (location.resolved value soup)
  | _ => JStr value
  end.

(** The field a row carries, with its value cell. *)
Definition row_label (row : bs4.node) : option (field * bs4.node) :=
  match bs4.find_all "td" bs4.any row with
  | cell0 :: cell1 :: _ => (λ f, (f, cell1)) <$> classify (caption_of cell0)
  | _ => None
  end.

(** The value cells of the rows that carry field [f], in table order. *)
Definition cells_of (f : field) (rows : list bs4.node) : list bs4.node :=
  omap (λ row, '(f', cell) ← row_label row;
               if decide (f' = f) then Some cell else None) rows.

(** The table-driven form of one step of the loop over the rows. *)
Definition assign_row (soup : bs4.soup) (accident_data : record)
    (row : bs4.node) : record :=
  match row_label row with
  | Some (f, cell) => Dict.set (key f) (extracted soup f cell) accident_data
  | None => accident_data
  end.

End labels.

(** ** Pagination of a listing run *)

Module pagination.
Import AviationSafetyScraper.

Section pagination.
Variable html_parser : string → bs4.soup.
Variable http_get : string → response.
Variable year : Z.

(** The body the site serves for [url]: the text of an answer whose
    status is from 200 to 399. *)
Definition served (url : string) : option string :=
  match http_get url with
  | Response status_code text =>
      if bool_decide (200 ≤ status_code < 400) then Some text else None
  | RequestFailed => None
  end.

(** The listing page [p] is served with a body that has detail links. *)
Definition continues (p : Z) : Prop :=
  ∃ html, served (page_url year p) = Some html
          ∧ Str.truthy html = true
          ∧ _parse_accident_list html_parser html ≠ [].

(** The fetch of the listing page [p] is answered with status 404. *)
Definition not_found (p : Z) : Prop :=
  ∃ text, http_get (page_url year p) = Response 404 text.

(** The listing page [p] is served and its parse has no detail link. *)
Definition no_links (p : Z) : Prop :=
  ∃ html, served (page_url year p) = Some html
          ∧ _parse_accident_list html_parser html = [].

(** The record a detail link contributes: none when the fetch or the
    parse fails. *)
Definition detail_record (url : string) : list json :=
  match served url with
  | Some html =>
      if Str.truthy html then
        match _parse_accident_detail html_parser html url with
        | Some ((_ :: _) as accident_data) => [JObj accident_data]
        | _ => []
        end
      else []
  | None => []
  end.

(** The records of the detail links of the listing page [p], in order. *)
Definition page_records (p : Z) : list json :=
  match served (page_url year p) with
  | Some html => flat_map detail_record (_parse_accident_list html_parser html)
  | None => []
  end.

End pagination.

(** The numbers of the listing pages among the requests of a run. *)
Definition listing_pages (requested : list fetch) : list Z :=
  omap (λ r, match r with Listing p => Some p | Detail _ => None end) requested.

End pagination.

(** ** The staging tables *)

Module staging.
Import load_staging.



Definition empty_db : db := Db [] [] [].

(** The record has a string under [field]: its key is [k]. *)
Definition keyed (field : string) (record : json) (k : string) : Prop :=
  Py.get record field = Ok (JStr k).

(** The key [load_source1_aviation] computes for a record that has a
    string under [url]: the text after the last slash. *)
Definition source1_id (record : json) : string :=
  match Py.get record "url" with
  | Ok (JStr url) => List.last (Str.split "/" url) EmptyString
  | _ => EmptyString
  end.

(** The statements of a batch taken one by one, each built when its turn
    comes. *)
Definition one_by_one (key_column : key_constraint)
    (adapt_other : json → result (option string))
    (t : table) (rows : list (json * json)) : result table :=
  foldl (λ acc args,
           t ← acc; r ← mogrify adapt_other args;
           insert_or_ignore key_column t r)
    (Ok t) rows.

(** A row of a batch that the driver and the server take: the key is a
    string without NUL and no string of the document holds NUL. *)
Definition storable (args : json * json) : Prop :=
  (∃ k, args.1 = JStr k ∧ has_nul k = false) ∧ jsonb_accepts args.2 = true.


(** A driver that refuses every key that is neither a string nor [None]. *)
Definition refuse_other (v : json) : result (option string) := Raise TypeError.

(** The policy the specification describes for source 2: a load adds
    rows under non-null, non-empty keys only. *)
Definition skips_unkeyed (key_column : key_constraint)
    (adapt_other : json → result (option string)) : Prop :=
  ∀ data w w',
    load_source2_ntsb key_column adapt_other data w = Ok w' →
    ∀ r, r ∈ stg_source2_ntsb (tables w') →
         r ∈ stg_source2_ntsb (tables w)
         ∨ ∃ k, source_unique_id r = Some k ∧ k ≠ EmptyString.

End staging.

(** ** The windows of the monthly downloads *)

Module windows.
Import NTSBScraper.

(** The last month [download_all] asks for in [year]. *)
Definition last_month (cy cm year : Z) : Z :=
  if year =? cy then cm else 12.

(** The windows as the specification describes them: the months from
    January of the start year through December of the end year or the
    current month, whichever is earlier. *)
Definition described (start_year end_year cy cm : Z) : list (Z * Z) :=
  filter (λ window : Z * Z,
            window.1 < cy ∨ (window.1 = cy ∧ window.2 ≤ cm))
    (year ← seqZ start_year (end_year + 1 - start_year);
     month ← seqZ 1 12; [(year, month)]).

(** The export request is answered by a failure of the transport or by
    an error status. *)
Definition failed_answer (a : post_result) : Prop :=
  match a with
  | PostFailed _ => True
  | PostResponse status_code _ => 400 ≤ status_code < 600
  end.

(** A service that is down. *)
Definition service_down (n : nat) (req : request) : post_result :=
  PostFailed "connection refused".

(** A service that is down for the first request and answers the later
    ones. *)
Definition service_recovers (n : nat) (req : request) : post_result :=
  match n with
  | O => PostFailed "timed out"
  | S _ => PostResponse 200 "PK"
  end.

Definition empty_world : world := World ∅ [] [].

End windows.

(** ** A small site, used to run the definitions *)

Module sample.
Import bs4 AviationSafetyScraper.

Definition row (label : string) (value : list node) : node :=
  Tag "tr" []
    [Tag "td" [("class", "caption")] [NavigableString label];
     Tag "td" [("class", "desc")] value].

(** A detail page: a label/value table, a narrative and sources. *)
Definition detail_page : soup :=
  [Tag "html" []
     [Tag "body" []
        [Tag "table" []
           [row "Date:" [NavigableString " Friday 1 January 2010 "];
            row "Time:" [];
            row "Type:"
              [Tag "a" [("href", "/asndb/type/B738")]
                 [NavigableString "Boeing 737-800"];
               NavigableString " (B738)"];
            row "Other fatalities:" [NavigableString "0"];
            row "Fatalities:" [NavigableString "Fatalities: 2 / Occupants: 5"];
            row "Aircraft damage:" [NavigableString "Substantial"];
            row "Location:"
              [NavigableString "Near CityX - ";
               Tag "a" [("href", "/asndb/country/XY")]
                 [NavigableString "CountryY"]]];
         Tag "span" [("class", "caption")] [NavigableString "Narrative:"];
         Tag "br" [] [];
         Tag "span" [] [NavigableString " The aircraft left the runway. "];
         Tag "div" [("class", "captionhr")] [NavigableString "Sources:"];
         Tag "a" [("href", "https://example.org/report ")]
           [NavigableString "report"];
         Tag "br" [] [];
         Tag "div" [] [NavigableString "Revision history"]]]].

(** A listing page with two detail links. *)
Definition listing_page : soup :=
  [Tag "table" []
     [Tag "tr" [("class", "list")]
        [Tag "td" [] [Tag "a" [("href", "/wikibase/1")] [NavigableString "1 Jan 2010"]]];
      Tag "tr" [("class", "list")]
        [Tag "td" [] [Tag "a" [("href", "/wikibase/2")] [NavigableString "2 Jan 2010"]]]]].

Definition html_parser (html : string) : soup :=
  if String.eqb html "listing" then listing_page
  else if String.eqb html "detail" then detail_page
  else [].

(** Page 1 of 2010 lists two accidents; the first detail page is served,
    the second is not found, and there is no page 2. *)
Definition http_get (url : string) : response :=
  if String.eqb url "https://aviation-safety.net/asndb/year/2010/1" then
    Response 200 "listing"
  else if String.eqb url "https://aviation-safety.net/wikibase/1" then
    Response 200 "detail"
  else Response 404 EmptyString.

Definition detail_url : string := "https://aviation-safety.net/wikibase/1".

(** Two records of the archive source with the same case number, and a
    record whose case number is empty. *)
Definition case1 : json :=
  JObj [("cm_ntsbNum", JStr "WPR26LA036"); ("cm_city", JStr "CityX")].
Definition case2 : json :=
  JObj [("cm_ntsbNum", JStr "WPR26LA036"); ("cm_city", JStr "CityZ")].
Definition unkeyed_case : json :=
  JObj [("cm_ntsbNum", JStr EmptyString); ("cm_city", JStr "CityX")].
Definition keyless_case : json :=
  JObj [("cm_city", JStr "CityX")].



Definition empty_world : load_staging.world :=
  load_staging.World staging.empty_db [].

End sample.

(** ** [NTSB_scraping/unzip_with_rename.py]

    An archive of the directory is its name and, when it opens as a zip
    file, its entries (name and content) in archive order; the directory
    listing is taken in sorted order.  [Path(...).name] depends on the
    platform and is a parameter.  [None] stands for the [IndexError] that
    leaves the script when the stem of an archive has too few parts. *)

Module unzip_with_rename.

(** [s.rpartition(sep)] for a one-character [sep], when [sep] occurs:
    the text before the last [sep] and the text after it. *)
Fixpoint rpartition (sep : ascii) (s : string) : option (string * string) :=
  match s with
  | String c s' =>
      match rpartition sep s' with
      | Some (before, after) => Some (String c before, after)
      | None => if Ascii.eqb c sep then Some (EmptyString, s') else None
      end
  | EmptyString => None
  end.

(** [Path(name).stem]: the name without its last suffix; a leading or a
    final dot starts no suffix. *)
Definition stem (name : string) : string :=
  match rpartition "." name with
  | Some (before, after) =>
      if Str.truthy before && Str.truthy after then before else name
  | None => name
  end.

(** [ntsb_data_dir.glob("ntsb_*.zip")] on one name. *)
Definition is_month_archive (name : string) : bool :=
  Str.startswith "ntsb_" name && Py.endswith ".zip" name.

Section Unzip.

(** [Path(filename).name] *)
Variable path_name : string → string.

(** The body of the loop over the entries of one archive. *)
Definition extract_entry (year month : string) (extracted : gmap string string)
    (file_info : string * string) : gmap string string :=
  let original_name := path_name file_info.1 in
  if Str.truthy original_name then
    <[year +:+ "_" +:+ month +:+ "_" +:+ original_name := file_info.2]> extracted
  else extracted.

(** The body of the loop over the archives: [parts[1]] and [parts[2]] are
    read outside the [try], an archive that does not open is passed over
    inside it. *)
Definition extract_zip (extracted : gmap string string)
    (zip_path : string * option (list (string * string)))
  : option (gmap string string) :=
  let parts := Str.split "_" (stem zip_path.1) in
  year ← parts !! 1%nat;
  month ← parts !! 2%nat;
  Some match zip_path.2 with
       | Some infolist => foldl (extract_entry year month) extracted infolist
       | None => extracted
       end.

Definition unzip (listing : list (string * option (list (string * string))))
    (extracted : gmap string string) : option (gmap string string) :=
  foldl (λ acc zip_path, extracted ← acc; extract_zip extracted zip_path)
    (Some extracted)
    (filter (λ zip_path, is_month_archive zip_path.1) listing).

End Unzip.
End unzip_with_rename.

(** ** Further notions used by the properties below *)

Module extra.
Import AviationSafetyScraper.

(** The URL a record holds. *)
Definition url_of (r : json) : option string :=
  match r with
  | JObj d =>
      match Dict.get "url" d with
      | Some (JStr u) => Some u
      | _ => None
      end
  | _ => None
  end.

(** The URLs of the detail pages among the requests of a run. *)
Definition detail_urls (requested : list fetch) : list string :=
  omap (λ r, match r with Detail u => Some u | Listing _ => None end) requested.

(** A link of a listing page: the site followed by a target that holds
    [/wikibase/]. *)
Definition accident_link (u : string) : Prop :=
  ∃ href, u = base_url +:+ href ∧ Str.contains "/wikibase/" href = true.

(** The keys a record of the listing source can have. *)
Definition known_keys : list string :=
  "url" :: (labels.key <$> [labels.date; labels.time; labels.type;
      labels.owner_operator; labels.registration; labels.msn;
      labels.year_of_manufacture; labels.fatalities; labels.aircraft_damage;
      labels.location; labels.phase; labels.nature; labels.departure_airport;
      labels.destination_airport; labels.confidence_rating])
  ++ ["narrative"; "sources"].

(** The shape of a record: [url] first, known keys only, each once. *)
Definition well_keyed (d : record) : Prop :=
  NoDup (Dict.keys d) ∧ head (Dict.keys d) = Some "url"
  ∧ Forall (λ k, k ∈ known_keys) (Dict.keys d).

(** What a run keeps true, whatever the site answers: every record holds
    a URL, the URLs of the records are among the detail pages requested,
    in the same order, and every detail page requested is a link of a
    listing page. *)
Definition run_invariant (st : run) : Prop :=
  Forall (λ r, is_Some (url_of r)) (all_accidents st)
  ∧ omap url_of (all_accidents st) `sublist_of` detail_urls (requested st)
  ∧ Forall accident_link (detail_urls (requested st)).

(** The keys of the rows of a table. *)
Definition keys_of (t : list load_staging.row) : gset string :=
  list_to_set (omap load_staging.source_unique_id t).

(** The keys of a batch whose keys are strings. *)
Definition batch_keys (rows : list (json * json)) : gset string :=
  list_to_set (omap (λ x : json * json,
                       match x.1 with JStr k => Some k | _ => None end) rows).

(** A window of the downloads that [datetime] accepts. *)
Definition valid_window (year month : Z) : Prop :=
  1 ≤ year ≤ 9999 ∧ 1 ≤ month ≤ 12.

(** What [datetime] raises on a window it does not accept:
    [OverflowError] when the year or the month does not fit a C [int],
    [ValueError] otherwise. *)
Definition window_error (year month : Z) : exn :=
  if datetime.fits_C_int year && datetime.fits_C_int month then ValueError
  else OverflowError.


(** The export request of a month: the service address, the query
    builder page of the month as referrer, and the three rules of the
    query with the first and the last day of the month. *)
Definition export_request (year month : Z) : NTSBScraper.request :=
  NTSBScraper.Request NTSBScraper.base_url
    ("https://data.ntsb.gov/carol-main-public/query-builder?month="
     +:+ Str.of_int month +:+ "&year=" +:+ Str.of_int year)
    (NTSBScraper.Payload
       [NTSBScraper.QueryRule [month_range.date_text year month 1]
          ["Event.EventDate"] "is on or after";
        NTSBScraper.QueryRule
          [month_range.date_text year month
             (month_range.calendar_month_length year month)]
          ["Event.EventDate"] "is on or before";
        NTSBScraper.QueryRule ["Aviation"] ["Event.Mode"] "is"]
       "and" "cases" "data" 227230 500 true).

(** What a stretch of the downloads does to the counters and the world:
    files, requests and output only grow, each request either fails or
    creates a file, and each attempt is counted once. *)
Definition extends (a b : NTSBScraper.tally * NTSBScraper.world) : Prop :=
  NTSBScraper.files a.2 ⊆ NTSBScraper.files b.2
  ∧ NTSBScraper.requests a.2 `prefix_of` NTSBScraper.requests b.2
  ∧ NTSBScraper.stdout a.2 `prefix_of` NTSBScraper.stdout b.2
  ∧ NTSBScraper.failed a.1 ≤ NTSBScraper.failed b.1
  ∧ NTSBScraper.successful a.1 ≤ NTSBScraper.successful b.1
  ∧ NTSBScraper.total b.1 - NTSBScraper.total a.1
    = (NTSBScraper.successful b.1 - NTSBScraper.successful a.1)
      + (NTSBScraper.failed b.1 - NTSBScraper.failed a.1)
  ∧ Z.of_nat (length (NTSBScraper.requests b.2))
    - Z.of_nat (length (NTSBScraper.requests a.2))
    = (NTSBScraper.failed b.1 - NTSBScraper.failed a.1)
      + (Z.of_nat (size (NTSBScraper.files b.2))
         - Z.of_nat (size (NTSBScraper.files a.2))).

(** A service that answers every request with an archive. *)
Definition service_up (n : nat) (req : NTSBScraper.request)
  : NTSBScraper.post_result :=
  NTSBScraper.PostResponse 200 "PK".

(** A site that serves the same listing for every URL. *)
Definition endless_site (url : string) : response := Response 200 "listing".

Definition no_path (filename : string) : string := filename.

(** Where a file of the output directory comes from: it was there
    before, or it is an entry of a selected archive that opened, written
    under the second and third part of the archive's stem and its own
    base name. *)
Definition provenance (path_name : string → string)
    (listing : list (string * option (list (string * string))))
    (extracted : gmap string string) (name content : string) : Prop :=
  extracted !! name = Some content
  ∨ ∃ zip_name infolist file_info year month,
      (zip_name, Some infolist) ∈ listing
      ∧ unzip_with_rename.is_month_archive zip_name = true
      ∧ Str.split "_" (unzip_with_rename.stem zip_name) !! 1%nat = Some year
      ∧ Str.split "_" (unzip_with_rename.stem zip_name) !! 2%nat = Some month
      ∧ file_info ∈ infolist
      ∧ path_name file_info.1 ≠ EmptyString
      ∧ name = year +:+ "_" +:+ month +:+ "_" +:+ path_name file_info.1
      ∧ content = file_info.2.

End extra.
(** ** Proofs: the date range of a calendar month *)

Section dates.
Import datetime NTSBScraper month_range.

Lemma forallb_seqZ (f : Z → bool) (lo n x : Z) :
  forallb f (seqZ lo n) = true → lo ≤ x < lo + n → f x = true.
Proof.
  intros H Hx. eapply forallb_forall in H; [exact H|].
  apply list_elem_of_In, elem_of_seqZ. lia.
Qed.

Lemma check_day_texts : forallb check_two_digits (seqZ 1 31) = true.
Proof. vm_cast_no_check (eq_refl true). Qed.

(** A year splits into 400-year, 100-year and 4-year cycles. *)
Lemma year_cycles y :
  1 ≤ y →
  ∃ q a b c,
    y = 400 * q + 100 * a + 4 * b + c + 1
    ∧ 0 ≤ q ∧ 0 ≤ a < 4 ∧ 0 ≤ b < 25 ∧ 0 ≤ c < 4.
Proof.
  intros Hy.
  exists ((y - 1) / 400), ((y - 1) mod 400 / 100), ((y - 1) mod 100 / 4),
    ((y - 1) mod 4).
  Z.div_mod_to_equations. lia.
Qed.

Lemma _days_before_year_cycles q a b c :
  0 ≤ q → 0 ≤ a < 4 → 0 ≤ b < 25 → 0 ≤ c < 4 →
  _days_before_year (400 * q + 100 * a + 4 * b + c + 1)
  = 146097 * q + 36524 * a + 1461 * b + 365 * c.
Proof.
  intros Hq Ha Hb Hc. unfold _days_before_year.
  Z.div_mod_to_equations. lia.
Qed.

Lemma _is_leap_cycles q a b c :
  0 ≤ q → 0 ≤ a < 4 → 0 ≤ b < 25 → 0 ≤ c < 4 →
  _is_leap (400 * q + 100 * a + 4 * b + c + 1)
  = (c =? 3) && (negb (b =? 24) || (a =? 3)).
Proof.
  intros Hq Ha Hb Hc. unfold _is_leap.
  destruct (Z.eqb_spec c 3), (Z.eqb_spec b 24), (Z.eqb_spec a 3);
    repeat match goal with
    | |- context [?x mod ?k =? 0] => destruct (Z.eqb_spec (x mod k) 0)
    end; cbn [andb orb negb]; try reflexivity;
    exfalso; Z.div_mod_to_equations; lia.
Qed.

(** The two leap-year tests agree. *)
Lemma leap_year_is_leap y : leap_year y = _is_leap y.
Proof.
  unfold leap_year, _is_leap.
  repeat match goal with
  | |- context [?x mod ?k =? 0] => destruct (Z.eqb_spec (x mod k) 0)
  end; cbn [andb orb negb]; try reflexivity;
  exfalso; Z.div_mod_to_equations; lia.
Qed.

Lemma _days_before_next_year y :
  _days_before_year (y + 1) = _days_before_year y + 365 + int_of_bool (_is_leap y).
Proof.
  unfold _days_before_year, _is_leap, int_of_bool.
  repeat match goal with
  | |- context [?x mod ?k =? 0] => destruct (Z.eqb_spec (x mod k) 0)
  end; cbn [andb orb negb]; Z.div_mod_to_equations; lia.
Qed.

(** The ordinal of the day number [t] of a year goes back to that year. *)
Lemma _ord2ymd_cycles q a b c t :
  0 ≤ q → 0 ≤ a < 4 → 0 ≤ b < 25 → 0 ≤ c < 4 → 0 ≤ t < 365 →
  _ord2ymd (146097 * q + 36524 * a + 1461 * b + 365 * c + t + 1)
  = locate (400 * q + 100 * a + 4 * b + c + 1)
      ((c =? 3) && (negb (b =? 24) || (a =? 3))) t.
Proof.
  intros Hq Ha Hb Hc Ht. unfold _ord2ymd, _DI400Y, _DI100Y, _DI4Y.
  replace (146097 * q + 36524 * a + 1461 * b + 365 * c + t + 1 - 1)
    with (146097 * q + 36524 * a + 1461 * b + 365 * c + t) by lia.
  cbv zeta.
  assert ((146097 * q + 36524 * a + 1461 * b + 365 * c + t) / 146097 = q)
    as -> by (Z.div_mod_to_equations; lia).
  assert ((146097 * q + 36524 * a + 1461 * b + 365 * c + t) mod 146097
          = 36524 * a + 1461 * b + 365 * c + t)
    as -> by (Z.div_mod_to_equations; lia).
  assert ((36524 * a + 1461 * b + 365 * c + t) / 36524 = a)
    as -> by (Z.div_mod_to_equations; lia).
  assert ((36524 * a + 1461 * b + 365 * c + t) mod 36524
          = 1461 * b + 365 * c + t)
    as -> by (Z.div_mod_to_equations; lia).
  assert ((1461 * b + 365 * c + t) / 1461 = b)
    as -> by (Z.div_mod_to_equations; lia).
  assert ((1461 * b + 365 * c + t) mod 1461 = 365 * c + t)
    as -> by (Z.div_mod_to_equations; lia).
  assert ((365 * c + t) / 365 = c) as -> by (Z.div_mod_to_equations; lia).
  assert ((365 * c + t) mod 365 = t) as -> by (Z.div_mod_to_equations; lia).
  assert ((c =? 4) || (a =? 4) = false) as ->.
  { apply orb_false_intro; apply Z.eqb_neq; lia. }
  replace (q * 400 + 1 + (a * 100 + b * 4 + c))
    with (400 * q + 100 * a + 4 * b + c + 1) by lia.
  reflexivity.
Qed.

Lemma _days_in_month_ge y m : 1 ≤ m ≤ 12 → 28 ≤ _days_in_month y m ≤ 31.
Proof.
  intros Hm. unfold _days_in_month.
  assert (m ∈ seqZ 1 12) as Hin by (apply elem_of_seqZ; lia).
  case_match; [lia|].
  clear -Hin. cbv [seqZ seq fmap list_fmap Z.to_nat Pos.to_nat Pos.iter_op Init.Nat.add] in Hin.
  repeat (apply elem_of_cons in Hin as [->|Hin]; [vm_compute; split; discriminate|]).
  by apply elem_of_nil in Hin.
Qed.

Lemma datetime_ok y m d :
  1 ≤ y ≤ 9999 → 1 ≤ m ≤ 12 → 1 ≤ d ≤ _days_in_month y m →
  datetime y m d = Ok (mk y m d).
Proof.
  intros Hy Hm Hd. pose proof (_days_in_month_ge y m Hm).
  unfold datetime, fits_C_int, MINYEAR, MAXYEAR.
  repeat case_match; try done; exfalso;
    repeat match goal with
    | H : negb _ = true |- _ => apply negb_true_iff in H
    | H : _ && _ = false |- _ => apply andb_false_iff in H as [H|H]
    | H : (_ <=? _) = false |- _ => apply Z.leb_gt in H
    end; lia.
Qed.

(** What [datetime] raises on a year or a month it does not take. *)
Lemma datetime_invalid y m :
  ¬ (1 ≤ y ≤ 9999 ∧ 1 ≤ m ≤ 12) →
  datetime y m 1
  = Raise (if fits_C_int y && fits_C_int m then ValueError
           else OverflowError).
Proof.
  intros Hinvalid. unfold datetime, MINYEAR, MAXYEAR.
  change (fits_C_int 1) with true. rewrite andb_true_r.
  destruct (fits_C_int y && fits_C_int m); cbn [negb]; [|done].
  destruct ((1 <=? y) && (y <=? 9999)) eqn:Hy; cbn [negb]; [|done].
  destruct ((1 <=? m) && (m <=? 12)) eqn:Hm; cbn [negb]; [|done].
  destruct Hinvalid. lia.
Qed.

Lemma _ymd2ord_bounds y m :
  1 ≤ y ≤ 9999 → 2 ≤ m ≤ 12 → 31 < _ymd2ord y m 1 ≤ _MAXORDINAL - 20.
Proof.
  intros Hy Hm. unfold _ymd2ord, _days_before_year, _days_before_month, _MAXORDINAL.
  assert (31 ≤ item _DAYS_BEFORE_MONTH m ≤ 334) as Hb.
  { assert (m ∈ seqZ 2 11) as Hin by (apply elem_of_seqZ; lia).
    clear -Hin. cbv [seqZ seq fmap list_fmap Z.to_nat Pos.to_nat Pos.iter_op Init.Nat.add] in Hin.
    repeat (apply elem_of_cons in Hin as [->|Hin]; [vm_compute; split; discriminate|]).
    by apply elem_of_nil in Hin. }
  assert (0 ≤ int_of_bool ((2 <? m) && _is_leap y) ≤ 1) by (unfold int_of_bool; case_match; lia).
  Z.div_mod_to_equations. lia.
Qed.

Lemma month_in_range m :
  1 ≤ m ≤ 12 → m ∈ [1; 2; 3; 4; 5; 6; 7; 8; 9; 10; 11; 12].
Proof.
  intros Hm. assert (m ∈ seqZ 1 12) as Hin by (apply elem_of_seqZ; lia).
  exact Hin.
Qed.

Lemma int_of_bool_range flag : 0 ≤ int_of_bool flag ≤ 1.
Proof. destruct flag; cbn; lia. Qed.

Ltac next_month :=
  repeat match goal with
  | |- context [Z.pos ?p + 1] =>
      let v := eval vm_compute in (Z.pos p + 1) in
      change (Z.pos p + 1) with v
  end.

Ltac table_items :=
  cbv [item _DAYS_BEFORE_MONTH _DAYS_IN_MONTH nth Z.to_nat Pos.to_nat
       Pos.iter_op Init.Nat.add].

Lemma month_dates_spec y m :
  1 ≤ y ≤ 9999 → 1 ≤ m ≤ 12 →
  month_dates y m = Ok (mk y m 1, mk y m (calendar_month_length y m))
  ∧ (let '(y', m') := following_month y m in
     _ymd2ord y m (calendar_month_length y m) + 1 = _ymd2ord y' m' 1).
Proof.
  intros Hy Hm. unfold month_dates.
  rewrite (datetime_ok y m 1) by (pose proof (_days_in_month_ge y m); lia).
  cbn [mbind result_bind].
  unfold following_month, calendar_month_length, _ymd2ord, _days_before_month.
  rewrite leap_year_is_leap.
  destruct (m =? 12) eqn:Hm12.
  - apply Z.eqb_eq in Hm12 as ->.
    rewrite datetime_ok by first [lia | vm_compute; split; discriminate].
    cbn [mbind result_bind]. split; [done|].
    rewrite _days_before_next_year. table_items. simpl.
    destruct (_is_leap y); cbn [int_of_bool]; lia.
  - apply Z.eqb_neq in Hm12.
    rewrite (datetime_ok y (m + 1) 1)
      by (pose proof (_days_in_month_ge y (m + 1)); lia).
    cbn [mbind result_bind].
    unfold sub_days, toordinal. cbn [year month day].
    pose proof (_ymd2ord_bounds y (m + 1)) as Hb.
    assert ((0 <? _ymd2ord y (m + 1) 1 - 1)
            && (_ymd2ord y (m + 1) 1 - 1 <=? _MAXORDINAL) = true) as ->.
    { apply andb_true_intro. rewrite Z.ltb_lt, Z.leb_le. lia. }
    clear Hb. unfold _ymd2ord, _days_before_month.
    destruct (year_cycles y) as (q & a & b & c & -> & Hq & Ha & Hb & Hc); [lia|].
    rewrite _days_before_year_cycles, _is_leap_cycles by done.
    pose proof (month_in_range m Hm) as Hin.
    repeat (apply elem_of_cons in Hin as [->|Hin];
      [try lia; next_month;
       match goal with
       | |- context [_ord2ymd ?n] =>
           match n with
           | ?base + (?dbm + ?adj) + 1 - 1 =>
               replace n with (base + (dbm + adj - 1) + 1) by lia;
               rewrite (_ord2ymd_cycles q a b c (dbm + adj - 1))
                 by (try done; table_items;
                     match goal with
                     | |- context [int_of_bool ?flag] =>
                         pose proof (int_of_bool_range flag)
                     end; lia)
           end
       end;
       destruct ((c =? 3) && (negb (b =? 24) || (a =? 3)));
         (split; [reflexivity|table_items; simpl; cbn [int_of_bool]; lia])|]).
    by apply elem_of_nil in Hin.
Qed.

Lemma pretty_pos (y : Z) : 0 < y → pretty y = pretty_N_go (Z.to_N y) EmptyString.
Proof. destruct y as [|p|p]; [lia| |lia]. intros _. reflexivity. Qed.

Lemma pretty_N_char_digit (d : N) :
  (d < 10)%N → pretty_N_char d = ascii_of_nat (48 + N.to_nat d).
Proof.
  intros Hd. assert (d ∈ [0; 1; 2; 3; 4; 5; 6; 7; 8; 9]%N) as Hin.
  { destruct d as [|p]; [set_solver|].
    do 10 (destruct p as [p|p|]; try lia; try set_solver). }
  repeat (apply elem_of_cons in Hin as [->|Hin]; [reflexivity|]).
  by apply elem_of_nil in Hin.
Qed.

Lemma pretty_digit (x : N) (y : Z) :
  y = Z.of_N x → pretty_N_char (x `mod` 10) = digit y.
Proof.
  intros ->. rewrite pretty_N_char_digit by (apply N.mod_lt; lia).
  unfold digit. change 10 with (Z.of_N 10). rewrite <-N2Z.inj_mod.
  f_equal. f_equal. generalize (x `mod` 10)%N. intros n. lia.
Qed.

Lemma pretty_N_go_digits (z : Z) (s : string) :
  0 < z →
  pretty_N_go (Z.to_N z) s
  = pretty_N_go (Z.to_N (z / 10)) (String (digit z) s).
Proof.
  intros Hz. rewrite pretty_N_go_step by lia.
  rewrite (pretty_digit (Z.to_N z) z) by lia.
  by rewrite Z2N.inj_div by lia.
Qed.

(** The numeral of a year has no leading zero. *)
Lemma of_int_year y : 1 ≤ y ≤ 9999 → Str.of_int y = year_text y.
Proof.
  intros Hy. unfold Str.of_int, year_text.
  rewrite pretty_pos by lia.
  rewrite pretty_N_go_digits by lia.
  destruct (Z.ltb_spec y 10) as [H1|H1].
  { replace (y / 10) with 0 by (Z.div_mod_to_equations; lia).
    reflexivity. }
  rewrite pretty_N_go_digits by (Z.div_mod_to_equations; lia).
  replace (y / 10 / 10) with (y / 100) by (Z.div_mod_to_equations; lia).
  destruct (Z.ltb_spec y 100) as [H2|H2].
  { replace (y / 100) with 0 by (Z.div_mod_to_equations; lia).
    reflexivity. }
  rewrite pretty_N_go_digits by (Z.div_mod_to_equations; lia).
  replace (y / 100 / 10) with (y / 1000) by (Z.div_mod_to_equations; lia).
  destruct (Z.ltb_spec y 1000) as [H3|H3].
  { replace (y / 1000) with 0 by (Z.div_mod_to_equations; lia).
    reflexivity. }
  rewrite pretty_N_go_digits by (Z.div_mod_to_equations; lia).
  replace (y / 1000 / 10) with 0 by (Z.div_mod_to_equations; lia).
  reflexivity.
Qed.


Lemma format_two_digits n :
  1 ≤ n ≤ 31 →
  Str.format_0d 2 n = String (digit (n / 10)) (String (digit n) EmptyString).
Proof.
  intros Hn.
  apply String.eqb_eq.
  apply (forallb_seqZ check_two_digits 1 31 n check_day_texts). lia.
Qed.

Lemma strftime_Ymd_text y m d :
  1 ≤ y ≤ 9999 → 1 ≤ m ≤ 12 → 1 ≤ d ≤ 31 →
  strftime_Ymd (mk y m d) = date_text y m d.
Proof.
  intros Hy Hm Hd. unfold strftime_Ymd. cbn [year month day].
  rewrite of_int_year, !format_two_digits by lia. reflexivity.
Qed.

Lemma calendar_month_length_range y m : 28 ≤ calendar_month_length y m ≤ 31.
Proof. unfold calendar_month_length. repeat case_match; lia. Qed.

(** [get_month_date_range] never raises on a valid month. *)
Lemma get_month_date_range_ok year month :
  1 ≤ year ≤ 9999 → 1 ≤ month ≤ 12 →
  get_month_date_range year month
  = Ok (date_text year month 1,
        date_text year month (calendar_month_length year month)).
Proof.
  intros Hy Hm.
  destruct (month_dates_spec year month Hy Hm) as [Hd _].
  unfold get_month_date_range. unfold month_dates in Hd.
  destruct (datetime.datetime year month 1) as [first_day|]; [|done].
  cbn [mbind result_bind] in *.
  destruct (if month =? 12 then _ else _) as [last_day|]; [|done].
  cbn [mbind result_bind] in *. simplify_eq.
  pose proof (calendar_month_length_range year month).
  by rewrite !strftime_Ymd_text by lia.
Qed.

End dates.




(** ** Proofs: strings *)

Section strings.
Import Str.

Lemma append_cons c s t : String c s +:+ t = String c (s +:+ t).
Proof. reflexivity. Qed.

Lemma append_empty_l s : EmptyString +:+ s = s.
Proof. reflexivity. Qed.

Lemma startswith_spec p s :
  startswith p s = true ↔ ∃ post, s = p +:+ post.
Proof.
  revert s. induction p as [|a p IH]; intros s; cbn [startswith].
  - split; [intros _; by exists s|done].
  - destruct s as [|b s].
    + split; [done|]. intros [post Hpost]. by rewrite append_cons in Hpost.
    + rewrite andb_true_iff, IH, Ascii.eqb_eq. split.
      * intros [-> [post ->]]. by exists post.
      * intros [post Hpost]. rewrite append_cons in Hpost.
        simplify_eq. split; [done|]. by exists post.
Qed.

(** [needle in hay] holds exactly when [hay] has [needle] as a substring. *)
Lemma contains_spec needle hay :
  contains needle hay = true ↔ ∃ pre post, hay = pre +:+ needle +:+ post.
Proof.
  induction hay as [|c hay IH].
  - cbn [contains]. rewrite orb_false_r, startswith_spec. split.
    + intros [post ->]. by exists EmptyString, post.
    + intros [[|c pre] [post Hpost]]; [by exists post|].
      by rewrite append_cons in Hpost.
  - cbn [contains]. rewrite orb_true_iff, startswith_spec, IH. split.
    + intros [[post ->]|[pre [post ->]]].
      * by exists EmptyString, post.
      * by exists (String c pre), post.
    + intros [[|c' pre] [post Hpost]].
      * left. by exists post.
      * right. rewrite append_cons in Hpost. simplify_eq. by exists pre, post.
Qed.

Lemma contains_char_cons (sep c : ascii) s :
  contains (String sep EmptyString) (String c s)
  = Ascii.eqb sep c || contains (String sep EmptyString) s.
Proof. cbn [contains startswith]. by rewrite andb_true_r. Qed.

Lemma split_no_sep sep s :
  contains (String sep EmptyString) s = false → split sep s = [s].
Proof.
  induction s as [|c s IH]; [done|].
  rewrite contains_char_cons. intros [Hc Hs]%orb_false_elim.
  cbn [split]. rewrite Ascii.eqb_sym, Hc, IH by done. done.
Qed.

Lemma split_last_segment sep pre seg :
  contains (String sep EmptyString) seg = false →
  ∃ l, l ≠ [] ∧ split sep (pre +:+ String sep seg) = l ++ [seg].
Proof.
  intros Hseg. induction pre as [|c pre (l & Hl & IH)].
  - exists [EmptyString]. split; [done|].
    rewrite append_empty_l. cbn [split].
    by rewrite Ascii.eqb_refl, split_no_sep.
  - rewrite append_cons. cbn [split]. rewrite IH.
    destruct (Ascii.eqb c sep).
    + exists (EmptyString :: l). by split.
    + destruct l as [|p l]; [done|]. exists (String c p :: l). by split.
Qed.

Lemma split_length sep s : (1 ≤ length (split sep s))%nat.
Proof.
  induction s as [|c s IH]; cbn [split]; [done|].
  destruct (Ascii.eqb c sep); [cbn [length]; lia|].
  destruct (split sep s); cbn [length] in *; lia.
Qed.

Lemma split_nonempty sep s : split sep s ≠ [].
Proof.
  pose proof (split_length sep s).
  destruct (split sep s); [cbn [length] in *; lia|done].
Qed.

Lemma split_length_sep sep s :
  contains (String sep EmptyString) s = true → (2 ≤ length (split sep s))%nat.
Proof.
  induction s as [|c s IH]; [done|].
  rewrite contains_char_cons. cbn [split]. rewrite (Ascii.eqb_sym c sep).
  destruct (Ascii.eqb sep c); cbn [orb].
  - intros _. pose proof (split_length sep s). cbn [length]. lia.
  - intros Hs%IH. destruct (split sep s); cbn [length] in *; lia.
Qed.

Lemma last_default {A} (l : list A) (d d' : A) :
  l ≠ [] → List.last l d = List.last l d'.
Proof.
  induction l as [|x [|y l] IH]; [done|done|].
  intros _. cbn [List.last] in *. by apply IH.
Qed.

End strings.

Section country.
Import AviationSafetyScraper.

(** The three steps of [_extract_country] in one: the hyperlink, or what
    follows the last dash. *)
Lemma _extract_country_resolved location_text soup :
  _extract_country location_text soup = location.resolved location_text soup.
Proof.
  unfold _extract_country, location.resolved, location.country_link.
  destruct (bs4.soup_find _ _ _) as [location_row|];
    cbn [mbind option_bind].
  2:{ destruct (Str.contains "-" location_text) eqn:Hdash.
      - pose proof (split_length_sep _ _ Hdash) as Hlen.
        assert ((2 <=? length (Str.split "-" location_text))%nat = true)
          as -> by (by apply Nat.leb_le).
        f_equal. apply last_default, split_nonempty.
      - by rewrite split_no_sep. }
  destruct (bs4.find_next_sibling _ _) as [location_cell|];
    cbn [mbind option_bind].
  2:{ destruct (Str.contains "-" location_text) eqn:Hdash.
      - pose proof (split_length_sep _ _ Hdash) as Hlen.
        assert ((2 <=? length (Str.split "-" location_text))%nat = true)
          as -> by (by apply Nat.leb_le).
        f_equal. apply last_default, split_nonempty.
      - by rewrite split_no_sep. }
  destruct (bs4.find "a" _ _) as [link|]; cbn [mbind option_bind]; [done|].
  destruct (Str.contains "-" location_text) eqn:Hdash.
  - pose proof (split_length_sep _ _ Hdash) as Hlen.
    assert ((2 <=? length (Str.split "-" location_text))%nat = true)
      as -> by (by apply Nat.leb_le).
    f_equal. apply last_default, split_nonempty.
  - by rewrite split_no_sep.
Qed.

End country.

(** ** Proofs: location resolution *)

(** C6.  [_extract_country] is a three-step fallback: with a country
    hyperlink in the location row's cell the result is the stripped text
    of the hyperlink; without one, a text [pre-seg] whose last segment
    [seg] has no dash resolves to the stripped [seg]; without hyperlink
    and without dash the result is the stripped raw text. *)
Theorem _extract_country_three_step (location_text : string) (soup : bs4.soup) :
  (∀ link, location.country_link soup = Some link →
     AviationSafetyScraper._extract_country location_text soup
     = Str.strip (bs4.text link))
  ∧ (location.country_link soup = None →
     ∀ pre seg, location_text = pre +:+ "-" +:+ seg →
       Str.contains "-" seg = false →
       AviationSafetyScraper._extract_country location_text soup
       = Str.strip seg)
  ∧ (location.country_link soup = None →
     Str.contains "-" location_text = false →
     AviationSafetyScraper._extract_country location_text soup
     = Str.strip location_text).
Proof.
  unfold AviationSafetyScraper._extract_country, location.country_link.
  split; [|split].
  - intros link Hlink.
    destruct (bs4.soup_find _ _ _) as [location_row|]; [|done].
    cbn [mbind option_bind] in *.
    destruct (bs4.find_next_sibling _ _) as [location_cell|]; [|done].
    cbn [mbind option_bind] in *. by rewrite Hlink.
  - intros Hnone pre seg -> Hseg.
    assert ((location_row ← bs4.soup_find "td"
               (λ n, bs4.has_class "caption" n
                     && bs4.string_search "Location:" n) soup;
             location_cell ← bs4.find_next_sibling "td" location_row.2;
             country_link ←
               bs4.find "a" (bs4.attr_search "href" "/asndb/country/")
                 location_cell.1;
             Some (Str.strip (bs4.text country_link))) = None) as ->.
    { destruct (bs4.soup_find _ _ _) as [location_row|]; [|done].
      cbn [mbind option_bind] in *.
      destruct (bs4.find_next_sibling _ _) as [location_cell|]; [|done].
      cbn [mbind option_bind] in *. by rewrite Hnone. }
    assert (Str.contains "-" (pre +:+ "-" +:+ seg) = true) as ->
      by (apply contains_spec; by exists pre, seg).
    destruct (split_last_segment "-" pre seg Hseg) as (l & Hl & Hsplit).
    change (pre +:+ "-" +:+ seg) with (pre +:+ String "-" seg).
    rewrite Hsplit, last_last.
    destruct (2 <=? _)%nat eqn:Hlen; [done|].
    apply Nat.leb_gt in Hlen. rewrite length_app in Hlen.
    destruct l; [done|]. cbn [length] in Hlen. lia.
  - intros Hnone Hdash.
    assert ((location_row ← bs4.soup_find "td"
               (λ n, bs4.has_class "caption" n
                     && bs4.string_search "Location:" n) soup;
             location_cell ← bs4.find_next_sibling "td" location_row.2;
             country_link ←
               bs4.find "a" (bs4.attr_search "href" "/asndb/country/")
                 location_cell.1;
             Some (Str.strip (bs4.text country_link))) = None) as ->.
    { destruct (bs4.soup_find _ _ _) as [location_row|]; [|done].
      cbn [mbind option_bind] in *.
      destruct (bs4.find_next_sibling _ _) as [location_cell|]; [|done].
      cbn [mbind option_bind] in *. by rewrite Hnone. }
    by rewrite Hdash.
Qed.

(** ** Proofs: dicts *)

Section dict.
Context {V : Type}.
Implicit Types (d : list (string * V)) (k : string) (v : V).

Lemma get_set_eq k v d : Dict.get k (Dict.set k v d) = Some v.
Proof.
  induction d as [|[k' v'] d IH]; cbn [Dict.set Dict.get].
  - by rewrite decide_True.
  - destruct (decide (k' = k)) as [->|Hne]; cbn [Dict.get].
    + by rewrite decide_True.
    + by rewrite decide_False.
Qed.

Lemma get_set_ne k k' v d : k ≠ k' → Dict.get k (Dict.set k' v d) = Dict.get k d.
Proof.
  intros Hne. induction d as [|[k'' v''] d IH]; cbn [Dict.set Dict.get].
  - by rewrite decide_False.
  - destruct (decide (k'' = k')) as [->|Hne']; cbn [Dict.get].
    + by rewrite !decide_False.
    + by rewrite IH.
Qed.

End dict.

(** ** Proofs: the detail-page parser *)

Section parser.
Import AviationSafetyScraper labels.

Lemma key_inj f f' : key f = key f' → f = f'.
Proof. destruct f, f'; first [done | intros [=]]. Qed.

Lemma key_not_url f : key f ≠ "url".
Proof. by destruct f. Qed.

Lemma key_not_narrative f : key f ≠ "narrative".
Proof. by destruct f. Qed.

Lemma key_not_sources f : key f ≠ "sources".
Proof. by destruct f. Qed.

(** The [if]/[elif] chain is the first-match search of [rules]. *)
Lemma parse_row_assign soup accident_data row :
  parse_row soup accident_data row = assign_row soup accident_data row.
Proof.
  unfold parse_row, assign_row, row_label.
  destruct (bs4.find_all "td" bs4.any row) as [|cell0 [|cell1 cells]]; [done..|].
  fold (caption_of cell0). generalize (caption_of cell0) as caption.
  intros caption. unfold classify, rules.
  cbn [List.find]. unfold rule_matches. cbn [pattern excluded].
  unfold extracted, value_or_None.
  repeat match goal with
  | |- context [Str.contains ?p caption] =>
      destruct (Str.contains p caption); cbn [andb negb]
  end;
  cbn [fmap option_fmap option_map rule_field key];
  rewrite ?_extract_country_resolved; try reflexivity;
  by destruct (Str.strip (bs4.text cell1)).
Qed.

Lemma foldl_parse_row soup rows accident_data :
  foldl (parse_row soup) accident_data rows
  = foldl (assign_row soup) accident_data rows.
Proof.
  revert accident_data. induction rows as [|row rows IH]; intros d; [done|].
  cbn [foldl]. by rewrite parse_row_assign, IH.
Qed.

(** After the loop a field holds the value of the last row that carries
    it, and keeps its earlier state when no row does. *)
Lemma foldl_assign_row_get soup f rows accident_data :
  Dict.get (key f) (foldl (assign_row soup) accident_data rows)
  = match last (cells_of f rows) with
    | Some cell => Some (extracted soup f cell)
    | None => Dict.get (key f) accident_data
    end.
Proof.
  revert accident_data. induction rows as [|row rows IH]; intros d; [done|].
  cbn [foldl]. rewrite IH. unfold cells_of at 2. cbn [omap list_omap].
  fold (cells_of f rows). unfold assign_row.
  destruct (row_label row) as [[f' cell]|]; cbn [mbind option_bind]; [|done].
  destruct (decide (f' = f)) as [->|Hne].
  - rewrite last_cons. destruct (last (cells_of f rows)); [done|].
    by rewrite get_set_eq.
  - destruct (last (cells_of f rows)); [done|].
    rewrite get_set_ne; [done|]. intros ?%key_inj. congruence.
Qed.

(** The table loop leaves alone every key that is not a field key. *)
Lemma foldl_assign_row_other soup k rows accident_data :
  (∀ f, key f ≠ k) →
  Dict.get k (foldl (assign_row soup) accident_data rows)
  = Dict.get k accident_data.
Proof.
  intros Hk. revert accident_data.
  induction rows as [|row rows IH]; intros d; [done|].
  cbn [foldl]. rewrite IH. unfold assign_row.
  destruct (row_label row) as [[f' cell]|]; [|done].
  rewrite get_set_ne; [done|]. intros ?. by eapply Hk.
Qed.

Lemma parse_narrative_get soup k accident_data :
  k ≠ "narrative" →
  Dict.get k (parse_narrative soup accident_data) = Dict.get k accident_data.
Proof.
  intros Hk. unfold parse_narrative.
  repeat case_match; try done; by rewrite get_set_ne.
Qed.

Lemma parse_sources_get soup k accident_data :
  k ≠ "sources" →
  Dict.get k (parse_sources soup accident_data) = Dict.get k accident_data.
Proof.
  intros Hk. unfold parse_sources.
  repeat case_match; try done; by rewrite get_set_ne.
Qed.

(** What [List.find] computes: the first element that passes the test. *)
Lemma find_first {A} (p : A → bool) (l : list A) (x : A) :
  List.find p l = Some x
  ↔ ∃ before after, l = before ++ x :: after ∧ p x = true
      ∧ Forall (λ y, p y = false) before.
Proof.
  induction l as [|a l IH]; cbn [List.find].
  - split; [done|]. intros (before & after & Hl & _). by destruct before.
  - destruct (p a) eqn:Ha.
    + split.
      * intros [= ->]. by exists [], l.
      * intros ([|b before] & after & Hl & Hx & Hbefore); simplify_eq/=; [done|].
        apply Forall_cons in Hbefore as [Hb _]. congruence.
    + rewrite IH. split.
      * intros (before & after & -> & Hx & Hbefore).
        exists (a :: before), after. by repeat constructor.
      * intros ([|b before] & after & Hl & Hx & Hbefore); simplify_eq/=.
        { congruence. }
        apply Forall_cons in Hbefore as [_ Hbefore]. by exists before, after.
Qed.

End parser.

(** C4.  For a detail page on which [_parse_accident_detail] returns a
    record: each field of the label/value table holds the value extracted
    from the value cell of the last row that carries its label, and is
    absent from the record when no row carries it; the label of a row is
    decided by the first rule of the declaration order that matches, a
    label containing "aircraft" never counts for the type field and a
    label containing "other" never counts for the fatalities field. *)
Theorem _parse_accident_detail_table_fields
    (html_parser : string → bs4.soup) (html url : string)
    (accident_data : AviationSafetyScraper.record) :
  AviationSafetyScraper._parse_accident_detail html_parser html url
  = Some accident_data →
  ∃ i table,
    bs4.soup_find "table" bs4.any (html_parser html) = Some (i, table)
    ∧ (∀ f,
         Dict.get (labels.key f) accident_data
         = labels.extracted (html_parser html) f
           <$> last (labels.cells_of f (bs4.find_all "tr" bs4.any table.1)))
    ∧ (∀ soup d row,
         AviationSafetyScraper.parse_row soup d row
         = labels.assign_row soup d row)
    ∧ (∀ caption f,
         labels.classify caption = Some f
         ↔ ∃ before r after,
             labels.rules = before ++ r :: after
             ∧ labels.rule_field r = f
             ∧ labels.rule_matches caption r = true
             ∧ Forall (λ r', labels.rule_matches caption r' = false) before)
    ∧ (∀ caption,
         Str.contains "aircraft" caption = true →
         labels.classify caption ≠ Some labels.type)
    ∧ (∀ caption,
         Str.contains "other" caption = true →
         labels.classify caption ≠ Some labels.fatalities).
Proof.
  intros Hparse. unfold AviationSafetyScraper._parse_accident_detail in Hparse.
  destruct (bs4.soup_find "table" bs4.any (html_parser html))
    as [[i table]|] eqn:Htable; [|done].
  injection Hparse as <-. exists i, table. split; [done|].
  split; [|split; [|split; [|split]]].
  - intros f.
    rewrite parse_sources_get by apply key_not_sources.
    rewrite parse_narrative_get by apply key_not_narrative.
    rewrite foldl_parse_row, foldl_assign_row_get.
    destruct (last _); [done|].
    cbn [Dict.get]. rewrite decide_False; [done|].
    intros Heq. by apply (key_not_url f).
  - apply parse_row_assign.
  - intros caption f. unfold labels.classify. split.
    + destruct (List.find _ _) as [r|] eqn:Hfind; [|done].
      intros [= <-]. apply find_first in Hfind as (before & after & ? & ? & ?).
      by exists before, r, after.
    + intros (before & r & after & Hrules & <- & Hr & Hbefore).
      assert (List.find (labels.rule_matches caption) labels.rules = Some r)
        as ->; [|done].
      apply find_first. by exists before, after.
  - intros caption Hc. unfold labels.classify, labels.rules.
    cbn [List.find]. unfold labels.rule_matches. cbn [labels.pattern labels.excluded].
    rewrite Hc. cbn [negb andb].
    repeat match goal with
    | |- context [Str.contains ?p caption] =>
        destruct (Str.contains p caption); cbn [andb negb]
    end; done.
  - intros caption Hc. unfold labels.classify, labels.rules.
    cbn [List.find]. unfold labels.rule_matches. cbn [labels.pattern labels.excluded].
    rewrite Hc. cbn [negb andb].
    repeat match goal with
    | |- context [Str.contains ?p caption] =>
        destruct (Str.contains p caption); cbn [andb negb]
    end; done.
Qed.

(** C10.  Every record returned by [_parse_accident_detail] holds under
    [url] the URL it was parsed from, whatever the table, the narrative
    and the sources contributed; the key the staging loader derives from
    the record is the last path segment of that URL. *)
Theorem _parse_accident_detail_url
    (html_parser : string → bs4.soup) (html url : string)
    (accident_data : AviationSafetyScraper.record) :
  AviationSafetyScraper._parse_accident_detail html_parser html url
  = Some accident_data →
  Dict.get "url" accident_data = Some (JStr url)
  ∧ (u ← Py.get (JObj accident_data) "url"; Py.split_last u "/")
    = Ok (List.last (Str.split "/" url) EmptyString).
Proof.
  intros Hparse. unfold AviationSafetyScraper._parse_accident_detail in Hparse.
  destruct (bs4.soup_find "table" bs4.any (html_parser html))
    as [[i table]|]; [|done].
  injection Hparse as <-.
  assert (Dict.get "url"
            (AviationSafetyScraper.parse_sources (html_parser html)
               (AviationSafetyScraper.parse_narrative (html_parser html)
                  (foldl (AviationSafetyScraper.parse_row (html_parser html))
                     [("url", JStr url)]
                     (bs4.find_all "tr" bs4.any table.1))))
          = Some (JStr url)) as Hurl.
  { rewrite parse_sources_get, parse_narrative_get by done.
    rewrite foldl_parse_row, foldl_assign_row_other; [done|].
    apply key_not_url. }
  split; [done|].
  cbn [Py.get]. by rewrite Hurl.
Qed.

(** ** Proofs: pagination of a listing run *)

Section pagination.
Import AviationSafetyScraper pagination.
Variable html_parser : string → bs4.soup.
Variable http_get : string → response.
Variable year : Z.

Abbreviation scrape_accident := (scrape_accident html_parser http_get).
Abbreviation scrape_pages := (scrape_pages html_parser http_get).

(** [_make_request] gives the body exactly when the site serves one. *)
Lemma _make_request_served url :
  _make_request http_get url = served http_get url.
Proof.
  unfold _make_request, served.
  destruct (http_get url) as [status_code text|]; [|done].
  destruct (bool_decide_reflect (200 ≤ status_code < 400)) as [Hs|Hs].
  - assert ((200 <=? status_code) && (status_code <? 400) = true) as ->;
      [|done].
    apply andb_true_intro. rewrite Z.leb_le, Z.ltb_lt. lia.
  - assert ((200 <=? status_code) && (status_code <? 400) = false) as ->.
    { apply not_true_iff_false. rewrite andb_true_iff, Z.leb_le, Z.ltb_lt.
      lia. }
    by destruct (status_code =? 404).
Qed.

Lemma listing_pages_app r1 r2 :
  listing_pages (r1 ++ r2) = listing_pages r1 ++ listing_pages r2.
Proof. apply omap_app. Qed.

Lemma scrape_accident_spec st url :
  all_accidents (scrape_accident st url)
  = all_accidents st ++ detail_record html_parser http_get url
  ∧ listing_pages (requested (scrape_accident st url))
    = listing_pages (requested st).
Proof.
  unfold scrape_accident, detail_record. rewrite _make_request_served.
  repeat case_match; cbn [all_accidents requested];
    rewrite ?listing_pages_app, ?app_nil_r; done.
Qed.

Lemma foldl_scrape_accident st urls :
  all_accidents (foldl scrape_accident st urls)
  = all_accidents st ++ flat_map (detail_record html_parser http_get) urls
  ∧ listing_pages (requested (foldl scrape_accident st urls))
    = listing_pages (requested st).
Proof.
  revert st. induction urls as [|url urls IH]; intros st; cbn [foldl flat_map].
  - by rewrite app_nil_r.
  - destruct (IH (scrape_accident st url)) as [-> ->].
    destruct (scrape_accident_spec st url) as [-> ->].
    by rewrite app_assoc.
Qed.

(** A page that stops the run: the state gains the request and nothing
    else. *)
Lemma scrape_pages_stop fuel p st :
  not_found http_get year p ∨ no_links html_parser http_get year p →
  scrape_pages (S fuel) year p st
  = Some (Run (all_accidents st) (requested st ++ [Listing p])).
Proof.
  intros Hstop. cbn [scrape_pages]. cbn [all_accidents requested].
  rewrite _make_request_served.
  destruct Hstop as [[text H404]|(html & Hreq & Hlinks)].
  - unfold served. by rewrite H404.
  - rewrite Hreq, Hlinks. by destruct (negb _).
Qed.

Lemma scrape_pages_continue fuel p st :
  continues html_parser http_get year p →
  ∃ st',
    scrape_pages (S fuel) year p st = scrape_pages fuel year (p + 1) st'
    ∧ all_accidents st'
      = all_accidents st ++ page_records html_parser http_get year p
    ∧ listing_pages (requested st') = listing_pages (requested st) ++ [p].
Proof.
  intros (html & Hreq & Hbody & Hlinks).
  cbn [scrape_pages]. cbn [all_accidents requested].
  unfold page_records. rewrite _make_request_served, Hreq, Hbody. cbn [negb].
  destruct (_parse_accident_list html_parser html) as [|url urls] eqn:Hl; [done|].
  eexists. split; [reflexivity|].
  destruct (foldl_scrape_accident
              (Run (all_accidents st) (requested st ++ [Listing p]))
              (url :: urls)) as [-> ->].
  cbn [all_accidents requested]. by rewrite listing_pages_app.
Qed.

Lemma scrape_pages_run (k : nat) : ∀ p st (fuel : nat),
  (∀ q, p ≤ q < p + Z.of_nat k → continues html_parser http_get year q) →
  not_found http_get year (p + Z.of_nat k)
  ∨ no_links html_parser http_get year (p + Z.of_nat k) →
  (k < fuel)%nat →
  ∃ st',
    scrape_pages fuel year p st = Some st'
    ∧ all_accidents st'
      = all_accidents st
        ++ flat_map (page_records html_parser http_get year) (seqZ p (Z.of_nat k))
    ∧ listing_pages (requested st')
      = listing_pages (requested st) ++ seqZ p (Z.of_nat k + 1).
Proof.
  induction k as [|k IH]; intros p st fuel Hcont Hstop Hfuel;
    (destruct fuel as [|fuel]; [lia|]).
  - rewrite Z.add_0_r in Hstop. rewrite (scrape_pages_stop _ _ _ Hstop).
    eexists. split; [reflexivity|]. cbn [all_accidents requested].
    rewrite listing_pages_app. by rewrite app_nil_r.
  - destruct (scrape_pages_continue fuel p st) as (st1 & -> & Hacc & Hreq).
    { apply Hcont. lia. }
    destruct (IH (p + 1) st1 fuel) as (st' & Hrun & Hacc' & Hreq').
    { intros q Hq. apply Hcont. lia. }
    { by replace (p + 1 + Z.of_nat k) with (p + Z.of_nat (S k)) by lia. }
    { lia. }
    exists st'. split; [done|].
    rewrite Hacc', Hreq', Hacc, Hreq.
    replace (Z.of_nat (S k)) with (Z.succ (Z.of_nat k)) by lia.
    rewrite (seqZ_cons p (Z.succ (Z.of_nat k))) by lia.
    rewrite (seqZ_cons p (Z.succ (Z.of_nat k) + 1)) by lia.
    replace (Z.pred (Z.succ (Z.of_nat k))) with (Z.of_nat k) by lia.
    replace (Z.pred (Z.succ (Z.of_nat k) + 1)) with (Z.of_nat k + 1) by lia.
    replace (Z.succ p) with (p + 1) by lia.
    cbn [flat_map]. by rewrite <-!app_assoc.
Qed.

End pagination.

(** C3.  In a run of [scrape_year], let page [n] be the first listing page
    whose fetch is answered 404 or whose parse has no detail link, all the
    pages before it being fetched with links.  With fuel for [n]
    iterations the run returns (no error is raised anywhere on the way);
    the listing pages it requested are 1, 2, ..., [n] in this order, each
    once; the records returned are those gathered from the pages before
    [n]. *)
Theorem scrape_year_pagination
    (html_parser : string → bs4.soup)
    (http_get : string → AviationSafetyScraper.response)
    (year n : Z) (fuel : nat) :
  1 ≤ n →
  (∀ p, 1 ≤ p < n → pagination.continues html_parser http_get year p) →
  pagination.not_found http_get year n
  ∨ pagination.no_links html_parser http_get year n →
  (Z.to_nat n ≤ fuel)%nat →
  ∃ st,
    AviationSafetyScraper.scrape_year html_parser http_get fuel year = Some st
    ∧ pagination.listing_pages (AviationSafetyScraper.requested st) = seqZ 1 n
    ∧ AviationSafetyScraper.all_accidents st
      = flat_map (pagination.page_records html_parser http_get year)
          (seqZ 1 (n - 1)).
Proof.
  intros Hn Hcont Hstop Hfuel.
  destruct (scrape_pages_run html_parser http_get year (Z.to_nat (n - 1)) 1
              (AviationSafetyScraper.Run [] []) fuel)
    as (st & Hrun & Hacc & Hreq).
  - intros q Hq. apply Hcont. lia.
  - by replace (1 + Z.of_nat (Z.to_nat (n - 1))) with n by lia.
  - lia.
  - exists st. split; [done|].
    rewrite Hreq, Hacc. cbn [AviationSafetyScraper.all_accidents
      AviationSafetyScraper.requested pagination.listing_pages omap list_omap app].
    by replace (Z.of_nat (Z.to_nat (n - 1)) + 1) with n by lia;
       replace (Z.of_nat (Z.to_nat (n - 1))) with (n - 1) by lia.
Qed.

(** ** Proofs: the merge of the extracted files *)

(** C9.  The merge takes a JSON array as one record per element, an
    object with a [cases] array as one record per element of that array,
    and any other object as a single record.  Hence two selected files, a
    list of 3 records and an object whose [cases] holds 5 records, merge
    into exactly 8 records, counted as 8. *)
Theorem merge_list_and_nested_collection :
  (∀ acc l,
     merge_extracted_json.merge_data acc (JArr l)
     = Ok (merge_extracted_json.Merged
             (merge_extracted_json.all_cases acc ++ l)
             (merge_extracted_json.total_records acc + Z.of_nat (length l))))
  ∧ (∀ acc d cases,
       Dict.get "cases" d = Some (JArr cases) →
       merge_extracted_json.merge_data acc (JObj d)
       = Ok (merge_extracted_json.Merged
               (merge_extracted_json.all_cases acc ++ cases)
               (merge_extracted_json.total_records acc
                + Z.of_nat (length cases))))
  ∧ (∀ acc d,
       Dict.get "cases" d = None →
       merge_extracted_json.merge_data acc (JObj d)
       = Ok (merge_extracted_json.Merged
               (merge_extracted_json.all_cases acc ++ [JObj d])
               (merge_extracted_json.total_records acc + 1)))
  ∧ (∀ name1 name2 records d cases,
       Py.endswith ".json" name1 && Str.contains "cases" name1 = true →
       Py.endswith ".json" name2 && Str.contains "cases" name2 = true →
       length records = 3%nat →
       Dict.get "cases" d = Some (JArr cases) →
       length cases = 5%nat →
       let merged :=
         merge_extracted_json.merge
           [(name1, Some (JArr records)); (name2, Some (JObj d))] in
       merge_extracted_json.all_cases merged = records ++ cases
       ∧ length (merge_extracted_json.all_cases merged) = 8%nat
       ∧ merge_extracted_json.total_records merged = 8).
Proof.
  split; [done|]. split; [|split].
  - intros acc d cases Hcases. unfold merge_extracted_json.merge_data, Dict.mem.
    rewrite Hcases, bool_decide_true by done.
    cbn [Py.subscript]. by rewrite Hcases.
  - intros acc d Hcases. unfold merge_extracted_json.merge_data, Dict.mem.
    rewrite Hcases, bool_decide_false; [done|]. by intros [? ?].
  - intros name1 name2 records d cases H1 H2 Hrecords Hcases Hlen.
    unfold merge_extracted_json.merge, merge_extracted_json.json_files.
    rewrite filter_cons_True by (cbn [fst]; by rewrite H1).
    rewrite filter_cons_True by (cbn [fst]; by rewrite H2).
    rewrite filter_nil. cbn [foldl merge_extracted_json.merge_file snd].
    cbn [merge_extracted_json.merge_data merge_extracted_json.all_cases
         merge_extracted_json.total_records app].
    unfold Dict.mem. rewrite Hcases, bool_decide_true by done.
    cbn [Py.subscript]. rewrite Hcases.
    cbn [mbind result_bind Py.iter merge_extracted_json.all_cases
         merge_extracted_json.total_records].
    rewrite length_app, Hrecords, Hlen. done.
Qed.

(** ** Proofs: the staging loader *)

Section staging.
Import load_staging staging.
Variable key_column : key_constraint.
Variable adapt_other : json → result (option string).

Abbreviation insert_or_ignore := (insert_or_ignore key_column).
Abbreviation execute_batch := (execute_batch key_column adapt_other).
Abbreviation in_turn := (staging.one_by_one key_column adapt_other).

Implicit Types (t : table) (r : row) (k : string).

Lemma existsb_has_key k t :
  existsb (has_key k) t = true ↔ Some k ∈ source_unique_id <$> t.
Proof.
  rewrite existsb_exists, list_elem_of_fmap. unfold has_key.
  split.
  - intros (r & Hin%list_elem_of_In & Hk%bool_decide_eq_true). by exists r.
  - intros (r & Hk & Hin). exists r.
    split; [by apply list_elem_of_In|by apply bool_decide_eq_true].
Qed.

(** A conflicting insert of a document the server takes leaves the table
    as it is. *)
Lemma insert_conflict t k raw :
  jsonb_accepts raw = true →
  existsb (has_key k) t = true →
  insert_or_ignore t (Row (Some k) raw) = Ok t.
Proof.
  intros Hraw Hk. unfold load_staging.insert_or_ignore.
  cbn [raw_json source_unique_id]. by rewrite Hraw, Hk.
Qed.

(** The cast comes first: a document the server refuses ends the insert,
    whatever its key. *)
Lemma insert_refused t r :
  jsonb_accepts (raw_json r) = false →
  insert_or_ignore t r = Raise DatabaseError.
Proof. intros Hraw. unfold load_staging.insert_or_ignore. by rewrite Hraw. Qed.

Lemma insert_accepted t r t' :
  insert_or_ignore t r = Ok t' → jsonb_accepts (raw_json r) = true.
Proof.
  unfold load_staging.insert_or_ignore.
  by destruct (jsonb_accepts (raw_json r)).
Qed.

(** An insert only ever appends. *)
Lemma insert_appends t r t' :
  insert_or_ignore t r = Ok t' → t' = t ∨ t' = t ++ [r].
Proof.
  unfold load_staging.insert_or_ignore.
  repeat case_match; intros; simplify_eq; auto.
Qed.

Lemma insert_keeps_present t r t' k :
  insert_or_ignore t r = Ok t' →
  existsb (has_key k) t = true → existsb (has_key k) t' = true.
Proof.
  intros [->| ->]%insert_appends Hk; [done|].
  rewrite existsb_app, Hk. done.
Qed.

Lemma insert_makes_present t k raw t' :
  insert_or_ignore t (Row (Some k) raw) = Ok t' →
  existsb (has_key k) t' = true.
Proof.
  unfold load_staging.insert_or_ignore. cbn [source_unique_id raw_json].
  destruct (jsonb_accepts raw); cbn [negb]; [|done].
  destruct (existsb (has_key k) t) eqn:Hk; intros [= <-]; [done|].
  rewrite existsb_app. cbn. unfold has_key. cbn.
  rewrite bool_decide_true by done. by rewrite orb_true_r.
Qed.


(** *** The statements taken one by one *)

Lemma foldl_raise {A B} (f : result A → B → result A) e l :
  (∀ x, f (Raise e) x = Raise e) → foldl f (Raise e) l = Raise e.
Proof. intros Hf. induction l as [|x l IH]; [done|]. cbn. by rewrite Hf. Qed.

Lemma adapt_string k :
  has_nul k = false → adapt adapt_other (JStr k) = Ok (Some k).
Proof. intros Hk. cbn [adapt]. by rewrite Hk. Qed.

Lemma adapt_string_ok k key :
  adapt adapt_other (JStr k) = Ok key → key = Some k ∧ has_nul k = false.
Proof. cbn [adapt]. destruct (has_nul k); [done|]. by intros [= <-]. Qed.

Lemma one_by_one_cons t source_id raw rows :
  in_turn t ((source_id, raw) :: rows)
  = (k ← adapt adapt_other source_id;
     t' ← insert_or_ignore t (Row k raw);
     in_turn t' rows).
Proof.
  unfold staging.one_by_one, mogrify.
  cbn [foldl mbind result_bind fst snd].
  destruct (adapt adapt_other source_id) as [k|e]; cbn [mbind result_bind];
    [|by apply foldl_raise].
  destruct (insert_or_ignore t (Row k raw)) as [t'|e];
    [done|by apply foldl_raise].
Qed.

Lemma one_by_one_app rows1 rows2 t :
  in_turn t (rows1 ++ rows2)
  = (t' ← in_turn t rows1; in_turn t' rows2).
Proof.
  unfold staging.one_by_one. rewrite foldl_app.
  destruct (foldl _ (Ok t) rows1) as [t'|e]; [done|].
  by apply foldl_raise.
Qed.

(** One turn of a batch that goes through. *)
Lemma one_by_one_step t source_id raw rows t' :
  in_turn t ((source_id, raw) :: rows) = Ok t' →
  ∃ key t1,
    adapt adapt_other source_id = Ok key
    ∧ insert_or_ignore t (Row key raw) = Ok t1
    ∧ in_turn t1 rows = Ok t'.
Proof.
  rewrite one_by_one_cons.
  destruct (adapt adapt_other source_id) as [key|]; [|done].
  cbn [mbind result_bind].
  destruct (insert_or_ignore t (Row key raw)) as [t1|] eqn:Hins; [|done].
  cbn [mbind result_bind]. intros Hrun. by exists key, t1.
Qed.

Lemma one_by_one_keeps_present rows : ∀ t t' k,
  in_turn t rows = Ok t' →
  existsb (has_key k) t = true → existsb (has_key k) t' = true.
Proof.
  induction rows as [|[source_id raw] rows IH]; intros t t' k.
  - by intros [= <-].
  - intros (key & t1 & _ & Hins & Hrun)%one_by_one_step Hk.
    eapply IH; [done|]. by eapply insert_keeps_present.
Qed.

Lemma one_by_one_makes_present rows : ∀ t t' k raw,
  in_turn t rows = Ok t' →
  (JStr k, raw) ∈ rows → existsb (has_key k) t' = true.
Proof.
  induction rows as [|[source_id raw0] rows IH]; intros t t' k raw.
  - by intros _ ?%elem_of_nil.
  - intros (key & t1 & Hadapt & Hins & Hrun)%one_by_one_step
      [Heq|Hin]%elem_of_cons.
    + simplify_eq. apply adapt_string_ok in Hadapt as [-> _].
      eapply one_by_one_keeps_present; [done|].
      by eapply insert_makes_present.
    + by eapply IH.
Qed.

(** Every row of a batch that goes through was taken by the driver and
    by the server. *)
Lemma one_by_one_taken rows : ∀ t t',
  in_turn t rows = Ok t' →
  Forall (λ x : json * json,
            (∀ k, x.1 = JStr k → has_nul k = false)
            ∧ jsonb_accepts x.2 = true) rows.
Proof.
  induction rows as [|[source_id raw] rows IH]; intros t t'; [constructor|].
  intros (key & t1 & Hadapt & Hins & Hrun)%one_by_one_step.
  constructor; [|by eapply IH]. cbn [fst snd]. split.
  - intros k ->. by apply adapt_string_ok in Hadapt as [_ ?].
  - by apply insert_accepted in Hins.
Qed.

(** A batch whose rows are taken and whose keys are strings already in
    the table changes nothing. *)
Lemma one_by_one_noop rows t :
  Forall (λ x : json * json,
            ∃ k, x.1 = JStr k ∧ has_nul k = false
                 ∧ jsonb_accepts x.2 = true
                 ∧ existsb (has_key k) t = true) rows →
  in_turn t rows = Ok t.
Proof.
  induction 1 as [|[source_id raw] rows (k & Hk & Hnul & Hraw & Hpresent) _ IH];
    [done|].
  cbn [fst snd] in *. subst source_id.
  rewrite one_by_one_cons, adapt_string by done. cbn [mbind result_bind].
  by rewrite insert_conflict.
Qed.


Lemma one_by_one_twice rows t t' :
  Forall (λ x : json * json, ∃ k, x.1 = JStr k) rows →
  in_turn t rows = Ok t' → in_turn t' rows = Ok t'.
Proof.
  intros Hkeys Hrun. apply one_by_one_noop.
  pose proof (one_by_one_taken _ _ _ Hrun) as Htaken.
  apply Forall_forall. intros [source_id raw] Hin.
  rewrite Forall_forall in Hkeys, Htaken.
  destruct (Hkeys _ Hin) as [k Hk], (Htaken _ Hin) as [Hnul Hraw].
  cbn [fst snd] in *. subst source_id.
  exists k. split_and!; [done|by apply Hnul|done|].
  by eapply one_by_one_makes_present.
Qed.

Lemma one_by_one_prefix rows : ∀ t t',
  in_turn t rows = Ok t' → t `prefix_of` t'.
Proof.
  induction rows as [|[source_id raw] rows IH]; intros t t'.
  - by intros [= <-].
  - intros (key & t1 & _ & Hins & Hrun)%one_by_one_step.
    apply IH in Hrun.
    apply insert_appends in Hins as [->| ->]; [done|].
    etrans; [|exact Hrun]. by apply prefix_app_r.
Qed.

Lemma one_by_one_origin rows : ∀ t t' r,
  in_turn t rows = Ok t' → r ∈ t' →
  r ∈ t ∨ ∃ source_id, (source_id, raw_json r) ∈ rows
                       ∧ adapt adapt_other source_id = Ok (source_unique_id r).
Proof.
  induction rows as [|[source_id raw] rows IH]; intros t t' r.
  - intros [= <-]. by left.
  - intros (key & t1 & Hadapt & Hins & Hrun)%one_by_one_step Hin.
    destruct (IH _ _ _ Hrun Hin) as [Hin1|(v & Hv & Hk)].
    + apply insert_appends in Hins as [->| ->]; [by left|].
      apply elem_of_app in Hin1 as [?| ->%list_elem_of_singleton]; [by left|].
      right. exists source_id. split; [left|done].
    + right. exists v. split; [by right|done].
Qed.

(** *** The pages of [execute_batch]

    A batch goes through page by page exactly when it goes through
    statement by statement, and with the same table: the pages only
    change which error comes first. *)

Lemma execute_page_raise e page :
  execute_page key_column adapt_other (Raise e) page = Raise e.
Proof. done. Qed.

Lemma execute_cons t r sqls :
  execute key_column t (r :: sqls)
  = (t' ← insert_or_ignore t r; execute key_column t' sqls).
Proof.
  unfold execute. cbn [foldl mbind result_bind].
  destruct (insert_or_ignore t r) as [t'|e]; [done|by apply foldl_raise].
Qed.

Lemma execute_page_ok page : ∀ t t',
  execute_page key_column adapt_other (Ok t) page = Ok t'
  ↔ in_turn t page = Ok t'.
Proof.
  induction page as [|[source_id raw] page IH]; intros t t'; [done|].
  rewrite one_by_one_cons.
  unfold execute_page. cbn [mbind result_bind Py.mapM].
  change (mogrify adapt_other (source_id, raw))
    with (k ← adapt adapt_other source_id; Ok (Row k raw)).
  destruct (adapt adapt_other source_id) as [key|e]; cbn [mbind result_bind];
    [|by split].
  destruct (Py.mapM (mogrify adapt_other) page) as [sqls|e] eqn:Hsqls;
    cbn [mbind result_bind].
  - rewrite execute_cons.
    destruct (insert_or_ignore t (Row key raw)) as [t1|e];
      cbn [mbind result_bind]; [|by split].
    rewrite <-IH. unfold execute_page. cbn [mbind result_bind].
    by rewrite Hsqls.
  - split; [done|].
    destruct (insert_or_ignore t (Row key raw)) as [t1|e'];
      cbn [mbind result_bind]; [|done].
    rewrite <-IH. unfold execute_page. cbn [mbind result_bind].
    by rewrite Hsqls.
Qed.

Lemma paginate_go_ok {A} fuel : ∀ (rows : list A) t t',
  (length rows ≤ fuel)%nat →
  ∀ (f : result table → list A → result table) (g : table → list A → result table),
    (∀ e page, f (Raise e) page = Raise e) →
    (∀ t page t', f (Ok t) page = Ok t' ↔ g t page = Ok t') →
    (∀ t rows1 rows2,
       g t (rows1 ++ rows2) = (t' ← g t rows1; g t' rows2)) →
    (∀ t, g t [] = Ok t) →
    foldl f (Ok t) (paginate_go fuel rows) = Ok t' ↔ g t rows = Ok t'.
Proof.
  induction fuel as [|fuel IH]; intros rows t t' Hlen f g Hraise Hpage Happ Hnil.
  { destruct rows; [|cbn in Hlen; lia]. cbn. by rewrite Hnil. }
  destruct rows as [|x rows]; [cbn; by rewrite Hnil|].
  cbn [paginate_go foldl].
  rewrite <-(take_drop page_size (x :: rows)) at 3. rewrite Happ.
  destruct (f (Ok t) (take page_size (x :: rows))) as [t1|e] eqn:Hfirst.
  - apply Hpage in Hfirst. rewrite Hfirst. cbn [mbind result_bind].
    apply IH; try done.
    rewrite length_drop. cbn [length] in *. unfold page_size. lia.
  - rewrite foldl_raise by done. split; [done|].
    destruct (g t (take page_size (x :: rows))) as [t1|e'] eqn:Hg;
      cbn [mbind result_bind]; [|done].
    apply Hpage in Hg. congruence.
Qed.

Lemma execute_batch_ok rows t t' :
  execute_batch t rows = Ok t' ↔ in_turn t rows = Ok t'.
Proof.
  unfold load_staging.execute_batch, _paginate.
  apply paginate_go_ok; [done|done| | |done].
  - intros t0 page t1. apply execute_page_ok.
  - intros t0 rows1 rows2. apply one_by_one_app.
Qed.

Lemma execute_batch_keeps_present rows t t' k :
  execute_batch t rows = Ok t' →
  existsb (has_key k) t = true → existsb (has_key k) t' = true.
Proof. rewrite execute_batch_ok. apply one_by_one_keeps_present. Qed.

(** After a batch every string key of the batch is in the table. *)
Lemma execute_batch_makes_present rows t t' k raw :
  execute_batch t rows = Ok t' →
  (JStr k, raw) ∈ rows → existsb (has_key k) t' = true.
Proof. rewrite execute_batch_ok. apply one_by_one_makes_present. Qed.

Lemma execute_batch_taken rows t t' :
  execute_batch t rows = Ok t' →
  Forall (λ x : json * json,
            (∀ k, x.1 = JStr k → has_nul k = false)
            ∧ jsonb_accepts x.2 = true) rows.
Proof. rewrite execute_batch_ok. apply one_by_one_taken. Qed.


(** Loading a batch of string keys a second time changes nothing. *)
Lemma execute_batch_twice rows t t' :
  Forall (λ x : json * json, ∃ k, x.1 = JStr k) rows →
  execute_batch t rows = Ok t' → execute_batch t' rows = Ok t'.
Proof. rewrite !execute_batch_ok. apply one_by_one_twice. Qed.

Lemma execute_batch_prefix rows t t' :
  execute_batch t rows = Ok t' → t `prefix_of` t'.
Proof. rewrite execute_batch_ok. apply one_by_one_prefix. Qed.

Lemma execute_batch_origin rows t t' r :
  execute_batch t rows = Ok t' → r ∈ t' →
  r ∈ t ∨ ∃ source_id, (source_id, raw_json r) ∈ rows
                       ∧ adapt adapt_other source_id = Ok (source_unique_id r).
Proof. rewrite execute_batch_ok. apply one_by_one_origin. Qed.

Lemma mapM_length {A B} (f : A → result B) l l' :
  Py.mapM f l = Ok l' → length l' = length l.
Proof.
  revert l'. induction l as [|x l IH]; intros l'; cbn [Py.mapM].
  - by intros [= <-].
  - destruct (f x) as [y|]; [|done]. cbn [mbind result_bind].
    destruct (Py.mapM f l) as [ys|]; [|done]. cbn [mbind result_bind].
    intros [= <-]. cbn [length]. by rewrite (IH ys).
Qed.

Lemma mapM_fmap {A B} (f : A → result B) (g : A → B) l :
  Forall (λ x, f x = Ok (g x)) l → Py.mapM f l = Ok (g <$> l).
Proof.
  induction 1 as [|x l Hx _ IH]; [done|].
  cbn [Py.mapM]. rewrite Hx, IH. done.
Qed.





Lemma load_source1_rows data w w' :
  load_source1_aviation key_column adapt_other data w = Ok w' →
  ∃ records rows t,
    (accidents ← Py.subscript data "accidents"; Py.iter accidents) = Ok records
    ∧ rows = (λ record,
                (JStr (source1_id record), record)) <$> records
    ∧ Forall (λ record, ∃ url, keyed "url" record url) records
    ∧ execute_batch (stg_source1_aviation_safety (tables w)) rows = Ok t
    ∧ w' = World (Db t (stg_source2_ntsb (tables w)) (stg_source3_csv (tables w)))
             (stdout w ++ [Loaded (length records) "stg_source1_aviation_safety"]).
Proof.
  unfold load_source1_aviation.
  destruct (Py.subscript data "accidents") as [accidents|]; [|done].
  cbn [mbind result_bind].
  destruct (Py.iter accidents) as [records|]; [|done].
  cbn [mbind result_bind].
  destruct (Py.mapM _ records) as [rows|] eqn:Hrows; [|done].
  cbn [mbind result_bind].
  destruct (load_staging.execute_batch _ _ _ rows) as [t|] eqn:Hbatch; [|done].
  cbn [mbind result_bind]. intros [= <-].
  assert (Forall (λ record, ∃ url, keyed "url" record url) records) as Hkeyed.
  { clear Hbatch. revert rows Hrows.
    induction records as [|record records IH]; intros rows; [constructor|].
    cbn [Py.mapM]. unfold keyed.
    destruct (Py.get record "url") as [[| | |url| |]|] eqn:Hget; try done.
    cbn [mbind result_bind Py.split_last].
    destruct (Py.mapM _ records) as [rows'|] eqn:Hrows'; [|done].
    intros _. constructor; [by exists url|]. by eapply IH. }
  eexists records, _, t. split; [done|]. split; [reflexivity|].
  split; [done|].
  assert (rows = (λ record,
                    (JStr (source1_id record), record)) <$> records) as <-.
  { erewrite mapM_fmap in Hrows; [by injection Hrows|].
    eapply Forall_impl; [exact Hkeyed|].
    intros record [url Hurl]. unfold keyed in Hurl. unfold source1_id.
    by rewrite Hurl. }
  split; [done|]. by rewrite (mapM_length _ _ _ Hrows).
Qed.

Lemma load_source2_rows data w w' :
  load_source2_ntsb key_column adapt_other data w = Ok w' →
  ∃ records rows t,
    Py.iter data = Ok records
    ∧ Py.mapM (λ record, source_id ← Py.get record "cm_ntsbNum";
                         Ok (source_id, record)) records = Ok rows
    ∧ execute_batch (stg_source2_ntsb (tables w)) rows = Ok t
    ∧ w' = World (Db (stg_source1_aviation_safety (tables w)) t
                    (stg_source3_csv (tables w)))
             (stdout w ++ [Loaded (length records) "stg_source2_ntsb"]).
Proof.
  unfold load_source2_ntsb.
  destruct (Py.iter data) as [records|]; [|done].
  cbn [mbind result_bind].
  destruct (Py.mapM _ records) as [rows|] eqn:Hrows; [|done].
  cbn [mbind result_bind].
  destruct (load_staging.execute_batch _ _ _ rows) as [t|] eqn:Hbatch; [|done].
  cbn [mbind result_bind]. intros [= <-].
  exists records, rows, t. repeat split; try done.
  by rewrite (mapM_length _ _ _ Hrows).
Qed.

Lemma mapM_source2_elem records rows record v :
  Py.mapM (λ record, source_id ← Py.get record "cm_ntsbNum";
                     Ok (source_id, record)) records = Ok rows →
  record ∈ records → Py.get record "cm_ntsbNum" = Ok v →
  (v, record) ∈ rows.
Proof.
  revert rows. induction records as [|r records IH]; intros rows.
  - by intros _ ?%elem_of_nil.
  - cbn [Py.mapM].
    destruct (Py.get r "cm_ntsbNum") as [v0|] eqn:Hv0; [|done].
    cbn [mbind result_bind].
    destruct (Py.mapM _ records) as [rows'|]; [|done].
    cbn [mbind result_bind]. intros [= <-] [->|Hin]%elem_of_cons Hv.
    + assert (v0 = v) as -> by congruence. left.
    + right. by eapply IH.
Qed.

Lemma mapM_source2_origin records rows v raw :
  Py.mapM (λ record, source_id ← Py.get record "cm_ntsbNum";
                     Ok (source_id, record)) records = Ok rows →
  (v, raw) ∈ rows → raw ∈ records ∧ Py.get raw "cm_ntsbNum" = Ok v.
Proof.
  revert rows. induction records as [|r records IH]; intros rows.
  - intros [= <-]. by intros ?%elem_of_nil.
  - cbn [Py.mapM].
    destruct (Py.get r "cm_ntsbNum") as [v0|] eqn:Hv0; [|done].
    cbn [mbind result_bind].
    destruct (Py.mapM _ records) as [rows'|]; [|done].
    cbn [mbind result_bind]. intros [= <-] [Heq|Hin]%elem_of_cons.
    + simplify_eq. split; [left|done].
    + destruct (IH _ eq_refl Hin). split; [by right|done].
Qed.

End staging.

(** C2, as the code has it.  The loader has no skip and no warning: a
    load that succeeds prints the single line [Loaded n] with [n] the
    number of records read, every record that carries a string key, the
    empty string included, has a row under exactly that key afterwards,
    and every new row holds a record of the input under the key extracted
    from it, never a made-up one. *)
Theorem staging_load_keeps_every_record
    (key_column : load_staging.key_constraint)
    (adapt_other : json → result (option string)) :
  (∀ data w w',
     load_staging.load_source2_ntsb key_column adapt_other data w = Ok w' →
     ∃ records,
       Py.iter data = Ok records
       ∧ load_staging.stdout w'
         = load_staging.stdout w
           ++ [load_staging.Loaded (length records) "stg_source2_ntsb"]
       ∧ (∀ record k,
            record ∈ records → staging.keyed "cm_ntsbNum" record k →
            existsb (load_staging.has_key k)
              (load_staging.stg_source2_ntsb (load_staging.tables w')) = true)
       ∧ (∀ r,
            r ∈ load_staging.stg_source2_ntsb (load_staging.tables w') →
            r ∈ load_staging.stg_source2_ntsb (load_staging.tables w)
            ∨ ∃ v, load_staging.raw_json r ∈ records
                   ∧ Py.get (load_staging.raw_json r) "cm_ntsbNum" = Ok v
                   ∧ load_staging.adapt adapt_other v
                     = Ok (load_staging.source_unique_id r)))
  ∧ (∀ data w w',
       load_staging.load_source1_aviation key_column adapt_other data w = Ok w' →
       ∃ records,
         (accidents ← Py.subscript data "accidents"; Py.iter accidents)
         = Ok records
         ∧ load_staging.stdout w'
           = load_staging.stdout w
             ++ [load_staging.Loaded (length records)
                   "stg_source1_aviation_safety"]
         ∧ (∀ record,
              record ∈ records →
              existsb (load_staging.has_key (staging.source1_id record))
                (load_staging.stg_source1_aviation_safety
                   (load_staging.tables w')) = true)
         ∧ (∀ r,
              r ∈ load_staging.stg_source1_aviation_safety
                    (load_staging.tables w') →
              r ∈ load_staging.stg_source1_aviation_safety
                    (load_staging.tables w)
              ∨ load_staging.raw_json r ∈ records
                ∧ load_staging.source_unique_id r
                  = Some (staging.source1_id (load_staging.raw_json r)))).
Proof.
  split.
  - intros data w w' Hload.
    destruct (load_source2_rows _ _ _ _ _ Hload)
      as (records & rows & t & Hrecords & Hrows & Hbatch & ->).
    exists records. split; [done|]. split; [done|].
    cbn [load_staging.tables load_staging.stg_source2_ntsb]. split.
    + intros record k Hin Hk.
      eapply execute_batch_makes_present; [done|].
      by eapply mapM_source2_elem.
    + intros r Hr.
      destruct (execute_batch_origin _ _ _ _ _ _ Hbatch Hr)
        as [?|(v & Hv & Hadapt)]; [by left|].
      right. exists v.
      destruct (mapM_source2_origin _ _ _ _ Hrows Hv). done.
  - intros data w w' Hload.
    destruct (load_source1_rows _ _ _ _ _ Hload)
      as (records & rows & t & Hrecords & -> & Hkeyed & Hbatch & ->).
    exists records. split; [done|]. split; [done|].
    cbn [load_staging.tables load_staging.stg_source1_aviation_safety].
    split.
    + intros record Hin.
      eapply execute_batch_makes_present; [done|].
      apply list_elem_of_fmap. by exists record.
    + intros r Hr.
      destruct (execute_batch_origin _ _ _ _ _ _ Hbatch Hr)
        as [?|(v & Hv & Hadapt)]; [by left|].
      right.
      apply list_elem_of_fmap in Hv as (record & [= -> ->] & Hin).
      by apply adapt_string_ok in Hadapt as [-> _].
Qed.

(** ** Proofs: the monthly downloads *)

Section download.
Import NTSBScraper windows.
Variable output_dir : string.
Variable http_post : nat → request → post_result.

Abbreviation download_month := (download_month output_dir http_post).
Abbreviation download_step := (download_step output_dir http_post).
Abbreviation download_year := (download_year output_dir http_post).
Abbreviation download_all := (download_all output_dir http_post).

Lemma create_payload_ok year month session_id :
  1 ≤ year ≤ 9999 → 1 ≤ month ≤ 12 →
  ∃ p, create_payload year month session_id = Ok p.
Proof.
  intros Hy Hm. unfold create_payload.
  rewrite (get_month_date_range_ok year month Hy Hm).
  by eexists.
Qed.

Lemma announced_app out1 out2 :
  announced (out1 ++ out2) = announced out1 ++ announced out2.
Proof. apply omap_app. Qed.

(** A call of [download_month] on a valid month returns, announces its
    file, and sends at most one request. *)
Lemma download_month_returns year month w :
  1 ≤ year ≤ 9999 → 1 ≤ month ≤ 12 →
  ∃ ok w',
    download_month year month w = Ok (ok, w')
    ∧ announced (stdout w')
      = announced (stdout w) ++ [month_filename year month].
Proof.
  intros Hy Hm. unfold NTSBScraper.download_month.
  destruct (create_payload_ok year month 227230 Hy Hm) as [p ->].
  cbn [mbind result_bind].
  repeat case_match; eexists _, _; (split; [reflexivity|]);
    cbn [print stdout]; rewrite ?announced_app; cbn [announced omap list_omap];
    by rewrite <-?app_assoc.
Qed.

Lemma foldl_download_step_raise year e months :
  foldl (download_step year) (Raise e) months = Raise e.
Proof. induction months as [|m months IH]; [done|]. exact IH. Qed.

Lemma foldl_download_step year months : ∀ c w,
  1 ≤ year ≤ 9999 → Forall (λ m, 1 ≤ m ≤ 12) months →
  ∃ c' w',
    foldl (download_step year) (Ok (c, w)) months = Ok (c', w')
    ∧ total c' = total c + Z.of_nat (length months)
    ∧ successful c' + failed c'
      = successful c + failed c + Z.of_nat (length months)
    ∧ announced (stdout w')
      = announced (stdout w) ++ (month_filename year <$> months).
Proof.
  intros c w Hy Hmonths. revert c w.
  induction Hmonths as [|m months Hm _ IH]; intros c w.
  - exists c, w. rewrite app_nil_r. cbn [length foldl]. split_and!; first [done|lia].
  - cbn [foldl]. unfold NTSBScraper.download_step at 2.
    cbn [mbind result_bind].
    destruct (download_month_returns year m w Hy Hm) as (ok & w1 & -> & Hann).
    cbn [mbind result_bind].
    destruct ok.
    + destruct (IH (Tally (total c + 1) (successful c + 1) (failed c)) w1)
        as (c' & w' & -> & Htotal & Hsum & Hann').
      exists c', w'. cbn [total successful failed length] in *.
      rewrite Hann', Hann, <-app_assoc. split_and!; first [done|lia].
    + destruct (IH (Tally (total c + 1) (successful c) (failed c + 1)) w1)
        as (c' & w' & -> & Htotal & Hsum & Hann').
      exists c', w'. cbn [total successful failed length] in *.
      rewrite Hann', Hann, <-app_assoc. split_and!; first [done|lia].
Qed.

Lemma foldl_download_year_raise cy cm e years :
  foldl (download_year cy cm) (Raise e) years = Raise e.
Proof. induction years as [|y years IH]; [done|]. exact IH. Qed.

Lemma foldl_download_year cy cm years : ∀ c w,
  1 ≤ cm ≤ 12 → Forall (λ y, 1 ≤ y ≤ 9999) years →
  ∃ c' w',
    foldl (download_year cy cm) (Ok (c, w)) years = Ok (c', w')
    ∧ announced (stdout w')
      = announced (stdout w)
        ++ (uncurry month_filename
              <$> (year ← years; month ← seqZ 1 (last_month cy cm year + 1 - 1);
                   [(year, month)]))
    ∧ total c'
      = total c
        + Z.of_nat (length (year ← years;
                            month ← seqZ 1 (last_month cy cm year + 1 - 1);
                            [(year, month)]))
    ∧ successful c' + failed c' - total c'
      = successful c + failed c - total c.
Proof.
  intros c w Hcm Hyears. revert c w.
  induction Hyears as [|y years Hy _ IH]; intros c w.
  - exists c, w. cbn. rewrite app_nil_r. split_and!; first [done|lia].
  - cbn [foldl]. unfold NTSBScraper.download_year at 2.
    cbn [mbind result_bind]. fold (last_month cy cm y).
    destruct (foldl_download_step y (seqZ 1 (last_month cy cm y + 1 - 1))
                c (print (YearHeader y) w))
      as (c1 & w1 & -> & Htotal & Hsum & Hann); [done|..].
    { apply Forall_forall. intros m Hin%elem_of_seqZ.
      unfold last_month in Hin. case_match; lia. }
    destruct (IH c1 w1) as (c' & w' & -> & Hann' & Htotal' & Hsum').
    exists c', w'. split; [done|].
    rewrite Hann', Hann. cbn [print stdout].
    rewrite announced_app. cbn [announced omap list_omap].
    rewrite app_nil_r, <-app_assoc.
    rewrite bind_cons, fmap_app, length_app.
    assert (∀ l : list Z, (l ≫= λ month, [(y, month)]) = (λ m, (y, m)) <$> l)
      as Hbind.
    { induction l as [|? ? IHl]; [done|]. rewrite bind_cons, IHl. done. }
    rewrite Hbind, <-list_fmap_compose, length_fmap.
    split_and!; first [done|lia].
Qed.

Lemma month_windows_bind start_year end_year cy cm :
  month_windows start_year end_year cy cm
  = (year ← seqZ start_year (end_year + 1 - start_year);
     month ← seqZ 1 (last_month cy cm year + 1 - 1);
     [(year, month)]).
Proof. reflexivity. Qed.

(** [download_all] on valid years handles every window of its two loops,
    whatever the answers of the service: no failure stops it. *)
Lemma download_all_windows start_year end_year cy cm w :
  1 ≤ start_year → end_year ≤ 9999 → 1 ≤ cm ≤ 12 →
  ∃ c w',
    download_all start_year end_year cy cm w = Ok (c, w')
    ∧ announced (stdout w')
      = announced (stdout w)
        ++ (uncurry month_filename
              <$> month_windows start_year end_year cy cm)
    ∧ total c = Z.of_nat (length (month_windows start_year end_year cy cm))
    ∧ successful c + failed c = total c.
Proof.
  intros Hstart Hend Hcm. unfold NTSBScraper.download_all.
  destruct (foldl_download_year cy cm
              (seqZ start_year (end_year + 1 - start_year)) (Tally 0 0 0) w)
    as (c & w' & -> & Hann & Htotal & Hsum); [done|..].
  { apply Forall_forall. intros y Hin%elem_of_seqZ. lia. }
  cbn [mbind result_bind]. exists c, (print (Summary (total c) (successful c) (failed c)) w').
  split; [done|]. cbn [print stdout].
  rewrite announced_app, Hann. cbn [announced omap list_omap].
  rewrite app_nil_r, month_windows_bind.
  cbn [total successful failed] in *. split_and!; first [done|lia].
Qed.

Lemma bind_ext_in {A B} (f g : A → list B) (l : list A) :
  (∀ x, x ∈ l → f x = g x) → l ≫= f = l ≫= g.
Proof.
  induction l as [|x l IH]; intros Hfg; [done|].
  rewrite !bind_cons, Hfg, IH; [done| |left].
  intros y Hy. apply Hfg. by right.
Qed.

Lemma bind_pairs (year : Z) (months : list Z) :
  (month ← months; [(year, month)]) = (λ month, (year, month)) <$> months.
Proof.
  induction months as [|m months IH]; [done|].
  by rewrite bind_cons, IH.
Qed.

Lemma filter_current_year cy cm (months : list Z) :
  filter (λ window : Z * Z, window.1 < cy ∨ (window.1 = cy ∧ window.2 ≤ cm))
    ((λ month, (cy, month)) <$> months)
  = (λ month, (cy, month)) <$> filter (λ month, month ≤ cm) months.
Proof.
  induction months as [|m months IH]; [done|].
  cbn [fmap list_fmap]. rewrite !filter_cons. cbn [fst snd].
  fold (fmap (M:=list) (λ month : Z, (cy, month))). rewrite IH.
  destruct (decide (m ≤ cm)).
  - rewrite decide_True by (right; done). done.
  - rewrite decide_False by lia. done.
Qed.

Lemma filter_earlier_year cy cm year (months : list Z) :
  year < cy →
  filter (λ window : Z * Z, window.1 < cy ∨ (window.1 = cy ∧ window.2 ≤ cm))
    ((λ month, (year, month)) <$> months)
  = (λ month, (year, month)) <$> months.
Proof.
  intros Hy. induction months as [|m months IH]; [done|].
  cbn [fmap list_fmap]. rewrite filter_cons. cbn [fst snd].
  rewrite decide_True by (left; done).
  fold (fmap (M:=list) (λ month : Z, (year, month))). by rewrite IH.
Qed.

Lemma filter_months cm :
  1 ≤ cm ≤ 12 → filter (λ month, month ≤ cm) (seqZ 1 12) = seqZ 1 cm.
Proof.
  intros Hcm.
  assert (cm = 1 ∨ cm = 2 ∨ cm = 3 ∨ cm = 4 ∨ cm = 5 ∨ cm = 6 ∨ cm = 7
          ∨ cm = 8 ∨ cm = 9 ∨ cm = 10 ∨ cm = 11 ∨ cm = 12) as Hcases by lia.
  destruct_or!; subst cm; by vm_compute.
Qed.

(** With an end year that is not after the current year, the two loops
    produce the windows the specification describes. *)
Lemma month_windows_described start_year end_year cy cm :
  end_year ≤ cy → 1 ≤ cm ≤ 12 →
  month_windows start_year end_year cy cm
  = described start_year end_year cy cm.
Proof.
  intros Hec Hcm. rewrite month_windows_bind. unfold described.
  assert (Forall (λ year, year ≤ cy)
            (seqZ start_year (end_year + 1 - start_year))) as Hyears.
  { apply Forall_forall. intros year Hy%elem_of_seqZ. lia. }
  induction Hyears as [|year years Hyear _ IH]; [done|].
  rewrite !bind_cons, filter_app, IH, !bind_pairs. f_equal.
  unfold last_month. destruct (Z.eqb_spec year cy) as [->|Hne].
  - rewrite filter_current_year, filter_months by done.
    by replace (cm + 1 - 1) with cm by lia.
  - by rewrite filter_earlier_year by lia.
Qed.

(** On a valid month without file, [download_month] sends the export
    request of that month. *)
Lemma download_month_sends year month :
  1 ≤ year ≤ 9999 → 1 ≤ month ≤ 12 →
  ∃ req, ∀ w,
    files w !! month_filepath output_dir year month = None →
    (∃ ok w',
       download_month year month w = Ok (ok, w')
       ∧ requests w' = requests w ++ [req])
    ∧ (failed_answer (http_post (length (requests w)) req) →
       ∃ message,
         download_month year month w
         = Ok (false,
               World (files w) (requests w ++ [req])
                 (stdout w ++ [Downloading (month_filename year month);
                               Failed message]))).
Proof.
  intros Hy Hm.
  destruct (create_payload_ok year month 227230 Hy Hm) as [p Hp].
  exists (Request base_url
            ("https://data.ntsb.gov/carol-main-public/query-builder?month="
             +:+ Str.of_int month +:+ "&year=" +:+ Str.of_int year) p).
  intros w Hnone.
  unfold NTSBScraper.download_month.
  rewrite bool_decide_false by (rewrite Hnone; by intros [? ?]).
  rewrite Hp. cbn [mbind result_bind]. unfold print. cbn [requests files stdout].
  match goal with
  | |- context [http_post ?n ?r] => destruct (http_post n r) as [code content|message]
  end.
  - destruct ((400 <=? code) && (code <? 600)) eqn:Hcode.
    + split; [by eexists _, _|]. intros _. eexists.
      by rewrite <-app_assoc.
    + split; [by eexists _, _|]. intros Hfail. exfalso.
      cbn [failed_answer] in Hfail.
      apply andb_false_iff in Hcode as [?%Z.leb_gt|?%Z.ltb_ge]; lia.
  - split; [by eexists _, _|]. intros _. exists message.
    by rewrite <-app_assoc.
Qed.

End download.

(** C5.  [download_month] returns at once, without a request, when the
    file of the month exists.  When the export request of a valid month
    fails (transport failure or error status), the call returns [False],
    creates no file, prints the failure, and a later call for the same
    month sends a request again.  [download_all] on valid years handles
    every window of its loops whatever fails: each call is counted and
    announced, none is skipped after a failure. *)
Theorem download_month_resumable
    (output_dir : string)
    (http_post : nat → NTSBScraper.request → NTSBScraper.post_result) :
  (∀ year month w,
     is_Some (NTSBScraper.files w
                !! NTSBScraper.month_filepath output_dir year month) →
     NTSBScraper.download_month output_dir http_post year month w
     = Ok (true,
           NTSBScraper.World (NTSBScraper.files w) (NTSBScraper.requests w)
             (NTSBScraper.stdout w
              ++ [NTSBScraper.AlreadyExists
                    (NTSBScraper.month_filename year month)])))
  ∧ (∀ year month w,
       1 ≤ year ≤ 9999 → 1 ≤ month ≤ 12 →
       NTSBScraper.files w
         !! NTSBScraper.month_filepath output_dir year month = None →
       (∀ req, windows.failed_answer
                 (http_post (length (NTSBScraper.requests w)) req)) →
       ∃ w' req message,
         NTSBScraper.download_month output_dir http_post year month w
         = Ok (false, w')
         ∧ NTSBScraper.files w' = NTSBScraper.files w
         ∧ NTSBScraper.requests w' = NTSBScraper.requests w ++ [req]
         ∧ NTSBScraper.stdout w'
           = NTSBScraper.stdout w
             ++ [NTSBScraper.Downloading (NTSBScraper.month_filename year month);
                 NTSBScraper.Failed message]
         ∧ ∃ ok w'',
             NTSBScraper.download_month output_dir http_post year month w'
             = Ok (ok, w'')
             ∧ NTSBScraper.requests w'' = NTSBScraper.requests w' ++ [req])
  ∧ (∀ start_year end_year cy cm w,
       1 ≤ start_year → end_year ≤ 9999 → 1 ≤ cm ≤ 12 →
       ∃ c w',
         NTSBScraper.download_all output_dir http_post
           start_year end_year cy cm w = Ok (c, w')
         ∧ NTSBScraper.announced (NTSBScraper.stdout w')
           = NTSBScraper.announced (NTSBScraper.stdout w)
             ++ (uncurry NTSBScraper.month_filename
                   <$> NTSBScraper.month_windows start_year end_year cy cm)
         ∧ NTSBScraper.total c
           = Z.of_nat (length (NTSBScraper.month_windows
                                 start_year end_year cy cm))
         ∧ NTSBScraper.successful c + NTSBScraper.failed c
           = NTSBScraper.total c).
Proof.
  split; [|split].
  - intros year month w Hexists. unfold NTSBScraper.download_month.
    by rewrite bool_decide_true.
  - intros year month w Hy Hm Hnone Hfail.
    destruct (download_month_sends output_dir http_post year month Hy Hm)
      as [req Hsends].
    destruct (Hsends w Hnone) as [_ Hfailed].
    destruct (Hfailed (Hfail req)) as [message Hrun].
    eexists _, req, message. split; [exact Hrun|].
    cbn [NTSBScraper.files NTSBScraper.requests NTSBScraper.stdout].
    split_and!; try done.
    by destruct (Hsends (NTSBScraper.World (NTSBScraper.files w)
                   (NTSBScraper.requests w ++ [req])
                   (NTSBScraper.stdout w
                    ++ [NTSBScraper.Downloading
                          (NTSBScraper.month_filename year month);
                        NTSBScraper.Failed message])) Hnone) as [? _].
  - intros start_year end_year cy cm w Hs He Hcm.
    by apply download_all_windows.
Qed.

(** C8.  Run in March 2025 for the years 2024 to 2026: the windows the
    specification describes end with March 2025, and [download_all] goes
    on after them with the twelve months of 2026, the cap on the month
    being applied to the current year only; 27 windows are requested and
    [ntsb_2026_12.zip] is among the files asked for. *)
Theorem download_all_months_after_current :
  windows.described 2024 2026 2025 3
  = ((λ month, (2024, month)) <$> seqZ 1 12)
    ++ [(2025, 1); (2025, 2); (2025, 3)]
  ∧ NTSBScraper.month_windows 2024 2026 2025 3
    = windows.described 2024 2026 2025 3
      ++ ((λ month, (2026, month)) <$> seqZ 1 12)
  ∧ ∃ c w',
      NTSBScraper.download_all "ntsb_data" windows.service_down
        2024 2026 2025 3 windows.empty_world = Ok (c, w')
      ∧ NTSBScraper.total c = 27
      ∧ ("ntsb_2025_03.zip" ∈ NTSBScraper.announced (NTSBScraper.stdout w'))
      ∧ ("ntsb_2026_12.zip" ∈ NTSBScraper.announced (NTSBScraper.stdout w')).
Proof.
  split; [by vm_compute|]. split; [by vm_compute|].
  eexists _, _. split; [vm_compute; reflexivity|].
  split; [reflexivity|].
  split; by apply (bool_decide_unpack _); vm_compute.
Qed.

(** ** The theorems at work on the small site *)

Lemma _extract_country_three_step_witness :
  AviationSafetyScraper._extract_country "Near CityX - CountryY" []
  = "CountryY".
Proof.
  destruct (_extract_country_three_step "Near CityX - CountryY" [])
    as (_ & Hdash & _).
  exact (Hdash eq_refl "Near CityX " " CountryY" eq_refl eq_refl).
Defined.

Lemma _parse_accident_detail_table_fields_witness :
  ∃ accident_data,
    AviationSafetyScraper._parse_accident_detail sample.html_parser
      "detail" sample.detail_url = Some accident_data
    ∧ Dict.get "date" accident_data = Some (JStr "Friday 1 January 2010")
    ∧ Dict.get "time" accident_data = Some JNull
    ∧ Dict.get "type" accident_data = Some (JStr "Boeing 737-800")
    ∧ Dict.get "fatalities" accident_data
      = Some (JStr "Fatalities: 2 / Occupants: 5")
    ∧ Dict.get "location" accident_data = Some (JStr "CountryY")
    ∧ Dict.get "registration" accident_data = None.
Proof.
  eexists. split; [vm_compute; reflexivity|].
  destruct (_parse_accident_detail_table_fields sample.html_parser
              "detail" sample.detail_url _ eq_refl)
    as (i & table & Htable & Hfields & _).
  vm_compute in Htable. injection Htable as <- <-.
  pose proof (Hfields labels.date) as Hdate.
  pose proof (Hfields labels.time) as Htime.
  pose proof (Hfields labels.type) as Htype.
  pose proof (Hfields labels.fatalities) as Hfatalities.
  pose proof (Hfields labels.location) as Hlocation.
  pose proof (Hfields labels.registration) as Hregistration.
  split; [exact Hdate|]. split; [exact Htime|]. split; [exact Htype|].
  split; [exact Hfatalities|]. split; [exact Hlocation|exact Hregistration].
Defined.

Lemma _parse_accident_detail_url_witness :
  ∃ accident_data,
    AviationSafetyScraper._parse_accident_detail sample.html_parser
      "detail" sample.detail_url = Some accident_data
    ∧ Dict.get "url" accident_data = Some (JStr sample.detail_url)
    ∧ staging.source1_id (JObj accident_data) = "1".
Proof.
  eexists. split; [vm_compute; reflexivity|].
  destruct (_parse_accident_detail_url sample.html_parser
              "detail" sample.detail_url _ eq_refl) as [Hurl Hkey].
  split; [exact Hurl|]. reflexivity.
Defined.

(** The two-page run: page 1 has two detail links, one parses and one is
    not found; page 2 is not found.  One record, and the run ends after
    page 2. *)
Lemma scrape_year_pagination_witness :
  ∃ st,
    AviationSafetyScraper.scrape_year sample.html_parser sample.http_get
      5 2010 = Some st
    ∧ pagination.listing_pages (AviationSafetyScraper.requested st) = [1; 2]
    ∧ length (AviationSafetyScraper.all_accidents st) = 1%nat.
Proof.
  destruct (scrape_year_pagination sample.html_parser sample.http_get
              2010 2 5) as (st & Hrun & Hpages & Hacc).
  - lia.
  - intros p Hp. assert (p = 1) as -> by lia.
    exists "listing". split; [reflexivity|]. split; [reflexivity|].
    vm_compute. discriminate.
  - left. exists EmptyString. reflexivity.
  - vm_compute. lia.
  - exists st. split; [exact Hrun|]. split; [exact Hpages|].
    rewrite Hacc. reflexivity.
Defined.

Lemma merge_list_and_nested_collection_witness :
  let merged :=
    merge_extracted_json.merge
      [("2010_01_cases.json", Some (JArr [JNum 1; JNum 2; JNum 3]));
       ("2010_02_cases.json",
        Some (JObj [("cases", JArr [JNum 4; JNum 5; JNum 6; JNum 7; JNum 8])]))] in
  length (merge_extracted_json.all_cases merged) = 8%nat
  ∧ merge_extracted_json.total_records merged = 8.
Proof.
  destruct merge_list_and_nested_collection as (_ & _ & _ & Hmerge).
  destruct (Hmerge "2010_01_cases.json" "2010_02_cases.json"
              [JNum 1; JNum 2; JNum 3]
              [("cases", JArr [JNum 4; JNum 5; JNum 6; JNum 7; JNum 8])]
              [JNum 4; JNum 5; JNum 6; JNum 7; JNum 8]
              eq_refl eq_refl eq_refl eq_refl eq_refl) as (_ & Hlen & Htotal).
  split; [exact Hlen|exact Htotal].
Defined.


Lemma staging_load_keeps_every_record_witness :
  ∃ w',
    load_staging.load_source2_ntsb load_staging.PRIMARY_KEY
      staging.refuse_other (JArr [sample.unkeyed_case]) sample.empty_world
    = Ok w'
    ∧ load_staging.stdout w' = [load_staging.Loaded 1 "stg_source2_ntsb"]
    ∧ existsb (load_staging.has_key EmptyString)
        (load_staging.stg_source2_ntsb (load_staging.tables w')) = true.
Proof.
  eexists. split; [vm_compute; reflexivity|].
  destruct (staging_load_keeps_every_record load_staging.PRIMARY_KEY
              staging.refuse_other) as [Hsource2 _].
  destruct (Hsource2 (JArr [sample.unkeyed_case]) sample.empty_world _ eq_refl)
    as (records & Hrecords & Hout & Hpresent & _).
  injection Hrecords as <-.
  split; [exact Hout|].
  apply (Hpresent sample.unkeyed_case EmptyString); [left|reflexivity].
Defined.

Lemma download_month_resumable_witness :
  ∃ w' req message,
    NTSBScraper.download_month "ntsb_data" windows.service_recovers
      2024 2 windows.empty_world = Ok (false, w')
    ∧ NTSBScraper.files w' = ∅
    ∧ NTSBScraper.stdout w'
      = [NTSBScraper.Downloading "ntsb_2024_02.zip";
         NTSBScraper.Failed message]
    ∧ ∃ ok w'',
        NTSBScraper.download_month "ntsb_data" windows.service_recovers
          2024 2 w' = Ok (ok, w'')
        ∧ NTSBScraper.requests w'' = [req; req].
Proof.
  destruct (download_month_resumable "ntsb_data" windows.service_recovers)
    as (_ & Hfailed & _).
  destruct (Hfailed 2024 2 windows.empty_world)
    as (w' & req & message & Hrun & Hfiles & Hreq & Hout & ok & w'' & Hagain & Hreq').
  - lia.
  - lia.
  - reflexivity.
  - intros req. exact I.
  - exists w', req, message. split; [exact Hrun|]. split; [exact Hfiles|].
    split; [exact Hout|]. exists ok, w''. split; [exact Hagain|].
    rewrite Hreq', Hreq. reflexivity.
Defined.


(** ** Where the code departs from the specification *)


(** A record of source 2 whose case number is empty is inserted under the
    empty key, whatever the key constraint, and one without case number
    is inserted under a null key when the column is only unique; the only
    line printed is the count of rows, no warning. *)
Lemma load_source2_ntsb_inserts_unkeyed_record :
  load_staging.load_source2_ntsb load_staging.PRIMARY_KEY staging.refuse_other
    (JArr [sample.unkeyed_case]) sample.empty_world
  = Ok (load_staging.World
          (load_staging.Db []
             [load_staging.Row (Some EmptyString) sample.unkeyed_case] [])
          [load_staging.Loaded 1 "stg_source2_ntsb"])
  ∧ load_staging.load_source2_ntsb load_staging.UNIQUE staging.refuse_other
      (JArr [sample.keyless_case]) sample.empty_world
    = Ok (load_staging.World
            (load_staging.Db []
               [load_staging.Row None sample.keyless_case] [])
            [load_staging.Loaded 1 "stg_source2_ntsb"])
  ∧ ¬ staging.skips_unkeyed load_staging.PRIMARY_KEY staging.refuse_other
  ∧ ¬ staging.skips_unkeyed load_staging.UNIQUE staging.refuse_other.
Proof.
  split; [reflexivity|]. split; [reflexivity|].
  split.
  - intros Hskips.
    destruct (Hskips (JArr [sample.unkeyed_case]) sample.empty_world _ eq_refl
                (load_staging.Row (Some EmptyString) sample.unkeyed_case))
      as [Hold|(k & Hk & Hne)].
    + left.
    + by apply elem_of_nil in Hold.
    + cbn in Hk. congruence.
  - intros Hskips.
    destruct (Hskips (JArr [sample.keyless_case]) sample.empty_world _ eq_refl
                (load_staging.Row None sample.keyless_case))
      as [Hold|(k & Hk & Hne)].
    + left.
    + by apply elem_of_nil in Hold.
    + cbn in Hk. congruence.
Qed.


(** * Further properties *)

(** ** The listing-source scraper *)

Ltac by_compute := refine (bool_decide_unpack _ _); vm_compute; exact I.

Section scraper_more.
Import AviationSafetyScraper pagination extra.
Variable html_parser : string → bs4.soup.
Variable http_get : string → response.

Lemma keys_set {V} (k : string) (v : V) (d : list (string * V)) :
  Dict.keys (Dict.set k v d)
  = if decide (k ∈ Dict.keys d) then Dict.keys d else Dict.keys d ++ [k].
Proof.
  unfold Dict.keys. induction d as [|[k' v'] d IH]; cbn [Dict.set]; [done|].
  destruct (decide (k' = k)) as [->|Hne]; cbn [fmap list_fmap fst].
  - rewrite decide_True by left. done.
  - fold (fmap (M:=list) (@fst string V)). rewrite IH.
    destruct (decide (k ∈ d.*1)) as [Hin|Hnin].
    + rewrite decide_True by (by right). done.
    + rewrite decide_False; [done|].
      intros [?|?]%elem_of_cons; [congruence|done].
Qed.

Lemma set_well_keyed k v (d : record) :
  k ∈ known_keys → well_keyed d → well_keyed (Dict.set k v d).
Proof.
  intros Hk (Hnd & Hhead & Hall). unfold well_keyed. rewrite keys_set.
  destruct (decide (k ∈ Dict.keys d)) as [Hin|Hnin]; [done|].
  split_and!.
  - apply NoDup_app. split_and!; [done| |apply NoDup_singleton].
    intros x Hx ->%list_elem_of_singleton. done.
  - destruct (Dict.keys d); [done|exact Hhead].
  - apply Forall_app. split; [done|]. by constructor.
Qed.

Lemma key_known f : labels.key f ∈ known_keys.
Proof.
  unfold known_keys. right. apply elem_of_app. left.
  apply list_elem_of_fmap. exists f. split; [done|].
  destruct f; set_solver.
Qed.

Lemma foldl_assign_row_well_keyed soup rows d :
  well_keyed d → well_keyed (foldl (labels.assign_row soup) d rows).
Proof.
  revert d. induction rows as [|row rows IH]; intros d Hd; [done|].
  cbn [foldl]. apply IH. unfold labels.assign_row.
  destruct (labels.row_label row) as [[f cell]|]; [|done].
  apply set_well_keyed; [apply key_known|done].
Qed.

Lemma parse_detail_url html url accident_data :
  _parse_accident_detail html_parser html url = Some accident_data →
  Dict.get "url" accident_data = Some (JStr url).
Proof.
  unfold _parse_accident_detail.
  destruct (bs4.soup_find "table" bs4.any (html_parser html))
    as [[i table]|]; [|done].
  intros [= <-].
  rewrite parse_sources_get, parse_narrative_get by done.
  rewrite foldl_parse_row, foldl_assign_row_other; [done|apply key_not_url].
Qed.

Lemma scrape_accident_urls st url :
  let st' := scrape_accident html_parser http_get st url in
  detail_urls (requested st') = detail_urls (requested st) ++ [url]
  ∧ (omap url_of (all_accidents st') = omap url_of (all_accidents st)
     ∨ omap url_of (all_accidents st')
       = omap url_of (all_accidents st) ++ [url])
  ∧ (Forall (λ r, is_Some (url_of r)) (all_accidents st) →
     Forall (λ r, is_Some (url_of r)) (all_accidents st')).
Proof.
  unfold scrape_accident, detail_urls. cbv zeta.
  destruct (_make_request http_get url) as [html|];
    [destruct (Str.truthy html);
       [destruct (_parse_accident_detail html_parser html url)
          as [[|x d]|] eqn:Hp|]|];
    cbn [requested all_accidents]; rewrite omap_app; cbn [omap list_omap];
    try (split_and!; [done|by left|done]).
  apply parse_detail_url in Hp.
  assert (url_of (JObj (x :: d)) = Some url) as Hurl
    by (unfold url_of; by rewrite Hp).
  split_and!; [done| |].
  - right. rewrite omap_app. cbn [omap list_omap]. by rewrite Hurl.
  - intros Hall. apply Forall_app. split; [done|].
    constructor; [by rewrite Hurl|constructor].
Qed.

Lemma foldl_scrape_accident_urls urls : ∀ st,
  let st' := foldl (scrape_accident html_parser http_get) st urls in
  detail_urls (requested st') = detail_urls (requested st) ++ urls
  ∧ (∃ got, omap url_of (all_accidents st')
            = omap url_of (all_accidents st) ++ got
            ∧ got `sublist_of` urls)
  ∧ (Forall (λ r, is_Some (url_of r)) (all_accidents st) →
     Forall (λ r, is_Some (url_of r)) (all_accidents st')).
Proof.
  induction urls as [|url urls IH]; intros st; cbn [foldl].
  - rewrite app_nil_r. split_and!; [done| |done].
    exists []. by rewrite app_nil_r.
  - destruct (IH (scrape_accident html_parser http_get st url))
      as (Hreq & (got & Hgot & Hsub) & Hall).
    destruct (scrape_accident_urls st url) as (Hreq1 & Hgot1 & Hall1).
    cbv zeta in *. split_and!.
    + by rewrite Hreq, Hreq1, <-app_assoc.
    + destruct Hgot1 as [Hsame|Hmore].
      * exists got. split; [by rewrite Hgot, Hsame|]. by apply sublist_cons.
      * exists (url :: got). split; [by rewrite Hgot, Hmore, <-app_assoc|].
        by apply sublist_skip.
    + auto.
Qed.

Lemma parse_accident_list_links html :
  Forall accident_link (_parse_accident_list html_parser html)
  ∧ (length (_parse_accident_list html_parser html)
     ≤ length (bs4.soup_find_all "tr" (bs4.has_class "list")
                 (html_parser html)))%nat.
Proof.
  unfold _parse_accident_list.
  induction (bs4.soup_find_all "tr" (bs4.has_class "list") (html_parser html))
    as [|row rows [IHl IHn]]; cbn [flat_map length]; [by split|].
  destruct (bs4.find "a" (bs4.has_attr "href") row) as [link|];
    cbn [app]; [|split; [done|lia]].
  destruct (Str.contains "/wikibase/" _) eqn:Hc; cbn [app length];
    [|split; [done|lia]].
  split; [|lia]. constructor; [|done]. by eexists.
Qed.

Lemma detail_urls_listing requested p :
  detail_urls (requested ++ [Listing p]) = detail_urls requested.
Proof. unfold detail_urls. rewrite omap_app. cbn. by rewrite app_nil_r. Qed.

Lemma run_invariant_page st p html :
  run_invariant st →
  run_invariant
    (foldl (scrape_accident html_parser http_get)
       (Run (all_accidents st) (requested st ++ [Listing p]))
       (_parse_accident_list html_parser html)).
Proof.
  intros (Hurls & Hsub & Hlinks).
  destruct (foldl_scrape_accident_urls (_parse_accident_list html_parser html)
              (Run (all_accidents st) (requested st ++ [Listing p])))
    as (Hreq & (got & Hgot & Hgotsub) & Hall).
  cbv zeta in *. cbn [all_accidents requested] in *.
  rewrite detail_urls_listing in Hreq.
  unfold run_invariant. rewrite Hreq, Hgot. split_and!.
  - auto.
  - by apply sublist_app.
  - apply Forall_app. split; [done|]. apply parse_accident_list_links.
Qed.

Lemma scrape_pages_returns year fuel : ∀ p st st',
  scrape_pages html_parser http_get fuel year p st = Some st' →
  ∃ k : nat,
    (k < fuel)%nat
    ∧ (∀ q, p ≤ q < p + Z.of_nat k → continues html_parser http_get year q)
    ∧ ¬ continues html_parser http_get year (p + Z.of_nat k)
    ∧ all_accidents st'
      = all_accidents st
        ++ flat_map (page_records html_parser http_get year)
             (seqZ p (Z.of_nat k))
    ∧ listing_pages (requested st')
      = listing_pages (requested st) ++ seqZ p (Z.of_nat k + 1)
    ∧ (run_invariant st → run_invariant st').
Proof.
  induction fuel as [|fuel IH]; intros p st st' Hrun; [done|].
  cbn [scrape_pages] in Hrun. cbn [all_accidents requested] in Hrun.
  assert (∀ st0,
            st0 = Run (all_accidents st) (requested st ++ [Listing p]) →
            ¬ continues html_parser http_get year p →
            st' = st0 →
            ∃ k : nat,
              (k < S fuel)%nat
              ∧ (∀ q, p ≤ q < p + Z.of_nat k
                      → continues html_parser http_get year q)
              ∧ ¬ continues html_parser http_get year (p + Z.of_nat k)
              ∧ all_accidents st'
                = all_accidents st
                  ++ flat_map (page_records html_parser http_get year)
                       (seqZ p (Z.of_nat k))
              ∧ listing_pages (requested st')
                = listing_pages (requested st) ++ seqZ p (Z.of_nat k + 1)
              ∧ (run_invariant st → run_invariant st')) as Hstop.
  { intros st0 -> Hnot ->. exists 0%nat. rewrite Z.add_0_r.
    split_and!; [lia|intros q; lia|done| | |].
    - cbn. by rewrite app_nil_r.
    - cbn [requested]. by rewrite listing_pages_app.
    - intros (Hurls & Hsub & Hlinks). unfold run_invariant.
      cbn [all_accidents requested]. by rewrite detail_urls_listing. }
  rewrite _make_request_served in Hrun.
  destruct (served http_get (page_url year p)) as [html|] eqn:Hreq.
  2:{ eapply Hstop; [done| |congruence].
      intros (h & Hh & _). congruence. }
  destruct (Str.truthy html) eqn:Htruthy; cbn [negb] in Hrun.
  2:{ eapply Hstop; [done| |congruence].
      intros (h & Hh & Ht & _). congruence. }
  destruct (_parse_accident_list html_parser html) as [|u us] eqn:Hlinks.
  { eapply Hstop; [done| |congruence].
    intros (h & Hh & _ & Hne). congruence. }
  clear Hstop. rewrite <-Hlinks in Hrun.
  destruct (IH _ _ _ Hrun) as (k & Hk & Hcont & Hnot & Hacc & Hpages & Hinv).
  exists (S k).
  replace (p + Z.of_nat (S k)) with (p + 1 + Z.of_nat k) by lia.
  assert (continues html_parser http_get year p) as Hp.
  { exists html. rewrite Hlinks. by split_and!. }
  destruct (foldl_scrape_accident html_parser http_get
              (Run (all_accidents st) (requested st ++ [Listing p]))
              (_parse_accident_list html_parser html)) as [Hacc1 Hpages1].
  cbn [all_accidents requested] in Hacc1, Hpages1.
  split_and!; [lia| |done| | |].
  - intros q Hq. destruct (decide (q = p)) as [->|]; [done|]. apply Hcont. lia.
  - rewrite Hacc, Hacc1.
    replace (Z.of_nat (S k)) with (Z.succ (Z.of_nat k)) by lia.
    rewrite (seqZ_cons p (Z.succ (Z.of_nat k))) by lia.
    replace (Z.pred (Z.succ (Z.of_nat k))) with (Z.of_nat k) by lia.
    replace (Z.succ p) with (p + 1) by lia.
    cbn [flat_map]. unfold page_records at 2. rewrite Hreq.
    by rewrite <-app_assoc.
  - rewrite Hpages, Hpages1, listing_pages_app.
    replace (Z.of_nat (S k) + 1) with (Z.succ (Z.of_nat k + 1)) by lia.
    rewrite (seqZ_cons p (Z.succ (Z.of_nat k + 1))) by lia.
    replace (Z.pred (Z.succ (Z.of_nat k + 1))) with (Z.of_nat k + 1) by lia.
    replace (Z.succ p) with (p + 1) by lia.
    by rewrite <-app_assoc.
  - intros Hst. apply Hinv. by apply run_invariant_page.
Qed.

Lemma scrape_pages_endless year fuel : ∀ p st,
  (∀ q, p ≤ q → continues html_parser http_get year q) →
  scrape_pages html_parser http_get fuel year p st = None.
Proof.
  induction fuel as [|fuel IH]; intros p st Hall; [done|].
  destruct (scrape_pages_continue html_parser http_get year fuel p st)
    as (st1 & -> & _); [apply Hall; lia|].
  apply IH. intros q Hq. apply Hall. lia.
Qed.

End scraper_more.

(** X1.  Whenever [scrape_year] returns, it has requested the listing
    pages 1, 2, ..., [n] in this order for some [n], every page before [n]
    was fetched with detail links, page [n] was not (failed fetch, empty
    body or no link), and the records are those of the pages before [n]. *)
Theorem scrape_year_returns_at_first_stop
    (html_parser : string → bs4.soup)
    (http_get : string → AviationSafetyScraper.response)
    (fuel : nat) (year : Z) (st : AviationSafetyScraper.run) :
  AviationSafetyScraper.scrape_year html_parser http_get fuel year = Some st →
  ∃ n,
    1 ≤ n ≤ Z.of_nat fuel
    ∧ pagination.listing_pages (AviationSafetyScraper.requested st) = seqZ 1 n
    ∧ (∀ p, 1 ≤ p < n → pagination.continues html_parser http_get year p)
    ∧ ¬ pagination.continues html_parser http_get year n
    ∧ AviationSafetyScraper.all_accidents st
      = flat_map (pagination.page_records html_parser http_get year)
          (seqZ 1 (n - 1)).
Proof.
  intros Hrun.
  destruct (scrape_pages_returns html_parser http_get year fuel 1 _ _ Hrun)
    as (k & Hk & Hcont & Hnot & Hacc & Hpages & _).
  exists (1 + Z.of_nat k). split_and!; [lia|lia| | |done|].
  - rewrite Hpages. cbn [AviationSafetyScraper.requested].
    by replace (Z.of_nat k + 1) with (1 + Z.of_nat k) by lia.
  - intros p Hp. apply Hcont. lia.
  - rewrite Hacc. cbn [AviationSafetyScraper.all_accidents app].
    by replace (1 + Z.of_nat k - 1) with (Z.of_nat k) by lia.
Qed.

Lemma scrape_year_returns_at_first_stop_witness :
  ∃ st n,
    AviationSafetyScraper.scrape_year sample.html_parser sample.http_get
      5 2010 = Some st
    ∧ pagination.listing_pages (AviationSafetyScraper.requested st) = seqZ 1 n
    ∧ ¬ pagination.continues sample.html_parser sample.http_get 2010 n.
Proof.
  eexists.
  destruct (scrape_year_returns_at_first_stop sample.html_parser
              sample.http_get 5 2010 _ eq_refl)
    as (n & _ & Hpages & _ & Hnot & _).
  exists n. split; [reflexivity|]. split; [exact Hpages|exact Hnot].
Defined.

(** X2.  [scrape_year] has no bound on the page number: on a site where
    every listing page has detail links the loop never reaches a
    [break], however many iterations it is given. *)
Theorem scrape_year_endless
    (html_parser : string → bs4.soup)
    (http_get : string → AviationSafetyScraper.response)
    (year : Z) :
  (∀ p, 1 ≤ p → pagination.continues html_parser http_get year p) →
  ∀ fuel,
    AviationSafetyScraper.scrape_year html_parser http_get fuel year = None.
Proof. intros Hall fuel. by apply scrape_pages_endless. Qed.

Lemma scrape_year_endless_witness :
  AviationSafetyScraper.scrape_year sample.html_parser extra.endless_site
    3 2010 = None.
Proof.
  apply (scrape_year_endless sample.html_parser extra.endless_site 2010).
  intros p _. exists "listing". split; [reflexivity|].
  split; [reflexivity|]. vm_compute. discriminate.
Defined.

(** X3.  In every run of [scrape_year] that returns, each record holds
    the URL of a detail page, the URLs of the records are among the
    detail pages requested and in the order of the requests (so there are
    at most as many records as detail requests), and every detail page
    requested is the site followed by a listing link that holds
    [/wikibase/]. *)
Theorem scrape_year_records_follow_requests
    (html_parser : string → bs4.soup)
    (http_get : string → AviationSafetyScraper.response)
    (fuel : nat) (year : Z) (st : AviationSafetyScraper.run) :
  AviationSafetyScraper.scrape_year html_parser http_get fuel year = Some st →
  Forall (λ r, is_Some (extra.url_of r)) (AviationSafetyScraper.all_accidents st)
  ∧ omap extra.url_of (AviationSafetyScraper.all_accidents st)
    `sublist_of` extra.detail_urls (AviationSafetyScraper.requested st)
  ∧ (length (AviationSafetyScraper.all_accidents st)
     ≤ length (extra.detail_urls (AviationSafetyScraper.requested st)))%nat
  ∧ Forall extra.accident_link
      (extra.detail_urls (AviationSafetyScraper.requested st)).
Proof.
  intros Hrun.
  destruct (scrape_pages_returns html_parser http_get year fuel 1 _ _ Hrun)
    as (k & _ & _ & _ & _ & _ & Hinv).
  destruct Hinv as (Hurls & Hsub & Hlinks).
  { unfold extra.run_invariant. cbn. split_and!; constructor. }
  split_and!; [done|done| |done].
  apply sublist_length in Hsub.
  assert (length (omap extra.url_of (AviationSafetyScraper.all_accidents st))
          = length (AviationSafetyScraper.all_accidents st)) as <-; [|done].
  clear -Hurls. induction Hurls as [|r rs [u Hu] _ IH]; [done|].
  cbn [omap list_omap]. rewrite Hu. cbn [length]. by f_equal.
Qed.

Lemma scrape_year_records_follow_requests_witness :
  ∃ st,
    AviationSafetyScraper.scrape_year sample.html_parser sample.http_get
      5 2010 = Some st
    ∧ omap extra.url_of (AviationSafetyScraper.all_accidents st)
      `sublist_of` extra.detail_urls (AviationSafetyScraper.requested st).
Proof.
  eexists. split; [reflexivity|].
  by destruct (scrape_year_records_follow_requests sample.html_parser
                 sample.http_get 5 2010 _ eq_refl) as (_ & Hsub & _).
Defined.

Section parser_more.
Import AviationSafetyScraper extra.
Variable html_parser : string → bs4.soup.

Lemma known_keys_NoDup : NoDup known_keys.
Proof. by_compute. Qed.

Lemma parse_narrative_well_keyed soup d :
  well_keyed d → well_keyed (parse_narrative soup d).
Proof.
  intros Hd. unfold parse_narrative.
  repeat case_match; try done; apply set_well_keyed; try done;
    by_compute.
Qed.

Lemma parse_sources_well_keyed soup d :
  well_keyed d → well_keyed (parse_sources soup d).
Proof.
  intros Hd. unfold parse_sources.
  repeat case_match; try done; apply set_well_keyed; try done;
    by_compute.
Qed.

Lemma parse_detail_well_keyed html url d :
  _parse_accident_detail html_parser html url = Some d → well_keyed d.
Proof.
  unfold _parse_accident_detail.
  destruct (bs4.soup_find "table" bs4.any (html_parser html))
    as [[i table]|]; [|done].
  intros [= <-].
  apply parse_sources_well_keyed, parse_narrative_well_keyed.
  rewrite foldl_parse_row. apply foldl_assign_row_well_keyed.
  split_and!; [apply NoDup_singleton|done|].
  constructor; [|constructor]. by_compute.
Qed.

End parser_more.

(** X4.  The links [_parse_accident_list] returns are the site followed
    by a target that holds [/wikibase/], and a listing row gives at most
    one link. *)
Theorem _parse_accident_list_links
    (html_parser : string → bs4.soup) (html : string) :
  Forall extra.accident_link
    (AviationSafetyScraper._parse_accident_list html_parser html)
  ∧ (length (AviationSafetyScraper._parse_accident_list html_parser html)
     ≤ length (bs4.soup_find_all "tr" (bs4.has_class "list")
                 (html_parser html)))%nat.
Proof. apply parse_accident_list_links. Qed.

(** X5.  The keys of a record returned by [_parse_accident_detail] are
    distinct, [url] comes first, each key is [url], one of the fifteen
    table fields, [narrative] or [sources], and so a record has at most
    eighteen entries. *)
Theorem _parse_accident_detail_keys
    (html_parser : string → bs4.soup) (html url : string)
    (accident_data : AviationSafetyScraper.record) :
  AviationSafetyScraper._parse_accident_detail html_parser html url
  = Some accident_data →
  NoDup (Dict.keys accident_data)
  ∧ head (Dict.keys accident_data) = Some "url"
  ∧ Forall (λ k, k ∈ extra.known_keys) (Dict.keys accident_data)
  ∧ (length accident_data ≤ 18)%nat.
Proof.
  intros Hd. destruct (parse_detail_well_keyed _ _ _ _ Hd)
    as (Hnd & Hhead & Hall).
  split_and!; [done|done|done|].
  assert (Dict.keys accident_data ⊆+ extra.known_keys) as Hsub.
  { apply NoDup_submseteq; [done|]. by apply Forall_forall. }
  apply submseteq_length in Hsub. unfold Dict.keys in Hsub.
  rewrite length_fmap in Hsub. exact Hsub.
Qed.

Lemma _parse_accident_detail_keys_witness :
  ∃ accident_data,
    AviationSafetyScraper._parse_accident_detail sample.html_parser
      "detail" sample.detail_url = Some accident_data
    ∧ NoDup (Dict.keys accident_data).
Proof.
  eexists. split; [vm_compute; reflexivity|].
  by destruct (_parse_accident_detail_keys sample.html_parser "detail"
                 sample.detail_url _ eq_refl) as (Hnd & _).
Defined.

(** X7.  The sources are gathered from the siblings that follow the
    caption up to the first [div]: what stands at or after that [div] has
    no influence. *)
Theorem collect_sources_stops_at_div
    (before : list bs4.node) (attrs : list (string * string))
    (contents after : list bs4.node) :
  AviationSafetyScraper.collect_sources
    (before ++ bs4.Tag "div" attrs contents :: after)
  = AviationSafetyScraper.collect_sources before.
Proof.
  induction before as [|n before IH]; [done|].
  cbn [app AviationSafetyScraper.collect_sources].
  destruct (bs4.is_tag n); [|done].
  destruct (bs4.has_name "div" n); [done|]. by rewrite IH.
Qed.

(** ** The monthly downloads *)

Section download_more.
Import NTSBScraper windows extra.
Variable output_dir : string.
Variable http_post : nat → request → post_result.

Abbreviation download_month := (download_month output_dir http_post).
Abbreviation download_step := (download_step output_dir http_post).
Abbreviation download_year := (download_year output_dir http_post).
Abbreviation download_all := (download_all output_dir http_post).
Abbreviation month_filepath := (month_filepath output_dir).

Lemma get_month_date_range_invalid year month :
  ¬ valid_window year month →
  get_month_date_range year month = Raise (window_error year month).
Proof.
  intros Hinvalid. unfold get_month_date_range.
  rewrite (datetime_invalid year month) by exact Hinvalid. reflexivity.
Qed.

Lemma valid_window_dec year month :
  valid_window year month ∨ ¬ valid_window year month.
Proof. unfold valid_window. lia. Qed.

(** The four ways a call of [download_month] can go. *)
Lemma download_month_cases year month w :
  (is_Some (files w !! month_filepath year month)
   ∧ download_month year month w
     = Ok (true, print (AlreadyExists (month_filename year month)) w))
  ∨ (files w !! month_filepath year month = None
     ∧ ¬ valid_window year month
     ∧ download_month year month w = Raise (window_error year month))
  ∨ (files w !! month_filepath year month = None
     ∧ valid_window year month
     ∧ ∃ message,
         failed_answer
           (http_post (length (requests w)) (export_request year month))
         ∧ download_month year month w
           = Ok (false,
                 World (files w) (requests w ++ [export_request year month])
                   (stdout w ++ [Downloading (month_filename year month);
                                 Failed message])))
  ∨ (files w !! month_filepath year month = None
     ∧ valid_window year month
     ∧ ∃ status_code content,
         http_post (length (requests w)) (export_request year month)
         = PostResponse status_code content
         ∧ ¬ 400 ≤ status_code < 600
         ∧ download_month year month w
           = Ok (true,
                 World (<[month_filepath year month := content]> (files w))
                   (requests w ++ [export_request year month])
                   (stdout w ++ [Downloading (month_filename year month);
                                 Success (String.length content)]))).
Proof.
  unfold download_month, NTSBScraper.download_month. cbv zeta.
  destruct (bool_decide (is_Some (files w !! month_filepath year month)))
    eqn:Hexists.
  { left. by apply bool_decide_eq_true in Hexists. }
  apply bool_decide_eq_false in Hexists.
  assert (files w !! month_filepath year month = None) as Hnone.
  { destruct (files w !! month_filepath year month) eqn:Hl; [|done].
    destruct Hexists. by eexists. }
  right. destruct (valid_window_dec year month) as [Hvalid|Hinvalid].
  2:{ left. split_and!; [done|done|]. unfold create_payload.
      by rewrite get_month_date_range_invalid. }
  right. unfold create_payload.
  destruct Hvalid as [Hy Hm].
  rewrite (get_month_date_range_ok year month Hy Hm).
  cbn [mbind result_bind]. unfold print. cbn [files requests stdout].
  fold (export_request year month).
  destruct (http_post (length (requests w)) (export_request year month))
    as [status_code content|message] eqn:Hanswer.
  - destruct ((400 <=? status_code) && (status_code <? 600)) eqn:Hstatus.
    + left. split_and!; [done|done|]. eexists. split; [cbn; lia|].
      by rewrite <-app_assoc.
    + right. split_and!; [done|done|]. exists status_code, content.
      split_and!; [done|lia|]. by rewrite <-app_assoc.
  - left. split_and!; [done|done|]. exists message. split; [done|].
    by rewrite <-app_assoc.
Qed.

Lemma extends_refl a : extends a a.
Proof. unfold extends. split_and!; try done; lia. Qed.

Lemma extends_trans a b c : extends a b → extends b c → extends a c.
Proof.
  unfold extends. intros (?&?&?&?&?&?&?) (?&?&?&?&?&?&?).
  split_and!; try (by etrans); lia.
Qed.

(** One turn of the loop over the months. *)
Lemma download_step_result year month c w c' w' :
  download_step year (Ok (c, w)) month = Ok (c', w') →
  ∃ ok,
    download_month year month w = Ok (ok, w')
    ∧ c' = (if ok : bool
            then Tally (total c + 1) (successful c + 1) (failed c)
            else Tally (total c + 1) (successful c) (failed c + 1)).
Proof.
  unfold download_step, NTSBScraper.download_step. cbn [mbind result_bind].
  destruct (NTSBScraper.download_month output_dir http_post year month w)
    as [[ok w1]|e]; cbn [mbind result_bind]; [|done].
  exists ok. destruct ok; by simplify_eq.
Qed.

Lemma download_month_extends year month c w ok w' :
  download_month year month w = Ok (ok, w') →
  extends (c, w)
    (if ok then Tally (total c + 1) (successful c + 1) (failed c)
     else Tally (total c + 1) (successful c) (failed c + 1), w')
  ∧ (ok = true → is_Some (files w' !! month_filepath year month)).
Proof.
  intros Hrun.
  destruct (download_month_cases year month w)
    as [[Hex Hr]|[(Hnone & _ & Hr)|[(Hnone & _ & message & _ & Hr)
       |(Hnone & _ & status_code & content & _ & _ & Hr)]]];
    rewrite Hr in Hrun; simplify_eq; unfold extends, print;
    cbn [fst snd files requests stdout total successful failed].
  - split; [|done]. split_and!; try done; try lia.
    by apply prefix_app_r.
  - split; [|done]. split_and!; try done; try lia.
    + by apply prefix_app_r.
    + by apply prefix_app_r.
    + rewrite length_app. cbn [length]. lia.
  - split; [|intros _; rewrite lookup_insert_eq; by eexists].
    split_and!; try done; try lia.
    + by apply insert_subseteq.
    + by apply prefix_app_r.
    + by apply prefix_app_r.
    + rewrite length_app, map_size_insert_None by done. cbn [length]. lia.
Qed.

Lemma foldl_download_step_extends year months : ∀ c w c' w',
  foldl (download_step year) (Ok (c, w)) months = Ok (c', w') →
  extends (c, w) (c', w')
  ∧ (failed c' = failed c →
     Forall (λ month, is_Some (files w' !! month_filepath year month)) months).
Proof.
  induction months as [|month months IH]; intros c w c' w' Hrun.
  { cbn in Hrun. simplify_eq. split; [apply extends_refl|constructor]. }
  cbn [foldl] in Hrun.
  destruct (download_step year (Ok (c, w)) month) as [[c1 w1]|e] eqn:Hstep.
  2:{ by rewrite foldl_download_step_raise in Hrun. }
  apply download_step_result in Hstep as (ok & Hmonth & ->).
  destruct (download_month_extends year month c w ok w1 Hmonth)
    as [Hext1 Hfile].
  destruct (IH _ _ _ _ Hrun) as [Hext2 Hfiles].
  split; [by eapply extends_trans|].
  intros Hfailed.
  assert (ok = true) as ->.
  { destruct ok; [done|]. destruct Hext2 as (_&_&_&Hle&_).
    cbn [fst failed] in Hle. lia. }
  cbn [failed] in Hfiles. constructor; [|by apply Hfiles].
  destruct (Hfile eq_refl) as [content Hcontent].
  exists content. destruct Hext2 as (Hsub&_).
  by eapply lookup_weaken.
Qed.

Lemma download_year_unfold cy cm c w year :
  download_year cy cm (Ok (c, w)) year
  = foldl (download_step year) (Ok (c, print (YearHeader year) w))
      (seqZ 1 (last_month cy cm year + 1 - 1)).
Proof. done. Qed.

Lemma print_extends c w l : extends (c, w) (c, print l w).
Proof.
  unfold extends, print. cbn [fst snd files requests stdout].
  split_and!; try done; try lia. by apply prefix_app_r.
Qed.

Lemma foldl_download_year_extends cy cm years : ∀ c w c' w',
  foldl (download_year cy cm) (Ok (c, w)) years = Ok (c', w') →
  extends (c, w) (c', w')
  ∧ (failed c' = failed c →
     Forall (λ year,
               Forall (λ month,
                         is_Some (files w' !! month_filepath year month))
                 (seqZ 1 (last_month cy cm year + 1 - 1))) years).
Proof.
  induction years as [|year years IH]; intros c w c' w' Hrun.
  { cbn in Hrun. simplify_eq. split; [apply extends_refl|constructor]. }
  cbn [foldl] in Hrun. rewrite download_year_unfold in Hrun.
  destruct (foldl (download_step year) _ _) as [[c1 w1]|e] eqn:Hyear.
  2:{ by rewrite foldl_download_year_raise in Hrun. }
  apply foldl_download_step_extends in Hyear as [Hext1 Hfiles1].
  destruct (IH _ _ _ _ Hrun) as [Hext2 Hfiles2].
  assert (extends (c, w) (c1, w1)) as Hext
    by (eapply extends_trans; [apply print_extends|done]).
  split; [by eapply extends_trans|].
  intros Hfailed.
  assert (failed c1 = failed c) as Hc1.
  { destruct Hext as (_&_&_&Hle1&_), Hext2 as (_&_&_&Hle2&_).
    cbn [fst failed] in *. lia. }
  constructor; [|apply Hfiles2; lia].
  eapply Forall_impl; [by apply Hfiles1|].
  intros month [content Hcontent]. exists content.
  destruct Hext2 as (Hsub&_). by eapply lookup_weaken.
Qed.

(** With every file in place a year is passed without a request. *)
Lemma foldl_download_step_quiet year months : ∀ c w,
  Forall (λ month, is_Some (files w !! month_filepath year month)) months →
  ∃ w',
    foldl (download_step year) (Ok (c, w)) months
    = Ok (Tally (total c + Z.of_nat (length months))
            (successful c + Z.of_nat (length months)) (failed c), w')
    ∧ files w' = files w ∧ requests w' = requests w.
Proof.
  induction months as [|month months IH]; intros c w Hall; cbn [foldl].
  { exists w. rewrite !Z.add_0_r. by destruct c. }
  apply Forall_cons in Hall as [Hmonth Hall].
  destruct (download_month_cases year month w)
    as [[_ Hr]|[(Hnone & _)|[(Hnone & _)|(Hnone & _)]]];
    try (rewrite Hnone in Hmonth; by destruct Hmonth).
  assert (download_step year (Ok (c, w)) month
          = Ok (Tally (total c + 1) (successful c + 1) (failed c),
                print (AlreadyExists (month_filename year month)) w)) as ->.
  { unfold NTSBScraper.download_step. cbn [mbind result_bind].
    by rewrite Hr. }
  destruct (IH (Tally (total c + 1) (successful c + 1) (failed c))
              (print (AlreadyExists (month_filename year month)) w))
    as (w' & Hrun & Hfiles & Hreq); [done|].
  exists w'. rewrite Hrun. cbn [total successful failed length].
  split_and!; [|done|done]. do 2 f_equal. f_equal; lia.
Qed.

Lemma foldl_download_year_quiet cy cm years : ∀ c w,
  Forall (λ year,
            Forall (λ month, is_Some (files w !! month_filepath year month))
              (seqZ 1 (last_month cy cm year + 1 - 1))) years →
  ∃ c' w',
    foldl (download_year cy cm) (Ok (c, w)) years = Ok (c', w')
    ∧ files w' = files w ∧ requests w' = requests w
    ∧ failed c' = failed c
    ∧ successful c' - total c' = successful c - total c.
Proof.
  induction years as [|year years IH]; intros c w Hall; cbn [foldl].
  { by exists c, w. }
  apply Forall_cons in Hall as [Hyear Hall].
  rewrite download_year_unfold.
  destruct (foldl_download_step_quiet year
              (seqZ 1 (last_month cy cm year + 1 - 1)) c
              (print (YearHeader year) w))
    as (w1 & -> & Hfiles1 & Hreq1); [done|].
  destruct (IH (Tally (total c + Z.of_nat (length (seqZ 1 (last_month cy cm year + 1 - 1))))
                  (successful c + Z.of_nat (length (seqZ 1 (last_month cy cm year + 1 - 1))))
                  (failed c)) w1)
    as (c' & w' & Hrun & Hfiles & Hreq & Hfailed & Htotal).
  { by rewrite Hfiles1. }
  exists c', w'. unfold print in *.
  cbn [total successful failed files requests] in *.
  split_and!; [done|congruence|congruence|done|lia].
Qed.

Lemma download_all_unfold start_year end_year cy cm w c w' :
  download_all start_year end_year cy cm w = Ok (c, w') →
  ∃ w1,
    foldl (download_year cy cm) (Ok (Tally 0 0 0, w))
      (seqZ start_year (end_year + 1 - start_year)) = Ok (c, w1)
    ∧ w' = print (Summary (total c) (successful c) (failed c)) w1.
Proof.
  unfold NTSBScraper.download_all.
  destruct (foldl _ _ _) as [[c1 w1]|e]; cbn [mbind result_bind]; [|done].
  intros [= -> <-]. by exists w1.
Qed.

End download_more.





(** X10.  Whenever [download_all] returns: no file that existed is
    removed or changed, the requests sent before are still the first
    ones, each attempt was counted as a success or as a failure, and each
    request sent either failed or created a file that was missing. *)
Theorem download_all_accounting
    (output_dir : string)
    (http_post : nat → NTSBScraper.request → NTSBScraper.post_result)
    (start_year end_year cy cm : Z) (w w' : NTSBScraper.world)
    (c : NTSBScraper.tally) :
  NTSBScraper.download_all output_dir http_post start_year end_year cy cm w
  = Ok (c, w') →
  NTSBScraper.files w ⊆ NTSBScraper.files w'
  ∧ NTSBScraper.requests w `prefix_of` NTSBScraper.requests w'
  ∧ NTSBScraper.total c = NTSBScraper.successful c + NTSBScraper.failed c
  ∧ 0 ≤ NTSBScraper.failed c ∧ 0 ≤ NTSBScraper.successful c
  ∧ Z.of_nat (length (NTSBScraper.requests w'))
    = Z.of_nat (length (NTSBScraper.requests w))
      + NTSBScraper.failed c
      + (Z.of_nat (size (NTSBScraper.files w'))
         - Z.of_nat (size (NTSBScraper.files w))).
Proof.
  intros Hrun.
  apply download_all_unfold in Hrun as (w1 & Hfold & ->).
  apply foldl_download_year_extends in Hfold as [Hext _].
  destruct Hext as (Hfiles & Hreq & _ & Hfailed & Hsucc & Htotal & Hcount).
  cbn [fst snd NTSBScraper.files NTSBScraper.requests NTSBScraper.total
       NTSBScraper.successful NTSBScraper.failed NTSBScraper.print] in *.
  split_and!; [done|done|lia|lia|lia|lia].
Qed.

Lemma download_all_accounting_witness :
  ∃ c w',
    NTSBScraper.download_all "ntsb_data" windows.service_recovers
      2024 2024 2024 2 windows.empty_world = Ok (c, w')
    ∧ Z.of_nat (length (NTSBScraper.requests w'))
      = NTSBScraper.failed c + Z.of_nat (size (NTSBScraper.files w')).
Proof.
  destruct (NTSBScraper.download_all "ntsb_data" windows.service_recovers
              2024 2024 2024 2 windows.empty_world) as [[c w']|e] eqn:Hrun;
    [|vm_compute in Hrun; discriminate].
  exists c, w'. split; [reflexivity|].
  destruct (download_all_accounting _ _ _ _ _ _ _ _ _ Hrun)
    as (_ & _ & _ & _ & _ & Hcount).
  rewrite Hcount.
  change (NTSBScraper.files windows.empty_world)
    with (∅ : gmap string string).
  rewrite map_size_empty. cbn [windows.empty_world NTSBScraper.requests length].
  lia.
Defined.

(** X11.  After a run of [download_all] without a failure, a second run
    over the same windows sends no request and writes no file: every
    month is found in place and counted as a success. *)
Theorem download_all_rerun_sends_nothing
    (output_dir : string)
    (http_post : nat → NTSBScraper.request → NTSBScraper.post_result)
    (start_year end_year cy cm : Z) (w w' : NTSBScraper.world)
    (c : NTSBScraper.tally) :
  NTSBScraper.download_all output_dir http_post start_year end_year cy cm w
  = Ok (c, w') →
  NTSBScraper.failed c = 0 →
  ∃ c2 w2,
    NTSBScraper.download_all output_dir http_post start_year end_year cy cm w'
    = Ok (c2, w2)
    ∧ NTSBScraper.files w2 = NTSBScraper.files w'
    ∧ NTSBScraper.requests w2 = NTSBScraper.requests w'
    ∧ NTSBScraper.failed c2 = 0
    ∧ NTSBScraper.successful c2 = NTSBScraper.total c2.
Proof.
  intros Hrun Hfailed.
  apply download_all_unfold in Hrun as (w1 & Hfold & ->).
  apply foldl_download_year_extends in Hfold as [_ Hfiles].
  destruct (foldl_download_year_quiet output_dir http_post cy cm
              (seqZ start_year (end_year + 1 - start_year))
              (NTSBScraper.Tally 0 0 0)
              (NTSBScraper.print
                 (NTSBScraper.Summary (NTSBScraper.total c)
                    (NTSBScraper.successful c) (NTSBScraper.failed c)) w1))
    as (c2 & w2 & Hrun2 & Hfiles2 & Hreq2 & Hfailed2 & Htotal2).
  { by apply Hfiles. }
  unfold NTSBScraper.download_all. rewrite Hrun2. cbn [mbind result_bind].
  eexists _, _. split; [done|].
  cbn [NTSBScraper.files NTSBScraper.requests NTSBScraper.print
       NTSBScraper.total NTSBScraper.successful NTSBScraper.failed] in *.
  split_and!; [done|done|done|lia].
Qed.

Lemma download_all_rerun_sends_nothing_witness :
  ∃ c w' c2 w2,
    NTSBScraper.download_all "ntsb_data" extra.service_up
      2024 2024 2024 2 windows.empty_world = Ok (c, w')
    ∧ NTSBScraper.download_all "ntsb_data" extra.service_up
        2024 2024 2024 2 w' = Ok (c2, w2)
    ∧ NTSBScraper.requests w2 = NTSBScraper.requests w'.
Proof.
  destruct (NTSBScraper.download_all "ntsb_data" extra.service_up
              2024 2024 2024 2 windows.empty_world) as [[c w']|e] eqn:Hrun;
    [|vm_compute in Hrun; discriminate].
  destruct (download_all_rerun_sends_nothing _ _ _ _ _ _ _ _ _ Hrun)
    as (c2 & w2 & Hrun2 & _ & Hreq & _).
  - vm_compute in Hrun. by simplify_eq.
  - exists c, w', c2, w2. split; [reflexivity|]. split; [exact Hrun2|exact Hreq].
Defined.

(** ** The merge of the extracted files *)

Section merge_more.
Import merge_extracted_json.

(** What one file adds, whatever was merged before it. *)
Lemma merge_file_adds acc json_file :
  ∃ added,
    added = all_cases (merge_file (Merged [] 0) json_file)
    ∧ merge_file acc json_file
      = Merged (all_cases acc ++ added)
          (total_records acc + Z.of_nat (length added)).
Proof.
  eexists. split; [done|].
  unfold merge_file. destruct json_file as [name [data|]]; cbn [snd].
  2:{ cbn. rewrite app_nil_r, Z.add_0_r. by destruct acc. }
  destruct data as [| | | |l|d]; cbn [merge_data all_cases];
    try (cbn; rewrite app_nil_r, Z.add_0_r; by destruct acc).
  - done.
  - destruct (Dict.mem "cases" d); [|done].
    destruct (Py.subscript (JObj d) "cases") as [cases|e];
      cbn [mbind result_bind].
    2:{ cbn. rewrite app_nil_r, Z.add_0_r. by destruct acc. }
    destruct (Py.iter cases) as [elements|e]; cbn [mbind result_bind].
    2:{ cbn. rewrite app_nil_r, Z.add_0_r. by destruct acc. }
    done.
Qed.

Lemma foldl_merge_file files : ∀ acc,
  foldl merge_file acc files
  = Merged
      (all_cases acc ++ all_cases (foldl merge_file (Merged [] 0) files))
      (total_records acc
       + Z.of_nat (length (all_cases (foldl merge_file (Merged [] 0) files)))).
Proof.
  induction files as [|f files IH]; intros acc; cbn [foldl].
  { cbn. rewrite app_nil_r, Z.add_0_r. by destruct acc. }
  rewrite (IH (merge_file acc f)), (IH (merge_file (Merged [] 0) f)).
  destruct (merge_file_adds acc f) as (added & Hadded & ->).
  rewrite <-Hadded. cbn [all_cases total_records].
  rewrite <-app_assoc, length_app, Nat2Z.inj_add, Z.add_assoc. done.
Qed.

End merge_more.

(** X12.  The count the merge reports is the number of records it
    gathered, whatever the files hold: a file that cannot be read or
    whose [cases] cannot be iterated changes neither. *)
Theorem merge_counts_every_record (listing : list (string * option json)) :
  merge_extracted_json.total_records (merge_extracted_json.merge listing)
  = Z.of_nat (length (merge_extracted_json.all_cases
                        (merge_extracted_json.merge listing))).
Proof.
  unfold merge_extracted_json.merge. rewrite foldl_merge_file. cbn. lia.
Qed.

(** X13.  The merge goes file by file: the records of a listing made of
    two parts are the records of the first part followed by those of the
    second, and the counts add up. *)
Theorem merge_of_two_parts (listing1 listing2 : list (string * option json)) :
  merge_extracted_json.merge (listing1 ++ listing2)
  = merge_extracted_json.Merged
      (merge_extracted_json.all_cases (merge_extracted_json.merge listing1)
       ++ merge_extracted_json.all_cases (merge_extracted_json.merge listing2))
      (merge_extracted_json.total_records (merge_extracted_json.merge listing1)
       + merge_extracted_json.total_records
           (merge_extracted_json.merge listing2)).
Proof.
  unfold merge_extracted_json.merge, merge_extracted_json.json_files.
  rewrite filter_app, foldl_app.
  rewrite foldl_merge_file.
  rewrite (foldl_merge_file (filter _ listing2)
             (merge_extracted_json.Merged [] 0)).
  rewrite (foldl_merge_file (filter _ listing1)
             (merge_extracted_json.Merged [] 0)).
  cbn [merge_extracted_json.total_records merge_extracted_json.all_cases app].
  by rewrite !Z.add_0_l.
Qed.

(** ** The staging loads *)

#[local] Set Warnings "-clear-no-such-hyp".

Section staging_more.
Import load_staging staging extra.
Variable key_column : key_constraint.
Variable adapt_other : json → result (option string).

Abbreviation insert_or_ignore := (insert_or_ignore key_column).
Abbreviation execute_batch := (execute_batch key_column adapt_other).
Abbreviation in_turn := (staging.one_by_one key_column adapt_other).

Implicit Types (t : table) (r : row) (k : string).

Lemma elem_of_keys_of k t :
  k ∈ keys_of t ↔ existsb (has_key k) t = true.
Proof.
  unfold keys_of. rewrite elem_of_list_to_set, list_elem_of_omap.
  rewrite existsb_has_key, list_elem_of_fmap. split.
  - intros (r & Hr & Hk). by exists r.
  - intros (r & Hk & Hr). by exists r.
Qed.

Lemma keys_of_snoc t k raw :
  keys_of (t ++ [Row (Some k) raw]) = keys_of t ∪ {[k]}.
Proof.
  unfold keys_of. rewrite omap_app, list_to_set_app_L. cbn. set_solver.
Qed.

(** A batch of rows the driver and the server take: what it leaves in
    the table. *)
Lemma one_by_one_storable rows : ∀ t,
  Forall storable rows →
  ∃ t',
    in_turn t rows = Ok t'
    ∧ keys_of t' = keys_of t ∪ batch_keys rows
    ∧ length t' = (length t + size (batch_keys rows ∖ keys_of t))%nat.
Proof.
  induction rows as [|[source_id raw] rows IH]; intros t Hrows.
  { exists t. split; [done|]. unfold batch_keys. cbn [omap list_omap list_to_set].
    split; [set_solver|].
    replace ((∅ : gset string) ∖ keys_of t) with (∅ : gset string)
      by set_solver.
    rewrite size_empty. lia. }
  apply Forall_cons in Hrows as [[(k & Hk & Hnul) Hraw] Hrows].
  cbn [fst snd] in Hk, Hraw. subst.
  rewrite one_by_one_cons, adapt_string by done. cbn [mbind result_bind].
  assert (batch_keys ((JStr k, raw) :: rows) = {[k]} ∪ batch_keys rows) as ->.
  { unfold batch_keys. by cbn [omap list_omap list_to_set fst]. }
  unfold load_staging.insert_or_ignore. cbn [source_unique_id raw_json].
  rewrite Hraw. cbn [negb].
  destruct (existsb (has_key k) t) eqn:Hpresent; cbn [mbind result_bind].
  - destruct (IH t Hrows) as (t' & Hrun & Hset & Hlen).
    apply elem_of_keys_of in Hpresent.
    exists t'. split; [done|]. rewrite Hset, Hlen.
    split; [clear -Hpresent; set_solver|].
    replace (({[k]} ∪ batch_keys rows) ∖ keys_of t)
      with (batch_keys rows ∖ keys_of t) by (clear -Hpresent; set_solver).
    done.
  - destruct (IH (t ++ [Row (Some k) raw]) Hrows) as (t' & Hrun & Hset & Hlen).
    assert (k ∉ keys_of t) as Hnew.
    { rewrite elem_of_keys_of. congruence. }
    rewrite keys_of_snoc in Hset, Hlen.
    exists t'. split; [done|]. rewrite Hset, Hlen.
    split; [clear; set_solver|].
    replace (({[k]} ∪ batch_keys rows) ∖ keys_of t)
      with ({[k]} ∪ batch_keys rows ∖ keys_of t)
      by (clear -Hnew; set_solver).
    rewrite (size_union_alt {[k]} (batch_keys rows ∖ keys_of t)).
    rewrite size_singleton, difference_difference_l_L.
    rewrite length_app. cbn [length]. lia.
Qed.

Lemma execute_batch_storable rows t :
  Forall storable rows →
  ∃ t',
    execute_batch t rows = Ok t'
    ∧ keys_of t' = keys_of t ∪ batch_keys rows
    ∧ length t' = (length t + size (batch_keys rows ∖ keys_of t))%nat.
Proof.
  intros Hrows.
  destruct (one_by_one_storable rows t Hrows) as (t' & Hrun & Hfacts).
  exists t'. split; [by apply execute_batch_ok|done].
Qed.

(** A batch of string keys goes through exactly when each of its rows is
    taken. *)
Lemma execute_batch_ok_storable rows t :
  Forall (λ x : json * json, ∃ k, x.1 = JStr k) rows →
  (∃ t', execute_batch t rows = Ok t') ↔ Forall storable rows.
Proof.
  intros Hkeys. split.
  - intros [t' Hrun%execute_batch_taken].
    rewrite Forall_forall in Hkeys, Hrun. apply Forall_forall.
    intros x Hx. destruct (Hkeys x Hx) as [k Hk], (Hrun x Hx) as [Hnul Hraw].
    split; [|done]. exists k. split; [done|]. by apply Hnul.
  - intros Hrows.
    destruct (execute_batch_storable rows t Hrows) as (t' & Hrun & _).
    by exists t'.
Qed.

(** *** The errors of a batch of string keys *)

Lemma mogrify_raise page e :
  Forall (λ x : json * json, ∃ k, x.1 = JStr k) page →
  Py.mapM (mogrify adapt_other) page = Raise e → e = ValueError.
Proof.
  induction 1 as [|[source_id raw] page [k Hk] _ IH]; [done|].
  cbn [fst] in Hk. subst. cbn [Py.mapM].
  change (mogrify adapt_other (JStr k, raw))
    with (key ← adapt adapt_other (JStr k); Ok (Row key raw)).
  cbn [adapt]. destruct (has_nul k); cbn [mbind result_bind].
  { by intros [= <-]. }
  destruct (Py.mapM (mogrify adapt_other) page) as [sqls|e'];
    cbn [mbind result_bind]; [done|].
  intros [= ->]. by apply IH.
Qed.

Lemma insert_raise t r e :
  insert_or_ignore t r = Raise e → e = DatabaseError.
Proof.
  unfold load_staging.insert_or_ignore.
  repeat case_match; intros; by simplify_eq.
Qed.

Lemma execute_raise sqls : ∀ t e,
  execute key_column t sqls = Raise e → e = DatabaseError.
Proof.
  induction sqls as [|r sqls IH]; intros t e; [done|].
  rewrite execute_cons.
  destruct (insert_or_ignore t r) as [t'|e'] eqn:Hins;
    cbn [mbind result_bind].
  - apply IH.
  - intros [= <-]. by eapply insert_raise.
Qed.

Lemma execute_page_raise_kind t page e :
  Forall (λ x : json * json, ∃ k, x.1 = JStr k) page →
  execute_page key_column adapt_other (Ok t) page = Raise e →
  e = ValueError ∨ e = DatabaseError.
Proof.
  intros Hkeys. unfold execute_page. cbn [mbind result_bind].
  destruct (Py.mapM (mogrify adapt_other) page) as [sqls|e'] eqn:Hsqls;
    cbn [mbind result_bind].
  - intros ?%execute_raise. by right.
  - intros [= <-]. left. by eapply mogrify_raise.
Qed.

Lemma paginate_go_Forall {A} (P : A → Prop) fuel : ∀ rows,
  Forall P rows → Forall (Forall P) (paginate_go fuel rows).
Proof.
  induction fuel as [|fuel IH]; intros rows Hrows; [constructor|].
  destruct rows as [|x rows]; [constructor|]. cbn [paginate_go].
  constructor; [by apply Forall_take|]. apply IH. by apply Forall_drop.
Qed.

Lemma execute_batch_raise_kind rows t e :
  Forall (λ x : json * json, ∃ k, x.1 = JStr k) rows →
  execute_batch t rows = Raise e → e = ValueError ∨ e = DatabaseError.
Proof.
  intros Hkeys. unfold load_staging.execute_batch, _paginate.
  pose proof (paginate_go_Forall _ (length rows) rows Hkeys) as Hpages.
  revert t. induction Hpages as [|page pages Hpage _ IH]; intros t; [done|].
  cbn [foldl].
  destruct (execute_page key_column adapt_other (Ok t) page) as [t1|e1]
    eqn:Hfirst.
  - apply IH.
  - rewrite foldl_raise by done. intros [= <-].
    by eapply execute_page_raise_kind.
Qed.

(** *** Rows without a key *)

Lemma one_by_one_null_keys rows : ∀ t,
  Forall (λ x : json * json, x.1 = JNull ∧ jsonb_accepts x.2 = true) rows →
  staging.one_by_one UNIQUE adapt_other t rows
  = Ok (t ++ ((λ x : json * json, Row None x.2) <$> rows)).
Proof.
  induction rows as [|[source_id raw] rows IH]; intros t Hnull.
  { cbn. by rewrite app_nil_r. }
  apply Forall_cons in Hnull as [[Hk Hraw] Hnull]. cbn [fst snd] in Hk, Hraw.
  subst. rewrite one_by_one_cons. cbn [adapt mbind result_bind].
  unfold load_staging.insert_or_ignore. cbn [source_unique_id raw_json].
  rewrite Hraw. cbn [negb mbind result_bind].
  rewrite IH by done. cbn [fmap list_fmap snd]. by rewrite <-app_assoc.
Qed.

Lemma mogrify_null_keys page :
  Forall (λ x : json * json, x.1 = JNull) page →
  Py.mapM (mogrify adapt_other) page
  = Ok ((λ x : json * json, Row None x.2) <$> page).
Proof.
  intros Hnull. apply mapM_fmap. eapply Forall_impl; [exact Hnull|].
  intros [source_id raw] Hk. cbn [fst] in Hk. by subst.
Qed.

(** Under a primary key the first row without a key ends the batch. *)
Lemma execute_batch_null_primary rows t :
  Forall (λ x : json * json, x.1 = JNull) rows → rows ≠ [] →
  load_staging.execute_batch PRIMARY_KEY adapt_other t rows
  = Raise DatabaseError.
Proof.
  intros Hnull Hne. destruct rows as [|[source_id raw] rows]; [done|].
  unfold load_staging.execute_batch, _paginate.
  cbn [length paginate_go foldl].
  assert (execute_page PRIMARY_KEY adapt_other (Ok t)
            (take page_size ((source_id, raw) :: rows))
          = Raise DatabaseError) as ->; [|by apply foldl_raise].
  unfold execute_page. cbn [mbind result_bind].
  rewrite mogrify_null_keys by (by apply Forall_take).
  cbn [mbind result_bind]. unfold page_size. cbn [take fmap list_fmap snd].
  rewrite execute_cons. unfold load_staging.insert_or_ignore.
  cbn [source_unique_id raw_json]. by destruct (jsonb_accepts raw).
Qed.

Lemma load_source1_frame data w w' :
  load_source1_aviation key_column adapt_other data w = Ok w' →
  ∃ rows t n,
    execute_batch (stg_source1_aviation_safety (tables w)) rows = Ok t
    ∧ w' = World (Db t (stg_source2_ntsb (tables w)) (stg_source3_csv (tables w)))
             (stdout w ++ [Loaded n "stg_source1_aviation_safety"]).
Proof.
  intros Hload.
  apply load_source1_rows in Hload
    as (records & rows & t & _ & _ & _ & Hrun & ->).
  by exists rows, t, (length records).
Qed.

Lemma load_source2_frame data w w' :
  load_source2_ntsb key_column adapt_other data w = Ok w' →
  ∃ rows t n,
    execute_batch (stg_source2_ntsb (tables w)) rows = Ok t
    ∧ w' = World (Db (stg_source1_aviation_safety (tables w)) t
                    (stg_source3_csv (tables w)))
             (stdout w ++ [Loaded n "stg_source2_ntsb"]).
Proof.
  intros Hload.
  apply load_source2_rows in Hload as (records & rows & t & _ & _ & Hrun & ->).
  by exists rows, t, (length records).
Qed.

Lemma load_source3_frame reader w w' :
  load_source3_csv key_column adapt_other reader w = Ok w' →
  ∃ rows t,
    execute_batch (stg_source3_csv (tables w)) rows = Ok t
    ∧ w' = World (Db (stg_source1_aviation_safety (tables w))
                    (stg_source2_ntsb (tables w)) t)
             (stdout w ++ [Loaded (length reader) "stg_source3_csv"]).
Proof.
  unfold load_source3_csv. cbv zeta.
  destruct (load_staging.execute_batch _ _ _ _) as [t|e] eqn:Hrun;
    cbn [mbind result_bind]; [|done].
  intros [= <-]. eexists _, t. split; [exact Hrun|].
  by rewrite length_fmap.
Qed.

(** The records of a file of source 1 that all hold a string [url]. *)
Lemma mapM_source1_rows records :
  Forall (λ record, is_Some (url_of record)) records →
  Py.mapM (λ record,
             url ← Py.get record "url";
             source_id ← Py.split_last url "/";
             Ok (JStr source_id, record)) records
  = Ok ((λ record, (JStr (source1_id record), record)) <$> records).
Proof.
  intros Hall. apply mapM_fmap.
  eapply Forall_impl; [exact Hall|].
  intros record [url Hurl]. unfold url_of in Hurl. unfold source1_id.
  destruct record as [| | | | |d]; try done. cbn [Py.get].
  destruct (Dict.get "url" d) as [[| | |s| |]|]; try done.
Qed.


End staging_more.



(** X15.  When the main block reaches its end, each staging table still
    starts with the rows it had, in their order, and four lines were
    printed: one per load, with the number of records read, and the
    final one. *)
Theorem main_appends_only
    (key_column : load_staging.key_constraint)
    (adapt_other : json → result (option string))
    (asn ntsb : json) (csv : list (list (string * json)))
    (w w' : load_staging.world) :
  load_staging.main key_column adapt_other asn ntsb csv w = Ok w' →
  load_staging.stg_source1_aviation_safety (load_staging.tables w)
    `prefix_of`
    load_staging.stg_source1_aviation_safety (load_staging.tables w')
  ∧ load_staging.stg_source2_ntsb (load_staging.tables w)
      `prefix_of` load_staging.stg_source2_ntsb (load_staging.tables w')
  ∧ load_staging.stg_source3_csv (load_staging.tables w)
      `prefix_of` load_staging.stg_source3_csv (load_staging.tables w')
  ∧ ∃ n1 n2,
      load_staging.stdout w'
      = load_staging.stdout w
        ++ [load_staging.Loaded n1 "stg_source1_aviation_safety";
            load_staging.Loaded n2 "stg_source2_ntsb";
            load_staging.Loaded (length csv) "stg_source3_csv";
            load_staging.Complete].
Proof.
  unfold load_staging.main. intros Hmain.
  destruct (load_staging.load_source1_aviation _ _ asn w) as [w1|e] eqn:H1;
    cbn [mbind result_bind] in Hmain; [|done].
  destruct (load_staging.load_source2_ntsb _ _ ntsb w1) as [w2|e] eqn:H2;
    cbn [mbind result_bind] in Hmain; [|done].
  destruct (load_staging.load_source3_csv _ _ csv w2) as [w3|e] eqn:H3;
    cbn [mbind result_bind] in Hmain; [|done].
  simplify_eq.
  apply load_source1_frame in H1 as (rows1 & t1 & n1 & Hrun1 & ->).
  apply load_source2_frame in H2 as (rows2 & t2 & n2 & Hrun2 & ->).
  apply load_source3_frame in H3 as (rows3 & t3 & Hrun3 & ->).
  cbn [load_staging.tables load_staging.stdout
       load_staging.stg_source1_aviation_safety load_staging.stg_source2_ntsb
       load_staging.stg_source3_csv] in *.
  apply execute_batch_prefix in Hrun1, Hrun2, Hrun3.
  split_and!; [done|done|done|].
  exists n1, n2. by rewrite <-!app_assoc.
Qed.

Lemma main_appends_only_witness :
  ∃ w',
    load_staging.main load_staging.PRIMARY_KEY staging.refuse_other
      (JObj [("accidents", JArr [])]) (JArr [sample.case1; sample.case2]) []
      sample.empty_world = Ok w'
    ∧ ∃ n1 n2,
        load_staging.stdout w'
        = [load_staging.Loaded n1 "stg_source1_aviation_safety";
           load_staging.Loaded n2 "stg_source2_ntsb";
           load_staging.Loaded 0 "stg_source3_csv";
           load_staging.Complete].
Proof.
  eexists. split; [vm_compute; reflexivity|].
  destruct (main_appends_only load_staging.PRIMARY_KEY staging.refuse_other
              (JObj [("accidents", JArr [])])
              (JArr [sample.case1; sample.case2]) []
              sample.empty_world _ eq_refl) as (_ & _ & _ & n1 & n2 & Hout).
  exists n1, n2. exact Hout.
Defined.



(** X17.  A CSV file of which every row has under [index] a text
    without NUL and is a document the server takes loads whatever the
    constraint of the key column, and loading it again changes no table. *)
Theorem load_source3_csv_idempotent
    (key_column : load_staging.key_constraint)
    (adapt_other : json → result (option string))
    (reader : list (list (string * json))) (w : load_staging.world) :
  Forall (λ row,
            ∃ k, Dict.get "index" row = Some (JStr k)
                 ∧ staging.storable (JStr k, JObj row)) reader →
  ∃ w1 w2,
    load_staging.load_source3_csv key_column adapt_other reader w = Ok w1
    ∧ load_staging.load_source3_csv key_column adapt_other reader w1 = Ok w2
    ∧ load_staging.tables w2 = load_staging.tables w1
    ∧ load_staging.stdout w2
      = load_staging.stdout w
        ++ [load_staging.Loaded (length reader) "stg_source3_csv";
            load_staging.Loaded (length reader) "stg_source3_csv"].
Proof.
  intros Hindex.
  assert (Forall staging.storable
            ((λ row, (default JNull (Dict.get "index" row), JObj row))
               <$> reader)) as Hrows.
  { apply Forall_fmap. eapply Forall_impl; [exact Hindex|].
    intros row (k & Hk & Hrow). cbn. by rewrite Hk. }
  assert (Forall (λ x : json * json, ∃ k, x.1 = JStr k)
            ((λ row, (default JNull (Dict.get "index" row), JObj row))
               <$> reader)) as Hkeys.
  { eapply Forall_impl; [exact Hrows|]. intros x [(k & Hk & _) _]. by exists k. }
  unfold load_staging.load_source3_csv. cbv zeta.
  destruct (execute_batch_storable key_column adapt_other _
              (load_staging.stg_source3_csv (load_staging.tables w)) Hrows)
    as (t & Hrun & _).
  rewrite Hrun. cbn [mbind result_bind]. eexists _, _. split; [done|].
  cbn [load_staging.tables load_staging.stg_source3_csv
       load_staging.stg_source1_aviation_safety load_staging.stg_source2_ntsb
       load_staging.stdout].
  rewrite (execute_batch_twice key_column adapt_other _ _ _ Hkeys Hrun).
  cbn [mbind result_bind]. split; [done|].
  cbn [load_staging.tables load_staging.stdout]. split; [done|].
  by rewrite <-app_assoc, !length_fmap.
Qed.

Lemma load_source3_csv_idempotent_witness :
  ∃ w1 w2,
    load_staging.load_source3_csv load_staging.PRIMARY_KEY
      staging.refuse_other
      [[("index", JStr "0"); ("Date", JStr "2010-01-01")];
       [("index", JStr "1"); ("Date", JStr "2010-01-02")]]
      sample.empty_world = Ok w1
    ∧ load_staging.load_source3_csv load_staging.PRIMARY_KEY
        staging.refuse_other
        [[("index", JStr "0"); ("Date", JStr "2010-01-01")];
         [("index", JStr "1"); ("Date", JStr "2010-01-02")]]
        w1 = Ok w2
    ∧ load_staging.tables w2 = load_staging.tables w1.
Proof.
  destruct (load_source3_csv_idempotent load_staging.PRIMARY_KEY
              staging.refuse_other
              [[("index", JStr "0"); ("Date", JStr "2010-01-01")];
               [("index", JStr "1"); ("Date", JStr "2010-01-02")]]
              sample.empty_world)
    as (w1 & w2 & H1 & H2 & Htables & _).
  - repeat constructor; eexists; (split; [reflexivity|]);
      (split; [by eexists|reflexivity]).
  - by exists w1, w2.
Defined.

(** X18.  A CSV file without a value under [index] in any row: when the
    key column is a primary key the load ends in a database error; when
    it is only unique and the server takes every row, every row is
    inserted with a null key, and so each further load of the file
    inserts all its rows once more. *)
Theorem load_source3_csv_without_index
    (adapt_other : json → result (option string))
    (reader : list (list (string * json))) (w : load_staging.world) :
  Forall (λ row, Dict.get "index" row = None
                 ∨ Dict.get "index" row = Some JNull) reader →
  reader ≠ [] →
  load_staging.load_source3_csv load_staging.PRIMARY_KEY adapt_other reader w
  = Raise DatabaseError
  ∧ (Forall (λ row, load_staging.jsonb_accepts (JObj row) = true) reader →
     load_staging.load_source3_csv load_staging.UNIQUE adapt_other reader w
     = Ok (load_staging.World
             (load_staging.Db
                (load_staging.stg_source1_aviation_safety
                   (load_staging.tables w))
                (load_staging.stg_source2_ntsb (load_staging.tables w))
                (load_staging.stg_source3_csv (load_staging.tables w)
                 ++ ((λ row, load_staging.Row None (JObj row)) <$> reader)))
             (load_staging.stdout w
              ++ [load_staging.Loaded (length reader) "stg_source3_csv"]))).
Proof.
  intros Hindex Hne.
  assert (Forall (λ x : json * json, x.1 = JNull)
            ((λ row, (default JNull (Dict.get "index" row), JObj row))
               <$> reader)) as Hkeys.
  { apply Forall_fmap. eapply Forall_impl; [exact Hindex|].
    intros row [Hk|Hk]; cbn; by rewrite Hk. }
  unfold load_staging.load_source3_csv. cbv zeta. split.
  - rewrite execute_batch_null_primary; [done|done|by destruct reader].
  - intros Hrows.
    assert (load_staging.execute_batch load_staging.UNIQUE adapt_other
              (load_staging.stg_source3_csv (load_staging.tables w))
              ((λ row, (default JNull (Dict.get "index" row), JObj row))
                 <$> reader)
            = Ok (load_staging.stg_source3_csv (load_staging.tables w)
                  ++ ((λ row, load_staging.Row None (JObj row)) <$> reader)))
      as ->.
    { apply execute_batch_ok. rewrite one_by_one_null_keys.
      - by rewrite <-list_fmap_compose.
      - apply Forall_fmap. rewrite Forall_forall in Hindex, Hrows.
        apply Forall_forall. intros row Hrow. cbn. split; [|by apply Hrows].
        by destruct (Hindex row Hrow) as [-> | ->]. }
    cbn [mbind result_bind]. by rewrite length_fmap.
Qed.

Lemma load_source3_csv_without_index_witness :
  ∃ w1 w2,
    load_staging.load_source3_csv load_staging.UNIQUE staging.refuse_other
      [[("Date", JStr "2010-01-01")]] sample.empty_world = Ok w1
    ∧ load_staging.load_source3_csv load_staging.UNIQUE staging.refuse_other
        [[("Date", JStr "2010-01-01")]] w1 = Ok w2
    ∧ length (load_staging.stg_source3_csv (load_staging.tables w2)) = 2%nat.
Proof.
  eexists _, _.
  destruct (load_source3_csv_without_index staging.refuse_other
              [[("Date", JStr "2010-01-01")]] sample.empty_world)
    as [_ H1]; [repeat constructor; by left|done|].
  split; [apply H1; by repeat constructor|].
  destruct (load_source3_csv_without_index staging.refuse_other
              [[("Date", JStr "2010-01-01")]]
              (load_staging.World
                 (load_staging.Db [] []
                    [load_staging.Row None (JObj [("Date", JStr "2010-01-01")])])
                 [load_staging.Loaded 1 "stg_source3_csv"]))
    as [_ H2]; [repeat constructor; by left|done|].
  split; [apply H2; by repeat constructor|reflexivity].
Defined.

(** ** From the scraper to the staging table *)

Lemma batch_keys_source1 (records : list json) :
  extra.batch_keys
    ((λ record, (JStr (staging.source1_id record), record)) <$> records)
  = list_to_set (staging.source1_id <$> records).
Proof.
  unfold extra.batch_keys.
  induction records as [|record records IH]; [done|].
  cbn [fmap list_fmap omap list_omap fst list_to_set]. by f_equal.
Qed.

(** X19.  The file [save_to_json] writes for a year that [scrape_year]
    returned never lacks what [load_source1_aviation] reads: every record
    has its [url], so the load does not end in [AttributeError],
    [KeyError] or [TypeError].  Whatever the constraint of the key column,
    it succeeds exactly when, for every record, the last path segment of
    its URL holds no NUL and the server takes the record; a failed load
    ends in the driver's [ValueError] or a database error; a successful
    one reports as many rows as there are records, keeps the rows of the
    table, and leaves in it the old keys and the last path segment of the
    URL of every record. *)
Theorem scraped_year_loads
    (html_parser : string → bs4.soup)
    (http_get : string → AviationSafetyScraper.response)
    (fuel : nat) (year : Z) (st : AviationSafetyScraper.run)
    (scraped_at : string)
    (key_column : load_staging.key_constraint)
    (adapt_other : json → result (option string))
    (w : load_staging.world) :
  AviationSafetyScraper.scrape_year html_parser http_get fuel year = Some st →
  ((∃ w',
      load_staging.load_source1_aviation key_column adapt_other
        (AviationSafetyScraper.save_to_json
           (AviationSafetyScraper.all_accidents st) year scraped_at).2 w
      = Ok w')
   ↔ Forall (λ record,
               staging.storable (JStr (staging.source1_id record), record))
       (AviationSafetyScraper.all_accidents st))
  ∧ (∀ e,
       load_staging.load_source1_aviation key_column adapt_other
         (AviationSafetyScraper.save_to_json
            (AviationSafetyScraper.all_accidents st) year scraped_at).2 w
       = Raise e →
       e = ValueError ∨ e = DatabaseError)
  ∧ (∀ w',
       load_staging.load_source1_aviation key_column adapt_other
         (AviationSafetyScraper.save_to_json
            (AviationSafetyScraper.all_accidents st) year scraped_at).2 w
       = Ok w' →
       ∃ t,
         w' = load_staging.World
                (load_staging.Db t
                   (load_staging.stg_source2_ntsb (load_staging.tables w))
                   (load_staging.stg_source3_csv (load_staging.tables w)))
                (load_staging.stdout w
                 ++ [load_staging.Loaded
                       (length (AviationSafetyScraper.all_accidents st))
                       "stg_source1_aviation_safety"])
         ∧ load_staging.stg_source1_aviation_safety (load_staging.tables w)
             `prefix_of` t
         ∧ extra.keys_of t
           = extra.keys_of
               (load_staging.stg_source1_aviation_safety
                  (load_staging.tables w))
             ∪ list_to_set
                 (staging.source1_id
                    <$> AviationSafetyScraper.all_accidents st)).
Proof.
  intros Hrun.
  destruct (scrape_pages_returns html_parser http_get year fuel 1 _ _ Hrun)
    as (k & _ & _ & _ & _ & _ & Hinv).
  destruct Hinv as (Hurls & _).
  { unfold extra.run_invariant. cbn. split_and!; constructor. }
  unfold load_staging.load_source1_aviation.
  assert (Py.subscript
            (AviationSafetyScraper.save_to_json
               (AviationSafetyScraper.all_accidents st) year scraped_at).2
            "accidents"
          = Ok (JArr (AviationSafetyScraper.all_accidents st))) as ->
    by reflexivity.
  cbn [mbind result_bind Py.iter].
  rewrite mapM_source1_rows by done. cbn [mbind result_bind].
  set (rows := (λ record, (JStr (staging.source1_id record), record))
                 <$> AviationSafetyScraper.all_accidents st).
  set (t0 := load_staging.stg_source1_aviation_safety (load_staging.tables w)).
  assert (Forall (λ x : json * json, ∃ k, x.1 = JStr k) rows) as Hkeys.
  { apply Forall_fmap, Forall_forall. intros record _. by eexists. }
  assert (Forall staging.storable rows
          ↔ Forall (λ record,
                      staging.storable
                        (JStr (staging.source1_id record), record))
              (AviationSafetyScraper.all_accidents st)) as Hsame.
  { unfold rows. by rewrite Forall_fmap. }
  pose proof (execute_batch_ok_storable key_column adapt_other rows t0 Hkeys)
    as Hok.
  destruct (load_staging.execute_batch key_column adapt_other t0 rows)
    as [t|e] eqn:Hbatch; cbn [mbind result_bind].
  - split_and!.
    + split; [|by eexists]. intros _. apply Hsame, Hok. by exists t.
    + done.
    + intros w' [= <-]. exists t. unfold rows. rewrite length_fmap.
      split; [done|].
      split; [by eapply execute_batch_prefix|].
      assert (Forall staging.storable rows) as Hrows
        by (apply Hok; by exists t).
      destruct (execute_batch_storable key_column adapt_other rows t0 Hrows)
        as (t' & Hrun' & Hset & _).
      assert (t' = t) as -> by congruence.
      rewrite Hset. unfold rows. by rewrite batch_keys_source1.
  - split_and!.
    + split; [by intros [? ?]|]. intros Hrows%Hsame%Hok.
      by destruct Hrows.
    + intros e' [= <-]. by eapply execute_batch_raise_kind.
    + done.
Qed.

Lemma scraped_year_loads_witness :
  ∃ st t,
    AviationSafetyScraper.scrape_year sample.html_parser sample.http_get
      5 2010 = Some st
    ∧ load_staging.load_source1_aviation load_staging.PRIMARY_KEY
        staging.refuse_other
        (AviationSafetyScraper.save_to_json
           (AviationSafetyScraper.all_accidents st) 2010
           "2010-12-31T00:00:00").2
        sample.empty_world
      = Ok (load_staging.World (load_staging.Db t [] [])
              [load_staging.Loaded 1 "stg_source1_aviation_safety"])
    ∧ extra.keys_of t = {["1"]}.
Proof.
  eexists.
  destruct (scraped_year_loads sample.html_parser sample.http_get 5 2010 _
              "2010-12-31T00:00:00" load_staging.PRIMARY_KEY
              staging.refuse_other sample.empty_world eq_refl)
    as (Hok & _ & Hfacts).
  destruct (proj2 Hok) as [w' Hload].
  { vm_compute. repeat constructor; by eexists. }
  destruct (Hfacts w' Hload) as (t & -> & _ & Hkeys).
  exists t. split; [reflexivity|]. split; [exact Hload|].
  rewrite Hkeys. vm_compute. reflexivity.
Defined.

(** ** The extraction of the archives *)

Section unzip_more.
Import Str unzip_with_rename NTSBScraper.

Lemma append_assoc (a b c : string) : (a +:+ b) +:+ c = a +:+ (b +:+ c).
Proof. induction a as [|x a IH]; [done|]. by rewrite !append_cons, IH. Qed.

Lemma rev_app_append (a b acc : string) :
  String.rev_app (a +:+ b) acc = String.rev_app b (String.rev_app a acc).
Proof. revert acc. induction a as [|x a IH]; intros acc; [done|]. apply IH. Qed.

Lemma no_sep_cons (sep c : ascii) (s : string) :
  contains (String sep EmptyString) (String c s) = false →
  Ascii.eqb c sep = false ∧ contains (String sep EmptyString) s = false.
Proof.
  rewrite contains_char_cons. intros [Hc Hs]%orb_false_elim.
  by rewrite Ascii.eqb_sym.
Qed.

Lemma rpartition_no_sep (sep : ascii) (s : string) :
  contains (String sep EmptyString) s = false → rpartition sep s = None.
Proof.
  induction s as [|c s IH]; [done|].
  intros [Hc Hs]%no_sep_cons. cbn [rpartition]. by rewrite IH, Hc.
Qed.

Lemma rpartition_last (sep : ascii) (before after : string) :
  contains (String sep EmptyString) after = false →
  rpartition sep (before +:+ String sep after) = Some (before, after).
Proof.
  intros Hafter. induction before as [|c before IH].
  - rewrite append_empty_l. cbn [rpartition].
    by rewrite rpartition_no_sep, Ascii.eqb_refl.
  - rewrite append_cons. cbn [rpartition]. by rewrite IH.
Qed.

Lemma split_first_segment (sep : ascii) (s1 s2 : string) :
  contains (String sep EmptyString) s1 = false →
  split sep (s1 +:+ String sep s2) = s1 :: split sep s2.
Proof.
  induction s1 as [|c s1 IH].
  - intros _. rewrite append_empty_l. cbn [split]. by rewrite Ascii.eqb_refl.
  - intros [Hc Hs]%no_sep_cons. rewrite append_cons. cbn [split].
    by rewrite Hc, IH.
Qed.

Lemma pretty_N_char_no_underscore (d : N) :
  Ascii.eqb "_" (pretty_N_char d) = false.
Proof. unfold pretty_N_char. by repeat case_match. Qed.

Lemma pretty_N_go_no_underscore (x : N) : ∀ s,
  contains "_" s = false → contains "_" (pretty_N_go x s) = false.
Proof.
  induction (N.lt_wf_0 x) as [x _ IH]. intros s Hs.
  destruct (decide (x = 0)%N) as [->|Hx]; [by rewrite pretty_N_go_0|].
  rewrite pretty_N_go_step by lia. apply IH; [apply N.div_lt; lia|].
  by rewrite contains_char_cons, pretty_N_char_no_underscore, Hs.
Qed.

Lemma of_int_no_underscore (n : Z) : contains "_" (of_int n) = false.
Proof.
  unfold of_int. destruct n as [|p|p]; [done| |].
  - change (pretty (Z.pos p)) with (pretty_N_go (N.pos p) EmptyString).
    by apply pretty_N_go_no_underscore.
  - change (pretty (Z.neg p))
      with (String "-" (pretty_N_go (N.pos p) EmptyString)).
    rewrite contains_char_cons.
    by rewrite pretty_N_go_no_underscore.
Qed.

Lemma zfill_go_no_underscore (k : nat) (s : string) :
  contains "_" s = false → contains "_" (zfill_go k s) = false.
Proof.
  intros Hs. induction k as [|k IH]; [done|].
  cbn [zfill_go]. by rewrite contains_char_cons, IH.
Qed.

Lemma format_0d_no_underscore (w : nat) (n : Z) :
  contains "_" (format_0d w n) = false.
Proof.
  unfold format_0d. destruct (n <? 0).
  - rewrite contains_char_cons. cbn [Ascii.eqb orb].
    apply zfill_go_no_underscore, (of_int_no_underscore (- n)).
  - apply zfill_go_no_underscore, (of_int_no_underscore n).
Qed.

Lemma month_filename_shape (year month : Z) :
  month_filename year month
  = ("ntsb" +:+ String "_" (of_int year +:+ String "_" (format_0d 2 month)))
    +:+ String "." "zip".
Proof.
  unfold month_filename.
  generalize (of_int year) (format_0d 2 month). intros y m.
  assert (∀ a b c : string,
            (a +:+ String "_" b) +:+ c = a +:+ String "_" (b +:+ c)) as Hsep
    by (intros; by rewrite append_assoc).
  by rewrite !Hsep.
Qed.

Lemma month_filename_stem (year month : Z) :
  stem (month_filename year month)
  = "ntsb" +:+ String "_" (of_int year +:+ String "_" (format_0d 2 month)).
Proof.
  unfold stem. rewrite month_filename_shape.
  by rewrite rpartition_last.
Qed.

Lemma month_filename_parts (year month : Z) :
  split "_" (stem (month_filename year month))
  = ["ntsb"; of_int year; format_0d 2 month].
Proof.
  rewrite month_filename_stem.
  rewrite split_first_segment by done.
  rewrite split_first_segment by apply of_int_no_underscore.
  by rewrite split_no_sep by apply format_0d_no_underscore.
Qed.

Lemma month_filename_selected (year month : Z) :
  is_month_archive (month_filename year month) = true.
Proof.
  unfold is_month_archive, Py.endswith, String.rev.
  rewrite month_filename_shape at 2. rewrite rev_app_append.
  by unfold month_filename.
Qed.

Lemma format_month_inj (m1 m2 : Z) :
  1 ≤ m1 ≤ 12 → 1 ≤ m2 ≤ 12 →
  format_0d 2 m1 = format_0d 2 m2 → m1 = m2.
Proof.
  intros H1 H2 Heq.
  set (decode := λ s : string,
         match s with
         | String a (String b EmptyString) =>
             Z.of_nat (nat_of_ascii a - 48) * 10 + Z.of_nat (nat_of_ascii b - 48)
         | _ => 0
         end).
  assert (∀ m, 1 ≤ m ≤ 12 → decode (format_0d 2 m) = m) as Hdecode.
  { intros m Hm.
    assert (m = 1 ∨ m = 2 ∨ m = 3 ∨ m = 4 ∨ m = 5 ∨ m = 6 ∨ m = 7 ∨ m = 8
            ∨ m = 9 ∨ m = 10 ∨ m = 11 ∨ m = 12) as Hcases by lia.
    destruct_or!; subst m; vm_compute; reflexivity. }
  rewrite <-(Hdecode m1 H1), <-(Hdecode m2 H2). by rewrite Heq.
Qed.

Section files.
Variable path_name : string → string.
Variable listing : list (string * option (list (string * string))).
Variable extracted : gmap string string.

Abbreviation from_archives := (extra.provenance path_name listing extracted).

Lemma foldl_extract_entry zip_name infolist year month :
  (zip_name, Some infolist) ∈ listing →
  is_month_archive zip_name = true →
  split "_" (stem zip_name) !! 1%nat = Some year →
  split "_" (stem zip_name) !! 2%nat = Some month →
  ∀ entries acc,
    entries ⊆ infolist →
    (∀ name content, acc !! name = Some content → from_archives name content) →
    (∀ name, is_Some (extracted !! name) → is_Some (acc !! name)) →
    (∀ name content,
       foldl (extract_entry path_name year month) acc entries !! name
       = Some content →
       from_archives name content)
    ∧ (∀ name,
         is_Some (extracted !! name) →
         is_Some (foldl (extract_entry path_name year month) acc entries
                    !! name)).
Proof.
  intros Hzip Hsel Hyear Hmonth.
  induction entries as [|file_info entries IH]; intros acc Hsub Hacc Hdom;
    [done|].
  cbn [foldl]. apply IH.
  - intros x Hx. apply Hsub. by right.
  - intros name content. unfold extract_entry.
    destruct (truthy (path_name file_info.1)) eqn:Hname; [|by apply Hacc].
    intros [[<- <-]|[_ Hold]]%lookup_insert_Some; [|by apply Hacc].
    right. exists zip_name, infolist, file_info, year, month.
    split_and!; try done.
    + apply Hsub. by left.
    + intros Hempty. by rewrite Hempty in Hname.
  - intros name Hin. unfold extract_entry.
    destruct (truthy (path_name file_info.1)); [|by apply Hdom].
    destruct (decide (year +:+ "_" +:+ month +:+ "_" +:+ path_name file_info.1
                      = name)) as [<-|Hne].
    + rewrite lookup_insert_eq. by eexists.
    + rewrite lookup_insert_ne by done. by apply Hdom.
Qed.

Lemma foldl_extract_zip_None zips :
  foldl (λ acc zip_path, extracted ← acc; extract_zip path_name extracted zip_path)
    None zips = None.
Proof. by induction zips. Qed.

Lemma foldl_extract_zip zips : ∀ acc extracted',
  (∀ zip_path, zip_path ∈ zips →
     zip_path ∈ listing ∧ is_month_archive zip_path.1 = true) →
  (∀ name content, acc !! name = Some content → from_archives name content) →
  (∀ name, is_Some (extracted !! name) → is_Some (acc !! name)) →
  foldl (λ acc zip_path, extracted ← acc; extract_zip path_name extracted zip_path)
    (Some acc) zips = Some extracted' →
  (∀ name content,
     extracted' !! name = Some content → from_archives name content)
  ∧ (∀ name, is_Some (extracted !! name) → is_Some (extracted' !! name))
  ∧ Forall (λ zip_path : string * option (list (string * string)),
              (3 ≤ length (split "_" (stem zip_path.1)))%nat) zips.
Proof.
  induction zips as [|[zip_name content] zips IH];
    intros acc extracted' Hzips Hacc Hdom Hrun.
  { cbn in Hrun. simplify_eq. by split_and!. }
  cbn [foldl mbind option_bind] in Hrun.
  destruct (extract_zip path_name acc (zip_name, content)) as [acc1|] eqn:Hzip.
  2:{ by rewrite foldl_extract_zip_None in Hrun. }
  unfold extract_zip in Hzip. cbn [fst snd] in Hzip.
  destruct (split "_" (stem zip_name) !! 1%nat) as [year|] eqn:Hyear;
    cbn [mbind option_bind] in Hzip; [|done].
  destruct (split "_" (stem zip_name) !! 2%nat) as [month|] eqn:Hmonth;
    cbn [mbind option_bind] in Hzip; [|done].
  simplify_eq.
  destruct (Hzips (zip_name, content)) as [Hin Hsel]; [by left|].
  cbn [fst] in Hsel.
  assert ((∀ name c,
             match content with
             | Some infolist =>
                 foldl (extract_entry path_name year month) acc infolist
             | None => acc
             end !! name = Some c → from_archives name c)
          ∧ (∀ name,
               is_Some (extracted !! name) →
               is_Some (match content with
                        | Some infolist =>
                            foldl (extract_entry path_name year month) acc
                              infolist
                        | None => acc
                        end !! name))) as [Hacc1 Hdom1].
  { destruct content as [infolist|]; [|done].
    by apply (foldl_extract_entry zip_name infolist year month). }
  destruct (IH _ _ (λ z Hz, Hzips z (list_elem_of_further _ _ _ Hz))
              Hacc1 Hdom1 Hrun) as (Hprov & Hkeep & Hlong).
  split_and!; [done|done|]. constructor; [|done]. cbn [fst].
  apply lookup_lt_Some in Hmonth. lia.
Qed.

End files.
Lemma append_inv_head (a b c : string) : a +:+ b = a +:+ c → b = c.
Proof.
  induction a as [|x a IH]; [done|].
  rewrite !append_cons. intros [= Heq]. by apply IH.
Qed.

Lemma month_filename_window (year1 month1 year2 month2 : Z) :
  1 ≤ month1 ≤ 12 → 1 ≤ month2 ≤ 12 →
  month_filename year1 month1 = month_filename year2 month2 →
  year1 = year2 ∧ month1 = month2.
Proof.
  intros H1 H2 Heq.
  apply (f_equal (λ name, split "_" (stem name))) in Heq.
  rewrite !month_filename_parts in Heq.
  injection Heq as Hyear Hmonth. split.
  - by apply (inj pretty).
  - by apply format_month_inj.
Qed.

Lemma month_filepath_window (output_dir : string)
    (year1 month1 year2 month2 : Z) :
  1 ≤ month1 ≤ 12 → 1 ≤ month2 ≤ 12 →
  month_filepath output_dir year1 month1
  = month_filepath output_dir year2 month2 →
  year1 = year2 ∧ month1 = month2.
Proof.
  intros H1 H2 Heq. unfold month_filepath in Heq.
  apply append_inv_head, append_inv_head in Heq.
  by apply month_filename_window.
Qed.

End unzip_more.

(** X20.  The archives [download_month] writes are the ones the
    extraction selects, and the extraction reads back from their names
    the year as printed and the month on two digits: for such an archive
    the [IndexError] cannot occur, whatever the year and the month. *)
Theorem extract_zip_reads_download_name
    (path_name : string → string) (year month : Z)
    (content : option (list (string * string)))
    (extracted : gmap string string) :
  unzip_with_rename.is_month_archive (NTSBScraper.month_filename year month)
  = true
  ∧ Str.split "_"
      (unzip_with_rename.stem (NTSBScraper.month_filename year month))
    = ["ntsb"; Str.of_int year; Str.format_0d 2 month]
  ∧ unzip_with_rename.extract_zip path_name extracted
      (NTSBScraper.month_filename year month, content)
    = Some match content with
           | Some infolist =>
               foldl (unzip_with_rename.extract_entry path_name
                        (Str.of_int year) (Str.format_0d 2 month))
                 extracted infolist
           | None => extracted
           end.
Proof.
  split; [apply month_filename_selected|].
  split; [apply month_filename_parts|].
  unfold unzip_with_rename.extract_zip. cbn [fst snd].
  by rewrite month_filename_parts.
Qed.

(** X21.  Two different months never share a file: for months 1 to 12
    the path [download_month] tests and writes determines the year and
    the month, so a call of [download_month] for one month, whatever its
    outcome, leaves the file of every other month as it was: present
    with the same content, or absent. *)
Theorem month_filepath_distinct
    (output_dir : string)
    (http_post : nat → NTSBScraper.request → NTSBScraper.post_result)
    (year1 month1 year2 month2 : Z) :
  1 ≤ month1 ≤ 12 → 1 ≤ month2 ≤ 12 →
  (year1, month1) ≠ (year2, month2) →
  NTSBScraper.month_filepath output_dir year1 month1
  ≠ NTSBScraper.month_filepath output_dir year2 month2
  ∧ ∀ w ok w',
      NTSBScraper.download_month output_dir http_post year2 month2 w
      = Ok (ok, w') →
      NTSBScraper.files w'
        !! NTSBScraper.month_filepath output_dir year1 month1
      = NTSBScraper.files w
          !! NTSBScraper.month_filepath output_dir year1 month1.
Proof.
  intros H1 H2 Hne.
  assert (NTSBScraper.month_filepath output_dir year1 month1
          ≠ NTSBScraper.month_filepath output_dir year2 month2) as Hpath.
  { intros [-> ->]%month_filepath_window; done. }
  split; [done|]. intros w ok w' Hrun.
  destruct (download_month_cases output_dir http_post year2 month2 w)
    as [[_ Hcase]|[(_ & _ & Hcase)|[(_ & _ & message & _ & Hcase)
        |(_ & _ & status_code & content & _ & _ & Hcase)]]];
    rewrite Hcase in Hrun; simplify_eq; cbn [NTSBScraper.files]; try done.
  by rewrite lookup_insert_ne.
Qed.

Lemma month_filepath_distinct_witness :
  NTSBScraper.month_filepath "ntsb_data" 2024 1
  ≠ NTSBScraper.month_filepath "ntsb_data" 2024 2
  ∧ ∃ w',
      NTSBScraper.download_month "ntsb_data" extra.service_up 2024 2
        windows.empty_world = Ok (true, w')
      ∧ NTSBScraper.files w' !! "ntsb_data/ntsb_2024_02.zip" = Some "PK"
      ∧ NTSBScraper.files w' !! "ntsb_data/ntsb_2024_01.zip" = None.
Proof.
  destruct (month_filepath_distinct "ntsb_data" extra.service_up 2024 1 2024 2)
    as [Hpath Hframe]; [lia|lia|congruence|].
  split; [exact Hpath|]. eexists. split; [reflexivity|].
  split; [reflexivity|].
  exact (Hframe windows.empty_world true _ eq_refl).
Defined.

(** X22.  The year and the month of an archive are read before the
    [try]: one selected archive whose stem has fewer than three parts
    between underscores ends the whole extraction with the
    [IndexError]. *)
Theorem unzip_stops_at_short_name
    (path_name : string → string)
    (listing : list (string * option (list (string * string))))
    (extracted : gmap string string)
    (zip_path : string * option (list (string * string))) :
  zip_path ∈ listing →
  unzip_with_rename.is_month_archive zip_path.1 = true →
  (length (Str.split "_" (unzip_with_rename.stem zip_path.1)) < 3)%nat →
  unzip_with_rename.unzip path_name listing extracted = None.
Proof.
  intros Hin Hsel Hshort. unfold unzip_with_rename.unzip.
  destruct (foldl _ _ _) as [extracted'|] eqn:Hrun; [|done].
  apply (foldl_extract_zip path_name listing extracted) in Hrun
    as (_ & _ & Hlong); [| |by left|done].
  - rewrite Forall_forall in Hlong.
    assert (3 ≤ length (Str.split "_" (unzip_with_rename.stem zip_path.1)))%nat;
      [|lia].
    apply Hlong. apply list_elem_of_filter. by rewrite Hsel.
  - intros z [Hz1 Hz2]%list_elem_of_filter. split; [done|].
    by destruct (unzip_with_rename.is_month_archive z.1).
Qed.

Lemma unzip_stops_at_short_name_witness :
  unzip_with_rename.unzip extra.no_path
    [("ntsb_2010_01.zip", Some [("cases.json", "[]")]);
     ("ntsb_2010.zip", Some [("cases.json", "[]")])] ∅
  = None.
Proof.
  apply (unzip_stops_at_short_name extra.no_path _ ∅
           ("ntsb_2010.zip", Some [("cases.json", "[]")])).
  - right. left.
  - reflexivity.
  - vm_compute. lia.
Defined.

(** X23.  When the extraction ends, every file that was in the output
    directory is still there, and every file of the directory either was
    there with the same content or is an entry of a selected archive that
    opened, named by the second and the third part of the stem of the
    archive and the base name of the entry, with the content of the
    entry; an entry without base name writes nothing. *)
Theorem unzip_files_come_from_archives
    (path_name : string → string)
    (listing : list (string * option (list (string * string))))
    (extracted extracted' : gmap string string) :
  unzip_with_rename.unzip path_name listing extracted = Some extracted' →
  (∀ name, is_Some (extracted !! name) → is_Some (extracted' !! name))
  ∧ (∀ name content,
       extracted' !! name = Some content →
       extra.provenance path_name listing extracted name content).
Proof.
  unfold unzip_with_rename.unzip. intros Hrun.
  apply (foldl_extract_zip path_name listing extracted) in Hrun
    as (Hprov & Hkeep & _); [by split| |by left|done].
  intros z [Hz1 Hz2]%list_elem_of_filter. split; [done|].
  by destruct (unzip_with_rename.is_month_archive z.1).
Qed.

Lemma unzip_files_come_from_archives_witness :
  ∃ extracted',
    unzip_with_rename.unzip extra.no_path
      [("ntsb_2010_01.zip", Some [("cases.json", "[]"); ("", "dir")]);
       ("notes.txt", None)] ∅
    = Some extracted'
    ∧ ∀ name content,
        extracted' !! name = Some content →
        extra.provenance extra.no_path
          [("ntsb_2010_01.zip", Some [("cases.json", "[]"); ("", "dir")]);
           ("notes.txt", None)] ∅ name content.
Proof.
  eexists. split; [vm_compute; reflexivity|].
  apply (unzip_files_come_from_archives extra.no_path
           [("ntsb_2010_01.zip", Some [("cases.json", "[]"); ("", "dir")]);
            ("notes.txt", None)] ∅).
  vm_compute. reflexivity.
Defined.
